(** * GitHub activity feed: the route handler and the feed page

    A shallow embedding of [src/app/api/github-feed/route.ts]: the server
    route [GET] with [normalizeEvent], and the client page [Page] with its
    local capture log, followed by the properties of the two.

    Conventions of the embedding.
    - A JavaScript string is a [string]; one character stands for one code
      unit, which is exact on the ASCII range and keeps text outside it as
      its UTF-8 bytes.
    - A JavaScript number is a [JsNumber]: [NaN], an infinity, or a finite
      value held as a rational.  Conversions between numbers and text and
      the parsing of dates belong to the host; they are the fields of the
      class [Platform].  The properties hold for every host; examples are
      computed on the host [integer_host] defined at the end of the model.
    - A value that may be missing is a [Opt]: [Undef] for [undefined],
      [Null] for [null], [Val] otherwise.
    - An object is the list of its own properties in the order in which
      the language enumerates them; a property key is an ordinary own
      property, as the keys the program uses are.
    - An asynchronous call is modelled by what it settles to; the events of
      the browser reach the page one at a time, as inputs of [step]. *)

From Stdlib Require Import ZArith QArith Qround List String Ascii Bool Lia Permutation.
From stdpp Require Import base option list gmap strings.

Import ListNotations.
Open Scope string_scope.
Open Scope Z_scope.

(** ** JavaScript values used by the program *)

Inductive Opt (A : Type) : Type :=
  | Undef
  | Null
  | Val (a : A).

Arguments Undef {A}.
Arguments Null {A}.
Arguments Val {A} a.

Inductive JsNumber : Type :=
  | NaN
  | Inf (negative : bool)
  | Fin (q : Q).

Definition of_Z (z : Z) : JsNumber := Fin (inject_Z z).

(** [n] is falsy: it is [NaN] or a zero. *)
Definition number_falsy (n : JsNumber) : bool :=
  match n with
  | NaN => true
  | Inf _ => false
  | Fin q => (Qnum q =? 0)%Z
  end.

(** [a <= b] on numbers; any comparison with [NaN] is false. *)
Definition number_le (a b : JsNumber) : bool :=
  match a, b with
  | NaN, _ | _, NaN => false
  | Inf true, _ => true
  | _, Inf false => true
  | Inf false, _ => false
  | _, Inf true => false
  | Fin x, Fin y => Qle_bool x y
  end.

(** The host: [Number(s)], the text of a number in a template literal, and
    [new Date(s).getTime()], which is [None] for an invalid date. *)
Class Platform : Type := {
  Number_ : string -> JsNumber;
  NumberToString : JsNumber -> string;
  Date_getTime : string -> option Z;
  is_double : Q -> bool
}.

(** ** Strings *)

(** [s] is truthy: it is not the empty string. *)
Definition str_truthy (s : string) : bool :=
  match s with
  | EmptyString => false
  | String _ _ => true
  end.

(** [o || d] where [o] is a possibly missing string. *)
Definition or_str (o : Opt string) (d : string) : string :=
  match o with
  | Val s => if str_truthy s then s else d
  | _ => d
  end.

(** [o1 || o2] on possibly missing strings. *)
Definition or_opt (o1 o2 : Opt string) : Opt string :=
  match o1 with
  | Val s => if str_truthy s then o1 else o2
  | _ => o2
  end.

(** The text of a possibly missing string in a template literal. *)
Definition tpl (o : Opt string) : string :=
  match o with
  | Undef => "undefined"
  | Null => "null"
  | Val s => s
  end.

(** [o?.f]: [undefined] when [o] is [null] or [undefined]. *)
Definition chain {A B : Type} (o : Opt A) (f : A -> Opt B) : Opt B :=
  match o with
  | Val a => f a
  | _ => Undef
  end.

Fixpoint starts_with (p s : string) : bool :=
  match p, s with
  | EmptyString, _ => true
  | String a p', String b s' => if Ascii.eqb a b then starts_with p' s' else false
  | String _ _, EmptyString => false
  end.

Fixpoint drop_str (n : nat) (s : string) : string :=
  match n, s with
  | O, _ => s
  | S n', String _ s' => drop_str n' s'
  | S _, EmptyString => EmptyString
  end.

(** [s.replace(pat, rep)] with a string pattern: the first occurrence only. *)
Fixpoint replace_first (pat rep s : string) : string :=
  if starts_with pat s then rep ++ drop_str (String.length pat) s
  else match s with
       | EmptyString => EmptyString
       | String c s' => String c (replace_first pat rep s')
       end.

(** [s.slice(0, n)]. *)
Fixpoint slice0 (n : nat) (s : string) : string :=
  match n, s with
  | S n', String c s' => String c (slice0 n' s')
  | _, _ => EmptyString
  end.

Definition lower_char (c : ascii) : ascii :=
  let n := nat_of_ascii c in
  if ((65 <=? n)%nat && (n <=? 90)%nat)%bool then ascii_of_nat (n + 32) else c.

(** [s.toLowerCase()], on the ASCII letters. *)
Fixpoint toLowerCase (s : string) : string :=
  match s with
  | EmptyString => EmptyString
  | String c s' => String (lower_char c) (toLowerCase s')
  end.

Definition hex_digit (n : nat) : ascii :=
  if (n <? 10)%nat then ascii_of_nat (48 + n) else ascii_of_nat (55 + n).

Definition uri_unreserved (c : ascii) : bool :=
  let n := nat_of_ascii c in
  (((48 <=? n) && (n <=? 57)) || ((65 <=? n) && (n <=? 90)) || ((97 <=? n) && (n <=? 122))
   || (n =? 45) || (n =? 95) || (n =? 46) || (n =? 33) || (n =? 126) || (n =? 42)
   || (n =? 39) || (n =? 40) || (n =? 41))%nat%bool.

(** [encodeURIComponent(s)]: every byte outside the unreserved set is
    percent-encoded. *)
Fixpoint encodeURIComponent (s : string) : string :=
  match s with
  | EmptyString => EmptyString
  | String c s' =>
      if uri_unreserved c then String c (encodeURIComponent s')
      else let n := nat_of_ascii c in
           String "%" (String (hex_digit (n / 16)) (String (hex_digit (n mod 16))
             (encodeURIComponent s')))
  end.

(** ** Events of the GitHub API, as [normalizeEvent] reads them *)

Record RawActor : Type := {
  raw_login : Opt string;
  raw_avatar_url : Opt string;
  raw_actor_url : Opt string
}.

Record RawRepo : Type := { raw_repo_name : string }.

Record Commit : Type := { message : Opt string }.

(** A pull request or an issue: [number], [title], [html_url]. *)
Record Ticket : Type := {
  number : Opt JsNumber;
  title : Opt string;
  html_url : Opt string
}.

Record Forkee : Type := { forkee_html_url : Opt string }.

Record Release : Type := {
  tag_name : Opt string;
  release_html_url : Opt string
}.

Record Payload : Type := {
  commits : Opt (list Commit);
  ref : Opt string;
  action : Opt string;
  pull_request : Opt Ticket;
  issue : Opt Ticket;
  forkee : Opt Forkee;
  ref_type : Opt string;
  release : Opt Release
}.

Record RawEvent : Type := {
  raw_id : string;
  raw_type : string;
  raw_actor : Opt RawActor;
  raw_repo : Opt RawRepo;
  raw_created_at : string;
  raw_payload : Opt Payload
}.

Record NormActor : Type := {
  login : string;
  avatar_url : Opt string;
  actor_url : Opt string
}.

Record NormRepo : Type := {
  name : string;
  repo_url : string
}.

(** [NormalizedGithubEvent]. *)
Record NormalizedGithubEvent : Type := {
  id : string;
  type : string;
  actionText : string;
  url : Opt string;
  repo : option NormRepo;
  actor : NormActor;
  created_at : string;
  icon : string;
  details : option (list string)
}.

Section Normalize.
Context `{Platform}.

(** The text of a possibly missing number in a template literal. *)
Definition tpl_num (o : Opt JsNumber) : string :=
  match o with
  | Undef => "undefined"
  | Null => "null"
  | Val n => NumberToString n
  end.

Definition normalizeActor (a : Opt RawActor) : NormActor :=
  {| login := or_str (chain a raw_login) "";
     avatar_url := chain a raw_avatar_url;
     actor_url :=
       or_opt
         (chain (chain a raw_actor_url)
            (fun u => Val (replace_first "api.github.com/users" "github.com" u)))
         (match chain a raw_login with
          | Val l => if str_truthy l then Val ("https://github.com/" ++ l) else Undef
          | _ => Undef
          end) |}.

Definition normalizeRepo (r : Opt RawRepo) : option NormRepo :=
  match r with
  | Val r =>
      Some {| name := raw_repo_name r;
              repo_url := "https://github.com/" ++ raw_repo_name r |}
  | _ => None
  end.

(** [repo?.url]. *)
Definition repo_url_opt (r : option NormRepo) : Opt string :=
  match r with
  | Some r => Val (repo_url r)
  | None => Undef
  end.

Definition normalizeEvent (e : RawEvent) : NormalizedGithubEvent :=
  let type := raw_type e in
  let actor := normalizeActor (raw_actor e) in
  let repo := normalizeRepo (raw_repo e) in
  let created_at := raw_created_at e in
  let payload := raw_payload e in
  let mk actionText url icon details :=
    {| id := raw_id e; type := type; actionText := actionText; url := url;
       repo := repo; actor := actor; created_at := created_at; icon := icon;
       details := details |} in
  if String.eqb type "PushEvent" then
    let commits := match chain payload commits with Val cs => cs | _ => [] end in
    let details := List.map (fun c => "commit: " ++ tpl (message c)) commits in
    let branch := chain (chain payload ref)
                    (fun r => Val (replace_first "refs/heads/" "" r)) in
    mk (login actor ++ " が " ++ tpl branch ++ " に "
          ++ NumberToString (of_Z (Z.of_nat (List.length commits))) ++ " 件プッシュ")
       (repo_url_opt repo) "git-commit" (Some details)
  else if String.eqb type "PullRequestEvent" then
    let action := chain payload action in
    let pr := chain payload pull_request in
    mk (login actor ++ " が PR を " ++ tpl action ++ ": #" ++ tpl_num (chain pr number)
          ++ " " ++ or_str (chain pr title) "")
       (chain pr html_url) "git-pull-request" None
  else if String.eqb type "IssuesEvent" then
    let action := chain payload action in
    let issue := chain payload issue in
    mk (login actor ++ " が Issue を " ++ tpl action ++ ": #"
          ++ tpl_num (chain issue number) ++ " " ++ or_str (chain issue title) "")
       (chain issue html_url) "git-branch" None
  else if String.eqb type "IssueCommentEvent" then
    let action := chain payload action in
    let issue := chain payload issue in
    mk (login actor ++ " が Issue にコメント (" ++ tpl action ++ ")")
       (chain issue html_url) "message-square" None
  else if String.eqb type "WatchEvent" then
    mk (login actor ++ " が Star を付けました") (repo_url_opt repo) "star" None
  else if String.eqb type "ForkEvent" then
    let forkee := chain payload forkee in
    mk (login actor ++ " がフォークしました")
       (or_opt (chain forkee forkee_html_url) (repo_url_opt repo)) "git-fork" None
  else if String.eqb type "CreateEvent" then
    let refType := chain payload ref_type in
    let ref := chain payload ref in
    mk (login actor ++ " が " ++ tpl refType
          ++ (match ref with
              | Val r => if str_truthy r then ": " ++ r else ""
              | _ => ""
              end) ++ " を作成")
       (repo_url_opt repo) "file-plus" None
  else if String.eqb type "ReleaseEvent" then
    let rel := chain payload release in
    mk (login actor ++ " がリリースを公開: " ++ or_str (chain rel tag_name) "")
       (or_opt (chain rel release_html_url) (repo_url_opt repo)) "tag" None
  else if String.eqb type "PublicEvent" then
    mk (login actor ++ " がリポジトリを公開しました") (repo_url_opt repo) "globe" None
  else
    mk (login actor ++ " が " ++ type ++ " を実行") (repo_url_opt repo) "github" None.

End Normalize.

(** ** Objects used as maps, and [Array.prototype.sort] *)

(** An object with values in [V]: its own properties in the order the
    language enumerates them, array indices ascending first, then the
    other keys in creation order. *)
Definition JsObject (V : Type) : Type := list (string * V).

Fixpoint obj_get {V : Type} (k : string) (o : JsObject V) : option V :=
  match o with
  | [] => None
  | (k', v') :: o' => if String.eqb k k' then Some v' else obj_get k o'
  end.

Definition is_digit (c : ascii) : bool :=
  let n := nat_of_ascii c in ((48 <=? n) && (n <=? 57))%nat%bool.

Fixpoint digits_value (acc : Z) (s : string) : option Z :=
  match s with
  | EmptyString => Some acc
  | String c s' =>
      if is_digit c then digits_value (10 * acc + Z.of_nat (nat_of_ascii c - 48)) s'
      else None
  end.

(** The array index a key denotes, if it is one: a canonical decimal
    numeral below [2^32 - 1]. *)
Definition array_index (k : string) : option Z :=
  match k with
  | EmptyString => None
  | String c rest =>
      if (Ascii.eqb c "0" && str_truthy rest)%bool then None
      else match digits_value 0 k with
           | Some n => if n <? 4294967295 then Some n else None
           | None => None
           end
  end.

(** An existing property takes a new value and keeps its place. *)
Fixpoint obj_replace {V : Type} (k : string) (v : V) (o : JsObject V) : JsObject V :=
  match o with
  | [] => []
  | (k', v') :: o' =>
      if String.eqb k k' then (k, v) :: o' else (k', v') :: obj_replace k v o'
  end.

(** A new property whose key is the array index [n] goes before the first
    property that is not a smaller index. *)
Fixpoint obj_insert_index {V : Type} (n : Z) (k : string) (v : V) (o : JsObject V)
  : JsObject V :=
  match o with
  | [] => [(k, v)]
  | (k', v') :: o' =>
      match array_index k' with
      | Some m => if n <? m then (k, v) :: o else (k', v') :: obj_insert_index n k v o'
      | None => (k, v) :: o
      end
  end.

(** [o[k] = v]. *)
Definition obj_set {V : Type} (k : string) (v : V) (o : JsObject V) : JsObject V :=
  match obj_get k o with
  | Some _ => obj_replace k v o
  | None =>
      match array_index k with
      | Some n => obj_insert_index n k v o
      | None => (o ++ [(k, v)])%list
      end
  end.

Definition Object_entries {V : Type} (o : JsObject V) : list (string * V) := o.

Definition Object_values {V : Type} (o : JsObject V) : list V := List.map snd o.

(** The result of a comparator is positive; [NaN] ([None]) counts as zero. *)
Definition is_positive (v : option Z) : bool :=
  match v with
  | Some z => 0 <? z
  | None => false
  end.

Fixpoint sort_insert {A : Type} (cmp : A -> A -> option Z) (x : A) (l : list A) : list A :=
  match l with
  | [] => [x]
  | y :: l' => if is_positive (cmp x y) then y :: sort_insert cmp x l' else x :: l
  end.

(** [l.sort(cmp)]: a stable sort; an element moves behind another only when
    the comparator puts it there. *)
Definition Array_sort {A : Type} (cmp : A -> A -> option Z) (l : list A) : list A :=
  List.fold_right (sort_insert cmp) [] l.

(** [arr.filter(Boolean)] on entries that are events or falsy. *)
Fixpoint filter_Boolean {A : Type} (l : list (option A)) : list A :=
  match l with
  | [] => []
  | Some e :: l' => e :: filter_Boolean l'
  | None :: l' => filter_Boolean l'
  end.

(** ** The route handler [GET] *)

(** What [res.json()] gives for a body that holds events: the array of
    entries ([None] for a falsy entry such as [null]), or the error it
    rejects with. *)
Inductive JsonBody : Type :=
  | JsonError (message : string)
  | JsonArray (entries : list (option RawEvent)).

(** An upstream [Response]: its status, its headers by lower-case name, its
    body as [text()] gives it and as [json()] does. *)
Record Response : Type := {
  status : Z;
  headers : gmap string string;
  text : string;
  json : JsonBody
}.

(** [res.ok]. *)
Definition ok (r : Response) : bool := (200 <=? status r) && (status r <=? 299).

(** [res.headers.get(name)]. *)
Definition headers_get (r : Response) (name : string) : option string :=
  headers r !! name.

(** A settled [fetch]. *)
Inductive Settled : Type :=
  | Rejected (message : string)
  | Fulfilled (r : Response).

(** The network as the handler sees it: what a [fetch] of a URL with
    request headers settles to, and, when both calls reject, whether the
    second is the first to do so. *)
Record Network : Type := {
  fetch : string -> list (string * string) -> Settled;
  second_rejects_first : bool
}.

(** The incoming request: its query parameters in order, and its headers
    by lower-case name. *)
Record Request : Type := {
  searchParams : list (string * string);
  request_headers : gmap string string
}.

(** [searchParams.get(k)]: the first value of [k]. *)
Fixpoint searchParams_get (k : string) (q : list (string * string)) : option string :=
  match q with
  | [] => None
  | (k', v) :: q' => if String.eqb k k' then Some v else searchParams_get k q'
  end.

Record Rate : Type := {
  limit : option JsNumber;
  remaining : option JsNumber;
  reset : option JsNumber
}.

Inductive Body : Type :=
  | ErrorBody (error : string)
  | FeedBody (events : list NormalizedGithubEvent) (rate : Rate) (source : string).

(** [NextResponse.json(body, { status })]. *)
Record NextResponse : Type := {
  response_status : Z;
  response_body : Body
}.

Definition ghBase : string := "https://api.github.com".

(** [Promise.all] of the primary call and of the optional secondary one:
    the error of the rejection that comes first, or both results. *)
Definition Promise_all (first : Settled) (second : option Settled) (second_first : bool)
  : string + (Response * option Response) :=
  match first, second with
  | Rejected m1, Some (Rejected m2) => inl (if second_first then m2 else m1)
  | Rejected m1, _ => inl m1
  | Fulfilled _, Some (Rejected m2) => inl m2
  | Fulfilled r1, Some (Fulfilled r2) => inr (r1, Some r2)
  | Fulfilled r1, None => inr (r1, None)
  end.

(** [acc[e.id] = e] over the events, from the empty object. *)
Definition merge_by_id (es : list RawEvent) : JsObject RawEvent :=
  List.fold_left (fun acc e => obj_set (raw_id e) e acc) es [].

Section Route.
Context `{Platform}.

(** [(h && Number(h)) || undefined] for a header value [h]. *)
Definition rate_counter (h : option string) : option JsNumber :=
  match h with
  | None => None
  | Some s =>
      if str_truthy s
      then (if number_falsy (Number_ s) then None else Some (Number_ s))
      else None
  end.

Definition rate_of (r : Response) : Rate :=
  {| limit := rate_counter (headers_get r "x-ratelimit-limit");
     remaining := rate_counter (headers_get r "x-ratelimit-remaining");
     reset := rate_counter (headers_get r "x-ratelimit-reset") |}.

(** The comparator of both sorts:
    [new Date(b.created_at).getTime() - new Date(a.created_at).getTime()]. *)
Definition by_created_at_desc (a b : string) : option Z :=
  match Date_getTime b, Date_getTime a with
  | Some tb, Some ta => Some (tb - ta)
  | _, _ => None
  end.

(** The merge, normalize and sort steps of the handler. *)
Definition merge_events (userEvents receivedEvents : list (option RawEvent))
  : list RawEvent :=
  Object_values (merge_by_id (filter_Boolean (userEvents ++ receivedEvents)%list)).

Definition normalize_and_sort (merged : list RawEvent) : list NormalizedGithubEvent :=
  Array_sort (fun a b => by_created_at_desc (created_at a) (created_at b))
    (List.map normalizeEvent merged).

(** [e.message || "Failed"], with status 500. *)
Definition failed (message : string) : NextResponse :=
  {| response_status := 500;
     response_body := ErrorBody (if str_truthy message then message else "Failed") |}.

(** [searchParams.get("per_page") || "30"]. *)
Definition per_page_param (req : Request) : string :=
  match searchParams_get "per_page" (searchParams req) with
  | Some v => if str_truthy v then v else "30"
  | None => "30"
  end.

Definition userEventsUrl (username : string) (perPage : JsNumber) : string :=
  ghBase ++ "/users/" ++ encodeURIComponent username
    ++ "/events/public?per_page=" ++ NumberToString perPage.

Definition receivedUrl (username : string) (perPage : JsNumber) : string :=
  ghBase ++ "/users/" ++ encodeURIComponent username
    ++ "/received_events?per_page=" ++ NumberToString perPage.

(** [searchParams.get("includeReceived") === "1"]. *)
Definition include_received (req : Request) : bool :=
  match searchParams_get "includeReceived" (searchParams req) with
  | Some v => String.eqb v "1"
  | None => false
  end.

(** [req.headers.get("authorization") || ""]. *)
Definition bearer (req : Request) : string :=
  match request_headers req !! "authorization" with
  | Some v => if str_truthy v then v else ""
  | None => ""
  end.

(** The headers of both outbound calls. *)
Definition outbound_headers (req : Request) : list (string * string) :=
  ([("User-Agent", "v0-github-activity-feed"); ("Accept", "application/vnd.github+json")]
   ++ (if starts_with "bearer " (toLowerCase (bearer req))
       then [("Authorization", bearer req)] else []))%list.

(** The body of the [try] block once [Promise.all] has given the two
    results; [receivedRes] is [None] for the [null] placeholder. *)
Definition respond (userRes : Response) (receivedRes : option Response) : NextResponse :=
  let rate := rate_of userRes in
  if negb (ok userRes)
  then {| response_status := status userRes;
          response_body :=
            ErrorBody (if str_truthy (text userRes) then text userRes else "GitHub error") |}
  else
    match json userRes with
    | JsonError message => failed message
    | JsonArray userEvents =>
        let received :=
          match receivedRes with
          | Some r => if ok r then json r else JsonArray []
          | None => JsonArray []
          end in
        match received with
        | JsonError message => failed message
        | JsonArray receivedEvents =>
            {| response_status := 200;
               response_body :=
                 FeedBody (normalize_and_sort (merge_events userEvents receivedEvents))
                   rate "github" |}
        end
    end.

(** [fetchWithSpan(name, fn)] runs [fn] inside a tracing span that it ends
    afterwards, and returns or throws what [fn] does. *)
Definition fetchWithSpan {T : Type} (name : string) (fn : T) : T := fn.

(** The handler: the outbound calls it issues, URL and request headers of
    each, and the response it returns. *)
Definition GET_trace (net : Network) (req : Request)
  : list (string * list (string * string)) * NextResponse :=
  let username := searchParams_get "username" (searchParams req) in
  let includeReceived := include_received req in
  let perPage := Number_ (per_page_param req) in
  match username with
  | None =>
      ([], {| response_status := 400; response_body := ErrorBody "username is required" |})
  | Some username =>
  if negb (str_truthy username)
  then ([], {| response_status := 400; response_body := ErrorBody "username is required" |})
  else
    let headers := outbound_headers req in
    let calls :=
      ((userEventsUrl username perPage, headers)
       :: (if includeReceived then [(receivedUrl username perPage, headers)] else []))%list in
    (calls,
     match fetchWithSpan "fetchGithubEvents"
             (Promise_all (fetch net (userEventsUrl username perPage) headers)
                (if includeReceived
                 then Some (fetch net (receivedUrl username perPage) headers) else None)
                (second_rejects_first net)) with
     | inl message => failed message
     | inr (userRes, receivedRes) => respond userRes receivedRes
     end)
  end.

Definition GET (net : Network) (req : Request) : NextResponse :=
  snd (GET_trace net req).

End Route.

(** ** The page: local capture *)

(** A value held under [meta], or read from a JSON text. *)
#[warnings="-register-all"] Inductive JsVal : Type :=
  | VUndefined
  | VNull
  | VBool (b : bool)
  | VNum (n : JsNumber)
  | VStr (s : string)
  | VArr (items : list JsVal)
  | VObj (props : list (string * JsVal)).

(** [MyActivityEvent["type"]]. *)
Inductive ActivityType : Type :=
  | click
  | keydown
  | scroll
  | route_change
  | visibility
  | heartbeat
  | copy.

Definition type_name (t : ActivityType) : string :=
  match t with
  | click => "click"
  | keydown => "keydown"
  | scroll => "scroll"
  | route_change => "route-change"
  | visibility => "visibility"
  | heartbeat => "heartbeat"
  | copy => "copy"
  end.

Module Activity.

(** [MyActivityEvent]; [meta] is [None] when the property is not there. *)
Record MyActivityEvent : Type := {
  id : string;
  type : ActivityType;
  label : string;
  created_at : string;
  meta : option (JsObject JsVal);
  icon : string
}.

End Activity.

Abbreviation MyActivityEvent := Activity.MyActivityEvent.

(** What a handler reads from its surroundings when it runs:
    [crypto.randomUUID()], [new Date().toISOString()], and
    [window.location.pathname + window.location.search]. *)
Record Ambient : Type := {
  randomUUID : string;
  now : string;
  location : string
}.

(** The target of a click, as [onClick] reads it. *)
Record Target : Type := {
  aria_label : option string;
  innerText : Opt string;
  tagName : Opt string
}.

Record MouseEvent : Type := {
  target : option Target;
  clientX : JsNumber;
  clientY : JsNumber
}.

(** The scroll offsets and sizes [onScroll] reads. *)
Record Viewport : Type := {
  scrollY : Q;
  documentElement_scrollTop : Q;
  body_scrollTop : Q;
  scrollHeight : Z;
  innerHeight : Z
}.

(** [a || b] on finite numbers. *)
Definition or_num (a b : Q) : Q := if (Qnum a =? 0)%Z then b else a.

(** [Math.round(x)]: the integer nearest to [x], a half going up. *)
Definition Math_round (x : Q) : Z := Qfloor (x + (1 # 2))%Q.

(** The depth [onScroll] computes, in percent; the quotient is taken
    exactly. *)
Definition scroll_depth (w : Viewport) : Z :=
  let scrollTop := or_num (scrollY w) (or_num (documentElement_scrollTop w)
                     (or_num (body_scrollTop w) 0)) in
  let docHeight := scrollHeight w - innerHeight w in
  if 0 <? docHeight
  then Math_round ((scrollTop / inject_Z docHeight) * 100)%Q
  else 0.

(** The cap of [add]. *)
Definition cap : nat := 2000.

(** [add(e)]: [setMyEvents((prev) => [e, ...prev].slice(0, 2000))]. *)
Definition add (e : MyActivityEvent) (prev : list MyActivityEvent) : list MyActivityEvent :=
  firstn cap (e :: prev).

Definition click_label (t : option Target) : string :=
  let from_attr := match t with Some t => aria_label t | None => None end in
  let from_text :=
    match t with
    | Some t => chain (innerText t) (fun s => Val (slice0 64 s))
    | None => Undef
    end in
  let from_tag := match t with Some t => tagName t | None => Undef end in
  match from_attr with
  | Some s => if str_truthy s then s else or_str (or_opt from_text from_tag) "click"
  | None => or_str (or_opt from_text from_tag) "click"
  end.

Definition opt_val (o : Opt string) : JsVal :=
  match o with
  | Undef => VUndefined
  | Null => VNull
  | Val s => VStr s
  end.

Definition onClick_event (a : Ambient) (ev : MouseEvent) : MyActivityEvent :=
  {| Activity.id := randomUUID a;
     Activity.type := click;
     Activity.label := click_label (target ev);
     Activity.created_at := now a;
     Activity.meta :=
       Some [("x", VNum (clientX ev)); ("y", VNum (clientY ev));
             ("tag", opt_val (match target ev with Some t => tagName t | None => Undef end));
             ("path", VStr (location a))];
     Activity.icon := "click" |}.

Definition onKey_event (a : Ambient) (key : string) : MyActivityEvent :=
  {| Activity.id := randomUUID a;
     Activity.type := keydown;
     Activity.label := "key:" ++ key;
     Activity.created_at := now a;
     Activity.meta := Some [("key", VStr key); ("path", VStr (location a))];
     Activity.icon := "keydown" |}.

Definition onVis_event (a : Ambient) (visibilityState : string) : MyActivityEvent :=
  {| Activity.id := randomUUID a;
     Activity.type := visibility;
     Activity.label := "visibility:" ++ visibilityState;
     Activity.created_at := now a;
     Activity.meta := Some [("state", VStr visibilityState)];
     Activity.icon := "visibility" |}.

Definition onCopy_event (a : Ambient) : MyActivityEvent :=
  {| Activity.id := randomUUID a;
     Activity.type := copy;
     Activity.label := "コピー";
     Activity.created_at := now a;
     Activity.meta := None;
     Activity.icon := "copy" |}.

Definition heartbeat_event (a : Ambient) : MyActivityEvent :=
  {| Activity.id := randomUUID a;
     Activity.type := heartbeat;
     Activity.label := "滞在";
     Activity.created_at := now a;
     Activity.meta := Some [("path", VStr (location a))];
     Activity.icon := "heartbeat" |}.

Definition route_change_event (a : Ambient) (from to : string) : MyActivityEvent :=
  {| Activity.id := randomUUID a;
     Activity.type := route_change;
     Activity.label := from ++ " → " ++ to;
     Activity.created_at := now a;
     Activity.meta := Some [("from", VStr from); ("to", VStr to)];
     Activity.icon := "route-change" |}.

Section Capture.
Context `{Platform}.

Definition scroll_event (a : Ambient) (depth : Z) : MyActivityEvent :=
  {| Activity.id := randomUUID a;
     Activity.type := scroll;
     Activity.label := "スクロール " ++ NumberToString (of_Z depth) ++ "%";
     Activity.created_at := now a;
     Activity.meta := Some [("depth", VNum (of_Z depth)); ("path", VStr (location a))];
     Activity.icon := "scroll" |}.

(** [onScroll], on the watermark [maxScroll] of the running capture effect
    and the list: the new watermark and the new list. *)
Definition onScroll (a : Ambient) (w : Viewport) (maxScroll : Z)
    (prev : list MyActivityEvent) : Z * list MyActivityEvent :=
  let depth := scroll_depth w in
  if maxScroll <? depth
  then (depth, add (scroll_event a depth) prev)
  else (maxScroll, prev).

(** The state of [Page] that capture touches: the [tracking] switch, the
    list [myEvents], the variable [maxScroll] of the capture effect that is
    running, [prevRouteRef.current], and the route of the last render
    ([pathname] and query). *)
Record PageState : Type := {
  tracking : bool;
  myEvents : list MyActivityEvent;
  maxScroll : Z;
  prevRoute : string;
  route : string
}.

(** What happens to the page. *)
Inductive PageInput : Type :=
  | SetTracking (checked : bool)
  | Click (ev : MouseEvent)
  | KeyDown (key : string)
  | Scroll (w : Viewport)
  | VisibilityChange (visibilityState : string)
  | Copy
  | HeartbeatTick
  | Navigate (pathname query : string)
  | ClearLocal.

(** The route effect: it runs when the route or [tracking] changes. *)
Definition route_effect (a : Ambient) (tracking : bool) (full : string)
    (prevRoute : string) (prev : list MyActivityEvent) : list MyActivityEvent :=
  if (str_truthy prevRoute && tracking)%bool
  then route_change_event a prevRoute full :: prev
  else prev.

(** The page after the first render: capture is off, the stored list is
    loaded, the route effect has recorded the route. *)
Definition mount (stored : list MyActivityEvent) (full : string) : PageState :=
  {| tracking := false; myEvents := stored; maxScroll := 0;
     prevRoute := full; route := full |}.

(** A listener of the capture effect; it is registered while [tracking]. *)
Definition listener (s : PageState) (e : MyActivityEvent) : PageState :=
  if tracking s
  then {| tracking := true; myEvents := add e (myEvents s); maxScroll := maxScroll s;
          prevRoute := prevRoute s; route := route s |}
  else s.

Definition step (a : Ambient) (s : PageState) (i : PageInput) : PageState :=
  match i with
  | SetTracking checked =>
      if Bool.eqb checked (tracking s) then s
      else
        {| tracking := checked;
           myEvents := route_effect a checked (route s) (prevRoute s) (myEvents s);
           maxScroll := 0;
           prevRoute := route s;
           route := route s |}
  | Click ev => listener s (onClick_event a ev)
  | KeyDown key => listener s (onKey_event a key)
  | Scroll w =>
      if tracking s
      then let '(m, l) := onScroll a w (maxScroll s) (myEvents s) in
           {| tracking := true; myEvents := l; maxScroll := m;
              prevRoute := prevRoute s; route := route s |}
      else s
  | VisibilityChange st => listener s (onVis_event a st)
  | Copy => listener s (onCopy_event a)
  | HeartbeatTick => listener s (heartbeat_event a)
  | Navigate pathname query =>
      let full := pathname ++ (if str_truthy query then "?" ++ query else "") in
      {| tracking := tracking s;
         myEvents := route_effect a (tracking s) full (prevRoute s) (myEvents s);
         maxScroll := maxScroll s;
         prevRoute := full;
         route := full |}
  | ClearLocal =>
      {| tracking := tracking s; myEvents := []; maxScroll := maxScroll s;
         prevRoute := prevRoute s; route := route s |}
  end.

(** The page after a sequence of inputs, each with what its handler reads. *)
Fixpoint run (s : PageState) (inputs : list (Ambient * PageInput)) : PageState :=
  match inputs with
  | [] => s
  | (a, i) :: rest => run (step a s i) rest
  end.

(** ** The page: the unified view *)

(** [UnifiedItem], tagged by its source. *)
Inductive UnifiedItem : Type :=
  | github (e : NormalizedGithubEvent)
  | local (e : MyActivityEvent).

Definition item_created_at (i : UnifiedItem) : string :=
  match i with
  | github e => created_at e
  | local e => Activity.created_at e
  end.

(** [unified], from [gh?.events] and [myEvents]. *)
Definition unified (gh : option (list NormalizedGithubEvent))
    (myEvents : list MyActivityEvent) : list UnifiedItem :=
  let ghItems := match gh with Some events => List.map github events | None => [] end in
  let localItems := List.map local myEvents in
  Array_sort (fun a b => by_created_at_desc (item_created_at a) (item_created_at b))
    (ghItems ++ localItems)%list.

End Capture.

(** ** The page: fetching the feed *)

Definition is_space (c : ascii) : bool :=
  let n := nat_of_ascii c in (((9 <=? n) && (n <=? 13)) || (n =? 32))%nat%bool.

Fixpoint trimStart (s : string) : string :=
  match s with
  | EmptyString => EmptyString
  | String c s' => if is_space c then trimStart s' else s
  end.

Fixpoint trimEnd (s : string) : string :=
  match s with
  | EmptyString => EmptyString
  | String c s' =>
      let t := trimEnd s' in
      if (is_space c && negb (str_truthy t))%bool then EmptyString else String c t
  end.

(** [s.trim()], on the ASCII white space. *)
Definition trim (s : string) : string := trimEnd (trimStart s).

(** The form of the page: the state [fetchGithub] reads. *)
Record Form : Type := {
  username : string;
  token : string;
  includeReceived : bool;
  perPage : JsNumber
}.

(** The form of a fresh page. *)
Definition DEFAULT_USERNAME : string := "vercel".

Definition initial_form : Form :=
  {| username := DEFAULT_USERNAME; token := ""; includeReceived := true;
     perPage := of_Z 30 |}.

(** [githubSchema.safeParse({ username, includeReceived, perPage }).success]:
    the user name has a character after trimming, the page size is a number
    from 1 to 100. *)
Definition githubSchema (f : Form) : bool :=
  (str_truthy (trim (username f))
   && number_le (of_Z 1) (perPage f) && number_le (perPage f) (of_Z 100))%bool.

Section Fetch.
Context `{Platform}.

(** The request [fetchGithub] sends to the route, URL and headers, or
    [None] when the schema refuses the form. *)
Definition fetchGithub (f : Form) : option (string * list (string * string)) :=
  if githubSchema f
  then Some ("/api/github-feed?username=" ++ encodeURIComponent (username f)
               ++ "&includeReceived=" ++ (if includeReceived f then "1" else "0")
               ++ "&per_page=" ++ NumberToString (perPage f),
             if str_truthy (token f) then [("Authorization", "Bearer " ++ token f)] else [])
  else None.

End Fetch.

(** ** JSON text *)

Definition quote : ascii := "034"%char.
Definition backslash : ascii := "092"%char.
Definition newline : ascii := "010"%char.

Definition hex_lower (n : nat) : ascii :=
  if (n <? 10)%nat then ascii_of_nat (48 + n) else ascii_of_nat (87 + n).

(** The text of one character inside a JSON string. *)
Definition escape_char (c : ascii) : string :=
  let n := nat_of_ascii c in
  if (n =? 8)%nat then String backslash "b"
  else if (n =? 9)%nat then String backslash "t"
  else if (n =? 10)%nat then String backslash "n"
  else if (n =? 12)%nat then String backslash "f"
  else if (n =? 13)%nat then String backslash "r"
  else if (n =? 34)%nat then String backslash (String quote "")
  else if (n =? 92)%nat then String backslash (String backslash "")
  else if (n <? 32)%nat
       then String backslash
              (String "u" (String "0" (String "0"
                 (String (hex_lower (n / 16)) (String (hex_lower (n mod 16)) "")))))
       else String c "".

Fixpoint escape_string (s : string) : string :=
  match s with
  | EmptyString => EmptyString
  | String c s' => escape_char c ++ escape_string s'
  end.

(** [QuoteJSONString]. *)
Definition quote_string (s : string) : string :=
  String quote (escape_string s ++ String quote "").

Fixpoint join (sep : string) (l : list string) : string :=
  match l with
  | [] => ""
  | [x] => x
  | x :: l' => x ++ sep ++ join sep l'
  end.

Section Json.
Context `{Platform}.

(** [JSON.stringify(v, null, 2)] inside a value whose indentation is
    [indent]; [None] stands for [undefined]. *)
Fixpoint stringify (indent : string) (v : JsVal) : option string :=
  match v with
  | VUndefined => None
  | VNull => Some "null"
  | VBool b => Some (if b then "true" else "false")
  | VNum n => Some (match n with Fin _ => NumberToString n | _ => "null" end)
  | VStr s => Some (quote_string s)
  | VArr items =>
      let inner := indent ++ "  " in
      let partial :=
        (fix elements (l : list JsVal) : list string :=
           match l with
           | [] => []
           | x :: l' =>
               (match stringify inner x with Some t => t | None => "null" end)
               :: elements l'
           end) items in
      Some (match partial with
            | [] => "[]"
            | _ => "[" ++ String newline inner
                     ++ join ("," ++ String newline inner) partial
                     ++ String newline indent ++ "]"
            end)
  | VObj props =>
      let inner := indent ++ "  " in
      let partial :=
        (fix members (l : list (string * JsVal)) : list string :=
           match l with
           | [] => []
           | (k, x) :: l' =>
               match stringify inner x with
               | Some t => (quote_string k ++ ": " ++ t) :: members l'
               | None => members l'
               end
           end) props in
      Some (match partial with
            | [] => "{}"
            | _ => "{" ++ String newline inner
                     ++ join ("," ++ String newline inner) partial
                     ++ String newline indent ++ "}"
            end)
  end.

(** [JSON.stringify(v, null, 2)]. *)
Definition JSON_stringify (v : JsVal) : option string := stringify "" v.

End Json.

Section Render.
Context `{Platform}.

(** [JSON.stringify(v)], without indentation. *)
Fixpoint stringify_flat (v : JsVal) : option string :=
  match v with
  | VUndefined => None
  | VNull => Some "null"
  | VBool b => Some (if b then "true" else "false")
  | VNum n => Some (match n with Fin _ => NumberToString n | _ => "null" end)
  | VStr s => Some (quote_string s)
  | VArr items =>
      Some ("[" ++ join ","
                     ((fix elements (l : list JsVal) : list string :=
                         match l with
                         | [] => []
                         | x :: l' =>
                             (match stringify_flat x with Some t => t | None => "null" end)
                             :: elements l'
                         end) items)
                ++ "]")
  | VObj props =>
      Some ("{" ++ join ","
                     ((fix members (l : list (string * JsVal)) : list string :=
                         match l with
                         | [] => []
                         | (k, x) :: l' =>
                             match stringify_flat x with
                             | Some t => (quote_string k ++ ":" ++ t) :: members l'
                             | None => members l'
                             end
                         end) props)
                ++ "}")
  end.

(** The text of a value in a template literal, for the values that are
    not objects. *)
Definition value_text (v : JsVal) : string :=
  match v with
  | VUndefined => "undefined"
  | VNull => "null"
  | VBool b => if b then "true" else "false"
  | VNum n => NumberToString n
  | VStr s => s
  | VArr _ | VObj _ => ""
  end.

(** The line the lists show under an event that has a [meta]: its first
    five properties, an object shown as its JSON text. *)
Definition meta_line (meta : JsObject JsVal) : string :=
  join "  "
    (List.map
       (fun kv =>
          fst kv ++ ":"
            ++ match snd kv with
               | VNull | VArr _ | VObj _ =>
                   match stringify_flat (snd kv) with Some t => t | None => "undefined" end
               | v => value_text v
               end)
       (firstn 5 (Object_entries meta))).

End Render.

Definition is_json_space (c : ascii) : bool :=
  let n := nat_of_ascii c in ((n =? 32) || (n =? 9) || (n =? 10) || (n =? 13))%nat%bool.

Fixpoint skip_space (s : string) : string :=
  match s with
  | EmptyString => EmptyString
  | String c s' => if is_json_space c then skip_space s' else s
  end.

Definition hex_value (c : ascii) : option N :=
  let n := N_of_ascii c in
  (if (48 <=? n) && (n <=? 57) then Some (n - 48)
   else if (97 <=? n) && (n <=? 102) then Some (n - 87)
   else if (65 <=? n) && (n <=? 70) then Some (n - 55)
   else None)%N.

Definition hex4 (a b c d : ascii) : option N :=
  match hex_value a, hex_value b, hex_value c, hex_value d with
  | Some x, Some y, Some z, Some w => Some (((x * 16 + y) * 16 + z) * 16 + w)%N
  | _, _, _, _ => None
  end.

(** The character a one-letter escape stands for. *)
Definition unescape (e : ascii) : option ascii :=
  if Ascii.eqb e quote then Some quote
  else if Ascii.eqb e backslash then Some backslash
  else if Ascii.eqb e "/" then Some "/"%char
  else if Ascii.eqb e "b" then Some "008"%char
  else if Ascii.eqb e "f" then Some "012"%char
  else if Ascii.eqb e "n" then Some "010"%char
  else if Ascii.eqb e "r" then Some "013"%char
  else if Ascii.eqb e "t" then Some "009"%char
  else None.

(** The characters of a JSON string up to its closing quote, an escaped
    code unit kept apart ([inr]), and the text after the quote. *)
Fixpoint parse_units (s : string) : option (list (ascii + N) * string) :=
  match s with
  | EmptyString => None
  | String c s1 =>
      if Ascii.eqb c quote then Some ([], s1)
      else if Ascii.eqb c backslash then
        match s1 with
        | EmptyString => None
        | String e s2 =>
            if Ascii.eqb e "u" then
              match s2 with
              | String h1 (String h2 (String h3 (String h4 s6))) =>
                  match hex4 h1 h2 h3 h4, parse_units s6 with
                  | Some n, Some (us, rest) => Some (inr n :: us, rest)
                  | _, _ => None
                  end
              | _ => None
              end
            else
              match unescape e, parse_units s2 with
              | Some ch, Some (us, rest) => Some (inl ch :: us, rest)
              | _, _ => None
              end
        end
      else if (N_of_ascii c <? 32)%N then None
      else match parse_units s1 with
           | Some (us, rest) => Some (inl c :: us, rest)
           | None => None
           end
  end.

Definition byte_of (n : N) : ascii := ascii_of_N n.

(** The UTF-8 bytes of a code point. *)
Definition utf8 (cp : N) : string :=
  (if cp <? 128 then String (byte_of cp) ""
   else if cp <? 2048 then String (byte_of (192 + cp / 64)) (String (byte_of (128 + cp mod 64)) "")
   else if cp <? 65536
        then String (byte_of (224 + cp / 4096))
               (String (byte_of (128 + (cp / 64) mod 64)) (String (byte_of (128 + cp mod 64)) ""))
        else String (byte_of (240 + cp / 262144))
               (String (byte_of (128 + (cp / 4096) mod 64))
                  (String (byte_of (128 + (cp / 64) mod 64))
                     (String (byte_of (128 + cp mod 64)) ""))))%N.

(** The string the units spell; an escaped surrogate pair is one code
    point. *)
Fixpoint decode_units (us : list (ascii + N)) : string :=
  match us with
  | [] => EmptyString
  | inl c :: us' => String c (decode_units us')
  | inr hi :: us' =>
      match us' with
      | inr lo :: us'' =>
          if ((55296 <=? hi) && (hi <=? 56319) && (56320 <=? lo) && (lo <=? 57343))%N
          then utf8 (65536 + (hi - 55296) * 1024 + (lo - 56320))%N ++ decode_units us''
          else utf8 hi ++ decode_units us'
      | _ => utf8 hi ++ decode_units us'
      end
  end.

(** The string that starts after an opening quote, and the text after it. *)
Definition parse_string (s : string) : option (string * string) :=
  match parse_units s with
  | Some (us, rest) => Some (decode_units us, rest)
  | None => None
  end.

Definition is_number_char (c : ascii) : bool :=
  (is_digit c || Ascii.eqb c "-" || Ascii.eqb c "+" || Ascii.eqb c "."
   || Ascii.eqb c "e" || Ascii.eqb c "E")%bool.

(** The longest prefix made of the characters of numerals, and the rest. *)
Fixpoint span_number (s : string) : string * string :=
  match s with
  | EmptyString => (EmptyString, EmptyString)
  | String c s' =>
      if is_number_char c
      then let '(t, rest) := span_number s' in (String c t, rest)
      else (EmptyString, s)
  end.

Fixpoint strip_digits (s : string) : string :=
  match s with
  | EmptyString => EmptyString
  | String c s' => if is_digit c then strip_digits s' else s
  end.

Definition starts_with_digit (s : string) : bool :=
  match s with
  | EmptyString => false
  | String c _ => is_digit c
  end.

Definition json_exponent (s : string) : bool :=
  match s with
  | EmptyString => true
  | String c s1 =>
      if (Ascii.eqb c "e" || Ascii.eqb c "E")%bool
      then let s2 := match s1 with
                     | String g s' => if (Ascii.eqb g "+" || Ascii.eqb g "-")%bool then s' else s1
                     | EmptyString => s1
                     end in
           (starts_with_digit s2 && negb (str_truthy (strip_digits s2)))%bool
      else false
  end.

Definition json_fraction (s : string) : bool :=
  match s with
  | String c s1 =>
      if Ascii.eqb c "."
      then (starts_with_digit s1 && json_exponent (strip_digits s1))%bool
      else json_exponent s
  | EmptyString => true
  end.

Definition json_integer (s : string) : bool :=
  match s with
  | EmptyString => false
  | String c s1 =>
      if Ascii.eqb c "0" then json_fraction s1
      else if is_digit c then json_fraction (strip_digits s1)
      else false
  end.

(** [t] is a numeral of the JSON grammar. *)
Definition json_number (t : string) : bool :=
  match t with
  | String c t1 => if Ascii.eqb c "-" then json_integer t1 else json_integer t
  | EmptyString => false
  end.

(** The object a JSON text builds from its members, in the order of the
    text. *)
Definition obj_of_members {V : Type} (ms : list (string * V)) : JsObject V :=
  List.fold_left (fun o kv => obj_set (fst kv) (snd kv) o) ms [].

Section JsonParse.
Context `{Platform}.

Fixpoint parse_value (fuel : nat) (s : string) : option (JsVal * string) :=
  match fuel with
  | O => None
  | S fuel' =>
      match skip_space s with
      | EmptyString => None
      | String c s1 =>
          if Ascii.eqb c "[" then
            match skip_space s1 with
            | String c2 s2 =>
                if Ascii.eqb c2 "]" then Some (VArr [], s2)
                else match parse_elements fuel' (String c2 s2) with
                     | Some (l, rest) => Some (VArr l, rest)
                     | None => None
                     end
            | EmptyString => None
            end
          else if Ascii.eqb c "{" then
            match skip_space s1 with
            | String c2 s2 =>
                if Ascii.eqb c2 "}" then Some (VObj [], s2)
                else match parse_members fuel' (String c2 s2) with
                     | Some (ms, rest) => Some (VObj (obj_of_members ms), rest)
                     | None => None
                     end
            | EmptyString => None
            end
          else if Ascii.eqb c quote then
            match parse_string s1 with
            | Some (t, rest) => Some (VStr t, rest)
            | None => None
            end
          else if starts_with "true" (String c s1) then Some (VBool true, drop_str 4 (String c s1))
          else if starts_with "false" (String c s1)
               then Some (VBool false, drop_str 5 (String c s1))
          else if starts_with "null" (String c s1) then Some (VNull, drop_str 4 (String c s1))
          else
            let '(t, rest) := span_number (String c s1) in
            if json_number t then Some (VNum (Number_ t), rest) else None
      end
  end
with parse_elements (fuel : nat) (s : string) : option (list JsVal * string) :=
  match fuel with
  | O => None
  | S fuel' =>
      match parse_value fuel' s with
      | Some (v, r) =>
          match skip_space r with
          | String c r1 =>
              if Ascii.eqb c "," then
                match parse_elements fuel' r1 with
                | Some (l, r2) => Some (v :: l, r2)
                | None => None
                end
              else if Ascii.eqb c "]" then Some ([v], r1)
              else None
          | EmptyString => None
          end
      | None => None
      end
  end
with parse_members (fuel : nat) (s : string) : option (list (string * JsVal) * string) :=
  match fuel with
  | O => None
  | S fuel' =>
      match skip_space s with
      | String q s1 =>
          if Ascii.eqb q quote then
            match parse_string s1 with
            | Some (k, r) =>
                match skip_space r with
                | String c r1 =>
                    if Ascii.eqb c ":" then
                      match parse_value fuel' r1 with
                      | Some (v, r2) =>
                          match skip_space r2 with
                          | String d r3 =>
                              if Ascii.eqb d "," then
                                match parse_members fuel' r3 with
                                | Some (ms, r4) => Some ((k, v) :: ms, r4)
                                | None => None
                                end
                              else if Ascii.eqb d "}" then Some ([(k, v)], r3)
                              else None
                          | EmptyString => None
                          end
                      | None => None
                      end
                    else None
                | EmptyString => None
                end
            | None => None
            end
          else None
      | EmptyString => None
      end
  end.

(** [JSON.parse(text)]; [None] when it throws.  Every call of the parser
    reads at least one character, so the length of the text bounds the
    calls. *)
Definition JSON_parse (text : string) : option JsVal :=
  match parse_value (S (String.length text)) text with
  | Some (v, rest) =>
      match skip_space rest with
      | EmptyString => Some v
      | String _ _ => None
      end
  | None => None
  end.

End JsonParse.

(** ** The page: export and import of the local list *)

(** The object a [MyActivityEvent] is, property by property. *)
Definition event_value (e : MyActivityEvent) : JsVal :=
  VObj ([("id", VStr (Activity.id e));
         ("type", VStr (type_name (Activity.type e)));
         ("label", VStr (Activity.label e));
         ("created_at", VStr (Activity.created_at e))]
        ++ match Activity.meta e with
           | Some m => [("meta", VObj m)]
           | None => []
           end
        ++ [("icon", VStr (Activity.icon e))])%list.

Definition events_value (l : list MyActivityEvent) : JsVal :=
  VArr (List.map event_value l).

Definition type_of_name (s : string) : option ActivityType :=
  if String.eqb s "click" then Some click
  else if String.eqb s "keydown" then Some keydown
  else if String.eqb s "scroll" then Some scroll
  else if String.eqb s "route-change" then Some route_change
  else if String.eqb s "visibility" then Some visibility
  else if String.eqb s "heartbeat" then Some heartbeat
  else if String.eqb s "copy" then Some copy
  else None.

Definition keys_are (props : list (string * JsVal)) (ks : list string) : bool :=
  bool_decide (List.map fst props = ks).

(** The value read as a [MyActivityEvent], when it is an object of exactly
    that shape. *)
Definition as_event (v : JsVal) : option MyActivityEvent :=
  match v with
  | VObj props =>
      if (keys_are props ["id"; "type"; "label"; "created_at"; "meta"; "icon"]
          || keys_are props ["id"; "type"; "label"; "created_at"; "icon"])%bool
      then
        match obj_get "id" props, obj_get "type" props, obj_get "label" props,
              obj_get "created_at" props, obj_get "icon" props with
        | Some (VStr i), Some (VStr t), Some (VStr l), Some (VStr c), Some (VStr ic) =>
            match type_of_name t, obj_get "meta" props with
            | Some ty, None =>
                Some {| Activity.id := i; Activity.type := ty; Activity.label := l;
                        Activity.created_at := c; Activity.meta := None;
                        Activity.icon := ic |}
            | Some ty, Some (VObj m) =>
                Some {| Activity.id := i; Activity.type := ty; Activity.label := l;
                        Activity.created_at := c; Activity.meta := Some m;
                        Activity.icon := ic |}
            | _, _ => None
            end
        | _, _, _, _, _ => None
        end
      else None
  | _ => None
  end.

Fixpoint as_event_list (l : list JsVal) : option (list MyActivityEvent) :=
  match l with
  | [] => Some []
  | v :: l' =>
      match as_event v, as_event_list l' with
      | Some e, Some es => Some (e :: es)
      | _, _ => None
      end
  end.

(** [parsed as MyActivityEvent[]]: the list the value is, when it is one. *)
Definition as_events (v : JsVal) : option (list MyActivityEvent) :=
  match v with
  | VArr l => as_event_list l
  | _ => None
  end.

(** What [onImport] does: nothing without a file, the list replaced, an
    alert when the text does not parse, or a value put in place of the list
    that is not a [MyActivityEvent[]]. *)
Inductive ImportResult : Type :=
  | NoFile
  | Replaced (myEvents : list MyActivityEvent)
  | Alert (message : string)
  | NotAnEventList (parsed : JsVal).

Section ExportImport.
Context `{Platform}.

(** The text of the file [exportLocal] offers for download. *)
Definition exportLocal (myEvents : list MyActivityEvent) : string :=
  match JSON_stringify (events_value myEvents) with
  | Some t => t
  | None => "undefined"
  end.

(** [onImport], on the text of the chosen file. *)
Definition onImport (file : option string) : ImportResult :=
  match file with
  | None => NoFile
  | Some content =>
      match JSON_parse content with
      | Some parsed =>
          match as_events parsed with
          | Some l => Replaced l
          | None => NotAnEventList parsed
          end
      | None => Alert "JSON の解析に失敗しました"
      end
  end.

End ExportImport.

(** No key occurs twice. *)
Fixpoint distinct (ks : list string) : bool :=
  match ks with
  | [] => true
  | k :: ks' => (negb (existsb (String.eqb k) ks') && distinct ks')%bool
  end.

(** None of the keys is an array index. *)
Fixpoint named_only (ks : list string) : bool :=
  match ks with
  | [] => true
  | k :: ks' =>
      match array_index k with
      | Some _ => false
      | None => named_only ks'
      end
  end.

(** Array indices above [above], ascending, then keys that are none. *)
Fixpoint indices_then_names (above : Z) (ks : list string) : bool :=
  match ks with
  | [] => true
  | k :: ks' =>
      match array_index k with
      | Some n => ((above <? n) && indices_then_names n ks')%bool
      | None => named_only ks'
      end
  end.

(** The properties of an object are in the order of enumeration, each key
    once: the invariant of [JsObject]. *)
Definition enumerated (o : list (string * JsVal)) : bool :=
  (distinct (List.map fst o) && indices_then_names (-1) (List.map fst o))%bool.

(** A value that a JSON text holds as it is: nothing undefined, every
    number a finite number of the host, every object a [JsObject] whose
    values are such values. *)
Section Exact.
Context `{Platform}.

Fixpoint json_exact (v : JsVal) : bool :=
  match v with
  | VUndefined => false
  | VNull => true
  | VBool _ => true
  | VNum n => match n with Fin q => is_double q | _ => false end
  | VStr _ => true
  | VArr items =>
      (fix all (l : list JsVal) : bool :=
         match l with
         | [] => true
         | x :: l' => (json_exact x && all l')%bool
         end) items
  | VObj props =>
      (enumerated props
       && (fix all (l : list (string * JsVal)) : bool :=
             match l with
             | [] => true
             | (_, x) :: l' => (json_exact x && all l')%bool
             end) props)%bool
  end.

Definition event_exact (e : MyActivityEvent) : bool :=
  match Activity.meta e with
  | Some m => json_exact (VObj m)
  | None => true
  end.

(** The host prints every finite number of its own as a JSON numeral that
    reads back as the same number. *)
Definition numerals_read_back : Prop :=
  forall q, is_double q = true ->
    json_number (NumberToString (Fin q)) = true
    /\ Number_ (NumberToString (Fin q)) = Fin q.

End Exact.

(** ** A host to compute with

    Its finite numbers are the integers, written in decimal; its dates are
    the UTC date-times of the ISO format, [YYYY-MM-DDTHH:mm:ssZ] with
    optional milliseconds. *)

Definition digit_char (d : Z) : ascii := ascii_of_nat (48 + Z.to_nat d).

Fixpoint digits_of (fuel : nat) (n : Z) (acc : string) : string :=
  match fuel with
  | O => acc
  | S fuel' =>
      if n <? 10 then String (digit_char n) acc
      else digits_of fuel' (n / 10) (String (digit_char (n mod 10)) acc)
  end.

(** The decimal numeral of an integer. *)
Definition decimal (z : Z) : string :=
  if z <? 0 then String "-" (digits_of (S (Z.to_nat (Z.log2 (- z)))) (- z) "")
  else digits_of (S (Z.to_nat (Z.log2 z))) z "".

Definition integer_Number (s : string) : JsNumber :=
  match trim s with
  | EmptyString => of_Z 0
  | String c t =>
      if String.eqb (String c t) "Infinity" then Inf false
      else if String.eqb (String c t) "+Infinity" then Inf false
      else if String.eqb (String c t) "-Infinity" then Inf true
      else if (Ascii.eqb c "-" && str_truthy t)%bool
      then match digits_value 0 t with Some n => of_Z (- n) | None => NaN end
      else if (Ascii.eqb c "+" && str_truthy t)%bool
      then match digits_value 0 t with Some n => of_Z n | None => NaN end
      else match digits_value 0 (String c t) with Some n => of_Z n | None => NaN end
  end.

Definition integer_NumberToString (n : JsNumber) : string :=
  match n with
  | NaN => "NaN"
  | Inf false => "Infinity"
  | Inf true => "-Infinity"
  | Fin q => decimal (Qfloor q)
  end.

Definition digits_at (s : string) (start len : nat) : option Z :=
  let t := substring start len s in
  if (String.length t =? len)%nat then digits_value 0 t else None.

Definition char_at (s : string) (i : nat) (c : ascii) : bool :=
  match String.get i s with
  | Some x => Ascii.eqb x c
  | None => false
  end.

Definition leap_year (y : Z) : bool :=
  ((y mod 4 =? 0) && (negb (y mod 100 =? 0) || (y mod 400 =? 0)))%bool.

Definition days_in_month (y m : Z) : Z :=
  if m =? 2 then (if leap_year y then 29 else 28)
  else if ((m =? 4) || (m =? 6) || (m =? 9) || (m =? 11))%bool then 30
  else 31.

(** Days from 1970-01-01 to the given day of the civil calendar. *)
Definition days_from_civil (y m d : Z) : Z :=
  let y' := if m <=? 2 then y - 1 else y in
  let era := y' / 400 in
  let yoe := y' - era * 400 in
  let mp := (m + 9) mod 12 in
  let doy := (153 * mp + 2) / 5 + d - 1 in
  let doe := yoe * 365 + yoe / 4 - yoe / 100 + doy in
  era * 146097 + doe - 719468.

Definition iso_getTime (s : string) : option Z :=
  let n := String.length s in
  if (((n =? 20) || (n =? 24))%nat
      && char_at s 4 "-" && char_at s 7 "-" && char_at s 10 "T"
      && char_at s 13 ":" && char_at s 16 ":" && char_at s (n - 1) "Z"
      && ((n =? 20)%nat || char_at s 19 "."))%bool
  then
    match digits_at s 0 4, digits_at s 5 2, digits_at s 8 2, digits_at s 11 2, digits_at s 14 2, digits_at s 17 2,
          (if (n =? 24)%nat then digits_at s 20 3 else Some 0) with
    | Some y, Some mo, Some d, Some h, Some mi, Some se, Some ms =>
        if ((1 <=? mo) && (mo <=? 12) && (1 <=? d) && (d <=? days_in_month y mo)
            && (h <=? 23) && (mi <=? 59) && (se <=? 59))%bool
        then Some ((((days_from_civil y mo d * 24 + h) * 60 + mi) * 60 + se) * 1000 + ms)
        else None
    | _, _, _, _, _, _, _ => None
    end
  else None.

Definition integer_host : Platform :=
  {| Number_ := integer_Number;
     NumberToString := integer_NumberToString;
     Date_getTime := iso_getTime;
     is_double := fun q => Pos.eqb (Qden q) 1 |}.

(** ** Notions the properties are stated with *)

(** The identifiers of the events of a collection. *)
Definition ids (l : list (option RawEvent)) : list string :=
  List.map raw_id (filter_Boolean l).

(** The last event of [es] whose identifier is [i]. *)
Fixpoint last_with_id (i : string) (es : list RawEvent) : option RawEvent :=
  match es with
  | [] => None
  | e :: es' =>
      match last_with_id i es' with
      | Some x => Some x
      | None => if String.eqb i (raw_id e) then Some e else None
      end
  end.

Section Order.
Context `{Platform}.

(** The time of [a] is at least the time of [b]: [>=] on the two results
    of [getTime()], which is false as soon as one of them is [NaN]. *)
Definition time_ge (a b : string) : bool :=
  match Date_getTime a, Date_getTime b with
  | Some x, Some y => y <=? x
  | _, _ => false
  end.

(** Every [created_at] of the list is at least the next one. *)
Fixpoint non_increasing (l : list string) : bool :=
  match l with
  | [] => true
  | a :: l' =>
      match l' with
      | [] => true
      | b :: _ => (time_ge a b && non_increasing l')%bool
      end
  end.

(** [s] is the text of a date: [new Date(s)] is a valid date. *)
Definition valid_date (s : string) : Prop := Date_getTime s <> None.

End Order.

(** [gh?.events ?? []]. *)
Definition gh_events (gh : option (list NormalizedGithubEvent)) : list NormalizedGithubEvent :=
  match gh with
  | Some events => events
  | None => []
  end.

(** A raw event with nothing but an identifier, a category and a date. *)
Definition bare_event (i t c : string) : RawEvent :=
  {| raw_id := i; raw_type := t; raw_actor := Undef; raw_repo := Undef;
     raw_created_at := c; raw_payload := Undef |}.

Fixpoint contains (pat s : string) : bool :=
  if starts_with pat s then true
  else match s with
       | EmptyString => false
       | String _ s' => contains pat s'
       end.

(** A network on which the call for the user's own events settles to
    [primary] and the call for the received events to [secondary]. *)
Definition network_of (primary secondary : Settled) : Network :=
  {| fetch := fun url _ => if contains "/received_events?" url then secondary else primary;
     second_rejects_first := false |}.

(** A request with the given query and no header. *)
Definition request_of (query : list (string * string)) : Request :=
  {| searchParams := query; request_headers := ∅ |}.

(** A response with the given status, headers and text, whose body reads
    as the given array. *)
Definition response_of (st : Z) (hs : list (string * string)) (body : string)
    (entries : list (option RawEvent)) : Response :=
  {| status := st; headers := list_to_map hs; text := body; json := JsonArray entries |}.

(** The depths of the scrolls among the inputs, in order. *)
Fixpoint scroll_depths (inputs : list (Ambient * PageInput)) : list Z :=
  match inputs with
  | [] => []
  | (_, Scroll w) :: rest => scroll_depth w :: scroll_depths rest
  | _ :: rest => scroll_depths rest
  end.

(** The greatest of the depths, and 0 when there is none above it. *)
Definition high_water (depths : list Z) : Z := List.fold_left Z.max depths 0.

(** The inputs leave the capture switch alone. *)
Fixpoint same_session (inputs : list (Ambient * PageInput)) : bool :=
  match inputs with
  | [] => true
  | (_, SetTracking _) :: _ => false
  | _ :: rest => same_session rest
  end.

(** A viewport scrolled to [percent] of a document 1000 units taller than
    the window. *)
Definition scrolled_to (percent : Z) : Viewport :=
  {| scrollY := inject_Z (10 * percent); documentElement_scrollTop := 0;
     body_scrollTop := 0; scrollHeight := 1800; innerHeight := 800 |}.

(** [s] is white space of JSON texts throughout. *)
Fixpoint all_space (s : string) : bool :=
  match s with
  | EmptyString => true
  | String c s' => (is_json_space c && all_space s')%bool
  end.

(** Every character of [s] is a character of numerals. *)
Fixpoint all_number_chars (s : string) : bool :=
  match s with
  | EmptyString => true
  | String c s' => (is_number_char c && all_number_chars s')%bool
  end.

(** [rest] does not go on with a character of numerals. *)
Definition ends_numeral (rest : string) : bool :=
  match rest with
  | EmptyString => true
  | String c _ => negb (is_number_char c)
  end.

(** A character a JSON value can start with. *)
Definition value_start (c : ascii) : bool :=
  (Ascii.eqb c "[" || Ascii.eqb c "{" || Ascii.eqb c quote || Ascii.eqb c "t"
   || Ascii.eqb c "f" || Ascii.eqb c "n" || Ascii.eqb c "-" || is_digit c)%bool.

(** The text of a value that has one. *)
Definition text_of `{Platform} (indent : string) (v : JsVal) : string :=
  match stringify indent v with
  | Some t => t
  | None => "null"
  end.

(** ** The rest of the page and of its exchange with the route *)

Section TimeAgo.
Context `{Platform}.

(** [timeAgo(iso)], given [Date.now()] and the host's
    [new Date(iso).toLocaleString()].  With an invalid date every
    comparison is one with [NaN] and fails. *)
Definition timeAgo (toLocaleString : string -> string) (Date_now : Z) (iso : string)
  : string :=
  match Date_getTime iso with
  | None => toLocaleString iso
  | Some then_ =>
      let diff := Z.max 0 (Date_now - then_) in
      let sec := diff / 1000 in
      if sec <? 60 then NumberToString (of_Z sec) ++ "秒前"
      else
        let min := sec / 60 in
        if min <? 60 then NumberToString (of_Z min) ++ "分前"
        else
          let hr := min / 60 in
          if hr <? 24 then NumberToString (of_Z hr) ++ "時間前"
          else
            let day := hr / 24 in
            if day <? 7 then NumberToString (of_Z day) ++ "日前"
            else toLocaleString iso
  end.

End TimeAgo.

(** [iconFor(type)]: the name of the component it renders. *)
Definition iconFor (type : string) : string :=
  if String.eqb type "PushEvent" then "GitCommit"
  else if String.eqb type "PullRequestEvent" then "GitPullRequest"
  else if String.eqb type "IssuesEvent" then "GitBranch"
  else if String.eqb type "IssueCommentEvent" then "MessageSquare"
  else if String.eqb type "WatchEvent" then "Star"
  else if String.eqb type "ForkEvent" then "GitFork"
  else if String.eqb type "CreateEvent" then "FilePlus"
  else if String.eqb type "ReleaseEvent" then "Tag"
  else if String.eqb type "PublicEvent" then "Globe2"
  else "Github".

(** [localIcon(type)]: the name of the component it renders. *)
Definition localIcon (type : ActivityType) : string :=
  match type with
  | click => "MousePointerClick"
  | keydown => "Keyboard"
  | scroll => "ScrollText"
  | route_change => "RouteIcon"
  | visibility => "Eye"
  | heartbeat => "Activity"
  | copy => "Clipboard"
  end.

(** [s.replace(/[:.]/g, "-")]. *)
Fixpoint dash_colons_dots (s : string) : string :=
  match s with
  | EmptyString => EmptyString
  | String c s' =>
      String (if (Ascii.eqb c ":" || Ascii.eqb c ".")%bool then "-"%char else c)
        (dash_colons_dots s')
  end.

(** The name [exportLocal] gives the download, from
    [new Date().toISOString()]. *)
Definition export_filename (now : string) : string :=
  "my-activity-" ++ dash_colons_dots now ++ ".json".

(** *** The request of the page as the route reads it *)

(** The bytes a percent-encoded text of a query stands for: [+] is a
    space, [%HH] the byte [HH]. *)
Fixpoint percent_decode (s : string) : string :=
  match s with
  | EmptyString => EmptyString
  | String c s1 =>
      if Ascii.eqb c "%" then
        match s1 with
        | String h1 (String h2 s2) =>
            match hex_value h1, hex_value h2 with
            | Some a, Some b => String (byte_of (a * 16 + b)) (percent_decode s2)
            | _, _ => String c (percent_decode s1)
            end
        | _ => String c (percent_decode s1)
        end
      else String (if Ascii.eqb c "+" then " "%char else c) (percent_decode s1)
  end.

(** [s] up to the first [sep], and what follows it ([None] without one). *)
Fixpoint cut_at (sep : ascii) (s : string) : string * option string :=
  match s with
  | EmptyString => (EmptyString, None)
  | String c s' =>
      if Ascii.eqb c sep then (EmptyString, Some s')
      else let '(a, b) := cut_at sep s' in (String c a, b)
  end.

(** The pieces of [s] between the occurrences of [sep]. *)
Fixpoint split_on (sep : ascii) (s : string) : list string :=
  match s with
  | EmptyString => [EmptyString]
  | String c s' =>
      if Ascii.eqb c sep then EmptyString :: split_on sep s'
      else match split_on sep s' with
           | [] => [String c EmptyString]
           | p :: ps => String c p :: ps
           end
  end.

(** The pairs of a query string, as [URLSearchParams] reads them: the
    pieces between [&], the empty ones left out, each cut at its first [=]
    and decoded. *)
Definition parse_query (q : string) : list (string * string) :=
  List.map
    (fun piece =>
       let '(n, v) := cut_at "=" piece in
       (percent_decode n, percent_decode (match v with Some v => v | None => "" end)))
    (List.filter str_truthy (split_on "&" q)).

(** [new URL(url).searchParams]: the pairs of the text between the first
    [?] and the fragment. *)
Definition url_searchParams (url : string) : list (string * string) :=
  match snd (cut_at "?" (fst (cut_at "#" url))) with
  | Some q => parse_query q
  | None => []
  end.

(** *** What the page shows when a reply is not a success *)

(** The body text of [NextResponse.json({ error })]. *)
Definition error_body_text `{Platform} (error : string) : string :=
  match stringify_flat (VObj [("error", VStr error)]) with
  | Some t => t
  | None => ""
  end.

(** The error [fetchGithub] sets for a reply with the given status and body
    text: [None] when [res.ok], where the body is read as the feed instead;
    else [txt], or the text with the status when [txt] is empty;
    [e.message || ...] then keeps it unless it is empty. *)
Definition fetchGithub_error `{Platform} (reply_status : Z) (txt : string) : option string :=
  if ((200 <=? reply_status) && (reply_status <=? 299))%bool then None
  else
    let message :=
      if str_truthy txt then txt
      else "GitHub API エラー: " ++ NumberToString (of_Z reply_status) in
    Some (if str_truthy message then message else "取得に失敗しました").

(** *** The stored copy of the local list *)

(** [trackingKey]. *)
Definition trackingKey : string := "my-activity-log-v1".

Section Storage.
Context `{Platform}.

(** [JSON.stringify(myEvents)], the text the persist effect stores. *)
Definition persist_text (myEvents : list MyActivityEvent) : string :=
  match stringify_flat (events_value myEvents) with
  | Some t => t
  | None => "undefined"
  end.

(** The load effect on what [localStorage.getItem(trackingKey)] gives:
    nothing for no text, for an empty one and for one that does not parse
    (the error is caught and dropped); else the list is replaced. *)
Definition load_stored (raw : option string) : ImportResult :=
  match raw with
  | None => NoFile
  | Some text =>
      if str_truthy text
      then match JSON_parse text with
           | Some parsed =>
               match as_events parsed with
               | Some l => Replaced l
               | None => NotAnEventList parsed
               end
           | None => NoFile
           end
      else NoFile
  end.

(** The page together with the text stored under [trackingKey]. *)
Record StoredPage : Type := {
  page : PageState;
  stored : option string
}.

(** The page after its first render and the effects of it: the load effect
    reads the stored text, the persist effect writes the text of the list,
    once for the empty list of the first render and once more when the
    load has replaced it.  [None] when the stored text holds something
    that is no list of events. *)
Definition mount_stored (raw : option string) (full : string) : option StoredPage :=
  match load_stored raw with
  | Replaced l => Some {| page := mount l full; stored := Some (persist_text l) |}
  | NotAnEventList _ => None
  | _ => Some {| page := mount [] full; stored := Some (persist_text []) |}
  end.

(** The input makes a handler or an effect call [setMyEvents]. *)
Definition sets_list (s : PageState) (i : PageInput) : bool :=
  match i with
  | SetTracking checked =>
      (negb (Bool.eqb checked (tracking s)) && str_truthy (prevRoute s) && checked)%bool
  | Click _ | KeyDown _ | VisibilityChange _ | Copy | HeartbeatTick => tracking s
  | Scroll w => (tracking s && (maxScroll s <? scroll_depth w))%bool
  | Navigate _ _ => (str_truthy (prevRoute s) && tracking s)%bool
  | ClearLocal => true
  end.

(** One input on the page and its store: [clearLocal] removes the stored
    text, and the persist effect runs whenever the list has been set. *)
Definition step_stored (a : Ambient) (s : StoredPage) (i : PageInput) : StoredPage :=
  let p := step a (page s) i in
  let removed := match i with ClearLocal => None | _ => stored s end in
  {| page := p;
     stored := if sets_list (page s) i then Some (persist_text (myEvents p)) else removed |}.

Fixpoint run_stored (s : StoredPage) (inputs : list (Ambient * PageInput)) : StoredPage :=
  match inputs with
  | [] => s
  | (a, i) :: rest => run_stored (step_stored a s i) rest
  end.

End Storage.

(** *** Notions for the properties of the page *)

(** The input is something the page observes in the browser, not one of
    its own controls. *)
Definition observed (i : PageInput) : bool :=
  match i with
  | SetTracking _ | ClearLocal => false
  | _ => true
  end.

(** What [new Date().toISOString()] gave at each input, in order. *)
Definition clock (inputs : list (Ambient * PageInput)) : list string :=
  List.map (fun x => now (fst x)) inputs.

(** The text [s] is a date at the instant [t]. *)
Definition time_is `{Platform} (t : Z) (s : string) : bool :=
  match Date_getTime s with
  | Some x => x =? t
  | None => false
  end.

(** Every character of [s] passes [p]. *)
Fixpoint string_forall (p : ascii -> bool) (s : string) : bool :=
  match s with
  | EmptyString => true
  | String c s' => (p c && string_forall p s')%bool
  end.

(** The character [d] does not occur in [s]. *)
Definition free_of (d : ascii) (s : string) : bool :=
  string_forall (fun c => negb (Ascii.eqb c d)) s.

(** A character of an encoded URI component: unreserved, or of an escape. *)
Definition uri_component_char (c : ascii) : bool :=
  (uri_unreserved c || Ascii.eqb c "%")%bool.

(** A text of digits and dots. *)
Definition digits_and_dots (s : string) : bool :=
  string_forall (fun c => (is_digit c || Ascii.eqb c ".")%bool) s.

(** The text of a number written with digits and a dot alone, as the
    numbers from 1 to 100 are: it is not empty. *)
Definition plain_numeral (s : string) : bool :=
  (str_truthy s && digits_and_dots s)%bool.

(** The text [JSON.stringify(v)] gives inside an array. *)
Definition text_flat `{Platform} (v : JsVal) : string :=
  match stringify_flat v with
  | Some t => t
  | None => "null"
  end.

(** The headers of a request as the route reads them with [headers.get]
    when they arrive as the page sent them: by name in lower case. *)
Definition inbound_headers (sent : list (string * string)) : gmap string string :=
  list_to_map (List.map (fun kv => (toLowerCase (fst kv), snd kv)) sent).

(** ** Properties *)

Example iso_epoch : iso_getTime "1970-01-01T00:00:00Z" = Some 0.
Proof. reflexivity. Qed.

Example iso_2024 : iso_getTime "2024-03-01T12:30:15.250Z" = Some 1709296215250.
Proof. reflexivity. Qed.

Example iso_invalid : iso_getTime "yesterday" = None.
Proof. reflexivity. Qed.

Example decimal_1000 : decimal 1000 = "1000" /\ decimal (-42) = "-42" /\ decimal 0 = "0".
Proof. repeat split; reflexivity. Qed.

Example encode_component : encodeURIComponent "a b/ç" = "a%20b%2F%C3%A7".
Proof. reflexivity. Qed.

(** *** Objects used as maps *)

Lemma obj_get_replace {V : Type} (k k' : string) (v : V) (o : JsObject V) :
  obj_get k o <> None ->
  obj_get k' (obj_replace k v o) = if String.eqb k' k then Some v else obj_get k' o.
Proof.
  induction o as [|[k0 v0] o IH]; simpl; intros Hin; [congruence|].
  destruct (String.eqb_spec k k0) as [->|Hk]; simpl.
  - destruct (String.eqb_spec k' k0); reflexivity.
  - rewrite IH by exact Hin.
    destruct (String.eqb_spec k' k0) as [->|Hk'].
    + destruct (String.eqb_spec k0 k); [congruence | reflexivity].
    + reflexivity.
Qed.

Lemma obj_get_insert_index {V : Type} (n : Z) (k k' : string) (v : V) (o : JsObject V) :
  obj_get k o = None ->
  obj_get k' (obj_insert_index n k v o) = if String.eqb k' k then Some v else obj_get k' o.
Proof.
  induction o as [|[k0 v0] o IH]; simpl; intros Hin.
  - reflexivity.
  - destruct (String.eqb_spec k k0) as [->|Hk]; [congruence|].
    destruct (array_index k0) as [m|]; [destruct (n <? m)|]; simpl;
      try reflexivity.
    rewrite IH by exact Hin.
    destruct (String.eqb_spec k' k0) as [->|Hk'].
    + destruct (String.eqb_spec k0 k); [congruence | reflexivity].
    + reflexivity.
Qed.

Lemma obj_get_snoc {V : Type} (k k' : string) (v : V) (o : JsObject V) :
  obj_get k o = None ->
  obj_get k' (o ++ [(k, v)])%list = if String.eqb k' k then Some v else obj_get k' o.
Proof.
  induction o as [|[k0 v0] o IH]; simpl; intros Hin.
  - reflexivity.
  - destruct (String.eqb_spec k k0) as [->|Hk]; [congruence|].
    rewrite IH by exact Hin.
    destruct (String.eqb_spec k' k0) as [->|Hk'].
    + destruct (String.eqb_spec k0 k); [congruence | reflexivity].
    + reflexivity.
Qed.

(** Reading after writing: the written key gives the written value, every
    other key what it gave before. *)
Lemma obj_get_set {V : Type} (k k' : string) (v : V) (o : JsObject V) :
  obj_get k' (obj_set k v o) = if String.eqb k' k then Some v else obj_get k' o.
Proof.
  unfold obj_set. destruct (obj_get k o) eqn:Hk.
  - apply obj_get_replace. congruence.
  - destruct (array_index k).
    + apply obj_get_insert_index. exact Hk.
    + apply obj_get_snoc. exact Hk.
Qed.

Lemma obj_get_None_keys {V : Type} (k : string) (o : JsObject V) :
  obj_get k o = None <-> ~ In k (List.map fst o).
Proof.
  induction o as [|[k0 v0] o IH]; simpl.
  - tauto.
  - destruct (String.eqb_spec k k0) as [->|Hk].
    + split; [congruence | tauto].
    + rewrite IH. split; [intros Hn [E|Hi]; [congruence | tauto] | tauto].
Qed.

Lemma obj_get_In {V : Type} (k : string) (v : V) (o : JsObject V) :
  obj_get k o = Some v -> In (k, v) o.
Proof.
  induction o as [|[k0 v0] o IH]; simpl; [congruence|].
  destruct (String.eqb_spec k k0) as [->|Hk].
  - intros [= ->]. now left.
  - intros Hg. right. now apply IH.
Qed.

Lemma In_obj_get {V : Type} (k : string) (v : V) (o : JsObject V) :
  List.NoDup (List.map fst o) -> In (k, v) o -> obj_get k o = Some v.
Proof.
  induction o as [|[k0 v0] o IH]; simpl; [tauto|].
  intros Hnd [E|Hi].
  - injection E as -> ->. now rewrite String.eqb_refl.
  - inversion Hnd as [|? ? Hnot Hnd']; subst.
    destruct (String.eqb_spec k k0) as [->|Hk].
    + exfalso. apply Hnot. change k0 with (fst (k0, v)). now apply in_map.
    + now apply IH.
Qed.

Lemma keys_replace {V : Type} (k : string) (v : V) (o : JsObject V) :
  List.map fst (obj_replace k v o) = List.map fst o.
Proof.
  induction o as [|[k0 v0] o IH]; simpl; [reflexivity|].
  destruct (String.eqb_spec k k0) as [->|Hk]; simpl; [reflexivity | now rewrite IH].
Qed.

Lemma keys_insert_index {V : Type} (n : Z) (k : string) (v : V) (o : JsObject V) :
  Permutation (List.map fst (obj_insert_index n k v o)) (k :: List.map fst o).
Proof.
  induction o as [|[k0 v0] o IH]; simpl; [reflexivity|].
  destruct (array_index k0) as [m|]; [destruct (n <? m)|]; simpl; try reflexivity.
  rewrite IH. apply perm_swap.
Qed.

(** Writing a key never duplicates one. *)
Lemma obj_set_NoDup {V : Type} (k : string) (v : V) (o : JsObject V) :
  List.NoDup (List.map fst o) -> List.NoDup (List.map fst (obj_set k v o)).
Proof.
  intros Hnd. unfold obj_set. destruct (obj_get k o) eqn:Hk.
  - now rewrite keys_replace.
  - apply obj_get_None_keys in Hk.
    destruct (array_index k).
    + eapply Permutation_NoDup; [symmetry; apply keys_insert_index|].
      now constructor.
    + rewrite List.map_app. simpl.
      eapply Permutation_NoDup; [apply Permutation_cons_append|].
      now constructor.
Qed.

Lemma In_obj_set {V : Type} (k k' : string) (v v' : V) (o : JsObject V) :
  List.NoDup (List.map fst o) ->
  In (k', v') (obj_set k v o) -> (k', v') = (k, v) \/ In (k', v') o.
Proof.
  intros Hnd Hin.
  apply In_obj_get in Hin; [|now apply obj_set_NoDup].
  rewrite obj_get_set in Hin.
  destruct (String.eqb_spec k' k) as [->|Hk].
  - left. congruence.
  - right. now apply obj_get_In.
Qed.

(** *** Merging by identifier *)

Lemma last_with_id_app (i : string) (a b : list RawEvent) :
  last_with_id i (a ++ b) =
  match last_with_id i b with
  | Some x => Some x
  | None => last_with_id i a
  end.
Proof.
  induction a as [|e a IH]; simpl.
  - now destruct (last_with_id i b).
  - rewrite IH. now destruct (last_with_id i b).
Qed.

Lemma last_with_id_In (i : string) (es : list RawEvent) (e : RawEvent) :
  last_with_id i es = Some e -> In e es /\ raw_id e = i.
Proof.
  induction es as [|x es IH]; simpl; [congruence|].
  destruct (last_with_id i es) as [y|].
  - intros [= <-]. destruct (IH eq_refl). tauto.
  - destruct (String.eqb_spec i (raw_id x)); [|congruence].
    intros [= <-]. split; [now left | congruence].
Qed.

Lemma last_with_id_None (i : string) (es : list RawEvent) :
  last_with_id i es = None <-> ~ In i (List.map raw_id es).
Proof.
  induction es as [|x es IH]; simpl; [tauto|].
  destruct (last_with_id i es) as [y|].
  - split; [congruence|]. intros Hn. exfalso. apply Hn. right.
    destruct (in_dec string_dec i (List.map raw_id es)) as [Hi|Hi]; [exact Hi|].
    apply IH in Hi. congruence.
  - destruct (String.eqb_spec i (raw_id x)) as [->|Hx].
    + split; [congruence | tauto].
    + split; [|reflexivity]. intros _ [E|Hi]; [congruence|].
      now apply (proj1 IH eq_refl).
Qed.

Lemma merge_fold_get (es : list RawEvent) (acc : JsObject RawEvent) (i : string) :
  obj_get i (List.fold_left (fun acc e => obj_set (raw_id e) e acc) es acc) =
  match last_with_id i es with
  | Some e => Some e
  | None => obj_get i acc
  end.
Proof.
  revert acc. induction es as [|e es IH]; intros acc; simpl; [reflexivity|].
  rewrite IH, obj_get_set.
  destruct (last_with_id i es); [reflexivity|].
  destruct (String.eqb i (raw_id e)); reflexivity.
Qed.

Lemma merge_fold_NoDup (es : list RawEvent) (acc : JsObject RawEvent) :
  List.NoDup (List.map fst acc) ->
  List.NoDup (List.map fst (List.fold_left (fun acc e => obj_set (raw_id e) e acc) es acc)).
Proof.
  revert acc. induction es as [|e es IH]; intros acc Hnd; simpl; [exact Hnd|].
  apply IH. now apply obj_set_NoDup.
Qed.

Lemma merge_fold_keys (es : list RawEvent) (acc : JsObject RawEvent) :
  List.NoDup (List.map fst acc) ->
  (forall k e, In (k, e) acc -> k = raw_id e) ->
  forall k e,
    In (k, e) (List.fold_left (fun acc e => obj_set (raw_id e) e acc) es acc) ->
    k = raw_id e.
Proof.
  revert acc. induction es as [|x es IH]; intros acc Hnd Hkeys; simpl; [exact Hkeys|].
  apply IH; [now apply obj_set_NoDup|].
  intros k e Hin. apply In_obj_set in Hin; [|exact Hnd].
  destruct Hin as [[= -> ->]|Hin]; [reflexivity | now apply Hkeys].
Qed.

Lemma merge_by_id_NoDup (es : list RawEvent) :
  List.NoDup (List.map fst (merge_by_id es)).
Proof. apply merge_fold_NoDup. constructor. Qed.

Lemma merge_by_id_keys (es : list RawEvent) (k : string) (e : RawEvent) :
  In (k, e) (merge_by_id es) -> k = raw_id e.
Proof.
  apply merge_fold_keys; [constructor | intros ? ? []].
Qed.

Lemma merge_by_id_get (es : list RawEvent) (i : string) :
  obj_get i (merge_by_id es) = last_with_id i es.
Proof.
  unfold merge_by_id. rewrite merge_fold_get. now destruct (last_with_id i es).
Qed.

Lemma merged_ids_keys (es : list RawEvent) :
  List.map raw_id (Object_values (merge_by_id es)) = List.map fst (merge_by_id es).
Proof.
  unfold Object_values. rewrite List.map_map.
  apply List.map_ext_in. intros [k e] Hin. simpl.
  symmetry. now apply merge_by_id_keys in Hin.
Qed.

(** The event the merge keeps for an identifier is the last one of the
    two collections, taken in order, that carries it. *)
Lemma merged_is_last (es : list RawEvent) (e : RawEvent) :
  In e (Object_values (merge_by_id es)) <-> last_with_id (raw_id e) es = Some e.
Proof.
  rewrite <- merge_by_id_get. unfold Object_values. split.
  - intros Hin. apply List.in_map_iff in Hin as [[k x] [E Hin]]. simpl in E. subst x.
    pose proof (merge_by_id_keys _ _ _ Hin) as ->.
    apply In_obj_get; [apply merge_by_id_NoDup | exact Hin].
  - intros Hg. apply obj_get_In in Hg.
    change e with (snd (raw_id e, e)). now apply List.in_map.
Qed.

Lemma filter_Boolean_app {A : Type} (a b : list (option A)) :
  filter_Boolean (a ++ b) = (filter_Boolean a ++ filter_Boolean b)%list.
Proof.
  induction a as [|[x|] a IH]; simpl; [reflexivity | now rewrite IH | exact IH].
Qed.


Example merge_keeps_later :
  let e (i t : string) :=
    {| raw_id := i; raw_type := t; raw_actor := Undef; raw_repo := Undef;
       raw_created_at := "2024-01-01T00:00:00Z"; raw_payload := Undef |} in
  List.map (fun x => (raw_id x, raw_type x))
    (merge_events [Some (e "b" "PushEvent"); None; Some (e "7" "ForkEvent")]
                  [Some (e "b" "WatchEvent"); Some (e "a" "PublicEvent")])
  = [("7", "ForkEvent"); ("b", "WatchEvent"); ("a", "PublicEvent")].
Proof. reflexivity. Qed.

(** *** Normalization *)

Lemma normalizeEvent_fields `{Platform} (e : RawEvent) :
  id (normalizeEvent e) = raw_id e
  /\ type (normalizeEvent e) = raw_type e
  /\ created_at (normalizeEvent e) = raw_created_at e.
Proof.
  unfold normalizeEvent.
  repeat match goal with
         | |- context [String.eqb ?a ?b] => destruct (String.eqb a b)
         end; repeat split; reflexivity.
Qed.

Lemma normalizeEvent_created_at `{Platform} (e : RawEvent) :
  created_at (normalizeEvent e) = raw_created_at e.
Proof. apply normalizeEvent_fields. Qed.

(** C10. For every raw event, the event [normalizeEvent] returns carries
    the [id], the [type] and the [created_at] of its input unchanged, in
    each of the nine categories and in the fallback; only the display
    fields are derived. *)
Theorem normalizeEvent_identity `{Platform} (e : RawEvent) :
  id (normalizeEvent e) = raw_id e
  /\ type (normalizeEvent e) = raw_type e
  /\ created_at (normalizeEvent e) = raw_created_at e.
Proof.
  unfold normalizeEvent.
  destruct (String.eqb (raw_type e) "PushEvent"); [repeat split; reflexivity|].
  destruct (String.eqb (raw_type e) "PullRequestEvent"); [repeat split; reflexivity|].
  destruct (String.eqb (raw_type e) "IssuesEvent"); [repeat split; reflexivity|].
  destruct (String.eqb (raw_type e) "IssueCommentEvent"); [repeat split; reflexivity|].
  destruct (String.eqb (raw_type e) "WatchEvent"); [repeat split; reflexivity|].
  destruct (String.eqb (raw_type e) "ForkEvent"); [repeat split; reflexivity|].
  destruct (String.eqb (raw_type e) "CreateEvent"); [repeat split; reflexivity|].
  destruct (String.eqb (raw_type e) "ReleaseEvent"); [repeat split; reflexivity|].
  destruct (String.eqb (raw_type e) "PublicEvent"); repeat split; reflexivity.
Qed.

(** The display tag follows the category alone. *)
Lemma normalizeEvent_icon `{Platform} (e : RawEvent) :
  In (raw_type e, icon (normalizeEvent e))
     [("PushEvent", "git-commit"); ("PullRequestEvent", "git-pull-request");
      ("IssuesEvent", "git-branch"); ("IssueCommentEvent", "message-square");
      ("WatchEvent", "star"); ("ForkEvent", "git-fork"); ("CreateEvent", "file-plus");
      ("ReleaseEvent", "tag"); ("PublicEvent", "globe")]
  \/ icon (normalizeEvent e) = "github".
Proof.
  unfold normalizeEvent.
  repeat match goal with
         | |- context [String.eqb ?a ?b] =>
             destruct (String.eqb_spec a b) as [->|?]; [left; simpl; tauto|]
         end.
  right. reflexivity.
Qed.

Example normalize_push :
  let e :=
    {| raw_id := "41"; raw_type := "PushEvent";
       raw_actor := Val {| raw_login := Val "octocat"; raw_avatar_url := Undef;
                           raw_actor_url := Val "https://api.github.com/users/octocat" |};
       raw_repo := Val {| raw_repo_name := "octocat/hello" |};
       raw_created_at := "2024-01-01T00:00:00Z";
       raw_payload :=
         Val {| commits := Val [ {| message := Val "fix" |}; {| message := Undef |} ];
                ref := Val "refs/heads/main"; action := Undef; pull_request := Undef;
                issue := Undef; forkee := Undef; ref_type := Undef; release := Undef |} |} in
  let n := @normalizeEvent integer_host e in
  actionText n = "octocat が main に 2 件プッシュ"
  /\ details n = Some ["commit: fix"; "commit: undefined"]
  /\ url n = Val "https://github.com/octocat/hello"
  /\ actor_url (actor n) = Val "https://github.com/octocat".
Proof. repeat split; reflexivity. Qed.

(** *** Sorting by [created_at] *)

Section SortByDate.
Context `{Platform} {A : Type} (key : A -> string).

#[local] Abbreviation cmp := (fun a b : A => by_created_at_desc (key a) (key b)).

Lemma not_positive_ge (x y : A) :
  valid_date (key x) -> valid_date (key y) ->
  is_positive (by_created_at_desc (key x) (key y)) = false -> time_ge (key x) (key y) = true.
Proof.
  unfold valid_date, by_created_at_desc, time_ge, is_positive.
  destruct (Date_getTime (key x)) as [tx|], (Date_getTime (key y)) as [ty|];
    try congruence.
  intros _ _ Hp. apply Z.ltb_ge in Hp. apply Z.leb_le. lia.
Qed.

Lemma positive_ge (x y : A) :
  is_positive (by_created_at_desc (key x) (key y)) = true -> time_ge (key y) (key x) = true.
Proof.
  unfold by_created_at_desc, time_ge, is_positive.
  destruct (Date_getTime (key x)) as [tx|], (Date_getTime (key y)) as [ty|];
    try congruence.
  intros Hp. apply Z.ltb_lt in Hp. apply Z.leb_le. lia.
Qed.

Lemma sort_insert_head (x : A) (l : list A) :
  match sort_insert cmp x l with
  | [] => False
  | h :: _ => h = x \/ List.head l = Some h
  end.
Proof.
  destruct l as [|y l]; simpl; [now left|].
  destruct (is_positive (by_created_at_desc (key x) (key y))); simpl; [now right | now left].
Qed.

Lemma sort_insert_perm (x : A) (l : list A) :
  Permutation (sort_insert cmp x l) (x :: l).
Proof.
  induction l as [|y l IH]; simpl; [reflexivity|].
  destruct (is_positive (by_created_at_desc (key x) (key y))); [|reflexivity].
  rewrite IH. apply perm_swap.
Qed.

Lemma Array_sort_perm (l : list A) : Permutation (Array_sort cmp l) l.
Proof.
  induction l as [|x l IH]; simpl; [reflexivity|].
  unfold Array_sort in *. simpl. rewrite sort_insert_perm. now constructor.
Qed.

Lemma sort_insert_sorted (x : A) (l : list A) :
  valid_date (key x) -> List.Forall (fun a => valid_date (key a)) l ->
  non_increasing (List.map key l) = true ->
  non_increasing (List.map key (sort_insert cmp x l)) = true.
Proof.
  intros Hx. induction l as [|y l IH]; intros Hl Hs; simpl; [reflexivity|].
  inversion Hl as [|? ? Hy Hl']; subst.
  destruct (is_positive (by_created_at_desc (key x) (key y))) eqn:Hp.
  - assert (Htail : non_increasing (List.map key l) = true).
    { simpl in Hs. destruct l; [reflexivity|]. simpl in Hs.
      now apply andb_prop in Hs as [_ Hs]. }
    specialize (IH Hl' Htail).
    pose proof (sort_insert_head x l) as Hh.
    destruct (sort_insert cmp x l) as [|h t] eqn:Hi; [contradiction|].
    change (List.map key (y :: h :: t)) with (key y :: key h :: List.map key t).
    change (List.map key (h :: t)) with (key h :: List.map key t) in IH.
    cbn [non_increasing]. apply andb_true_intro. split; [|exact IH].
    destruct Hh as [->|Hh].
    + now apply positive_ge.
    + destruct l as [|z l]; simpl in Hh; [congruence|]. injection Hh as ->.
      simpl in Hs. now apply andb_prop in Hs as [Hs _].
  - change (List.map key (x :: y :: l)) with (key x :: key y :: List.map key l).
    cbn [non_increasing]. apply andb_true_intro. split; [|exact Hs].
    now apply not_positive_ge.
Qed.

Lemma Array_sort_sorted (l : list A) :
  List.Forall (fun a => valid_date (key a)) l ->
  non_increasing (List.map key (Array_sort cmp l)) = true.
Proof.
  induction l as [|x l IH]; intros Hl; [reflexivity|].
  inversion Hl as [|? ? Hx Hl']; subst.
  unfold Array_sort in *. simpl. apply sort_insert_sorted.
  - exact Hx.
  - eapply Permutation_Forall; [symmetry; apply Array_sort_perm | exact Hl'].
  - now apply IH.
Qed.

End SortByDate.

Lemma non_increasing_invalid `{Platform} (a b : string) (l : list string) :
  Date_getTime a = None \/ Date_getTime b = None ->
  non_increasing (a :: b :: l) = false.
Proof.
  intros Hn. cbn [non_increasing]. unfold time_ge.
  destruct Hn as [-> | Hb]; [reflexivity|].
  rewrite Hb. now destruct (Date_getTime a).
Qed.

(** The example of the specification: times [T], [T+1], [T-1] come out
    as [T+1], [T], [T-1]. *)
Example sort_three :
  List.map id
    (@normalize_and_sort integer_host
       [bare_event "t" "WatchEvent" "2024-05-01T10:00:00Z";
        bare_event "t+1" "WatchEvent" "2024-05-01T10:00:01Z";
        bare_event "t-1" "WatchEvent" "2024-05-01T09:59:59Z"])
  = ["t+1"; "t"; "t-1"].
Proof. reflexivity. Qed.

(** An event whose [created_at] is not the text of a date has the time
    [NaN]: the list the handler returns for the two events below is not
    non-increasing, and no order of them is.  The same happens in the
    unified view once a file with such an entry has been imported. *)
Lemma unparsed_date_breaks_order :
  let dated := bare_event "1" "WatchEvent" "2024-05-01T10:00:00Z" in
  let undated := bare_event "2" "WatchEvent" "yesterday" in
  let imported :=
    {| Activity.id := "n1"; Activity.type := copy; Activity.label := "note";
       Activity.created_at := "yesterday"; Activity.meta := None;
       Activity.icon := "copy" |} in
  @non_increasing integer_host
    (List.map created_at (@normalize_and_sort integer_host [dated; undated])) = false
  /\ (forall l, Permutation l [dated; undated] ->
        @non_increasing integer_host (List.map raw_created_at l) = false)
  /\ @onImport integer_host (Some (@exportLocal integer_host [imported]))
     = Replaced [imported]
  /\ @non_increasing integer_host
       (List.map item_created_at
          (@unified integer_host (Some [@normalizeEvent integer_host dated]) [imported]))
     = false.
Proof.
  split; [reflexivity|]. split; [|split; [vm_compute; reflexivity | reflexivity]].
  intros l Hp. apply Permutation_sym in Hp.
  apply Permutation_length_2_inv in Hp as [-> | ->]; reflexivity.
Qed.

(** C2, amended. For every list of events whose [created_at] are texts of
    dates, the list the normalize-and-sort step of the handler returns is
    non-increasing in time, each event's time being at least the time of
    the next, and holds the normalized events, each once; the same is true
    of the unified view the page computes from the remote snapshot and the
    local list. *)
Theorem sorted_by_created_at `{Platform} (merged : list RawEvent)
    (gh : option (list NormalizedGithubEvent)) (myEvents : list MyActivityEvent) :
  List.Forall (fun e => valid_date (raw_created_at e)) merged ->
  List.Forall (fun e => valid_date (created_at e)) (gh_events gh) ->
  List.Forall (fun e => valid_date (Activity.created_at e)) myEvents ->
  (non_increasing (List.map created_at (normalize_and_sort merged)) = true
   /\ Permutation (normalize_and_sort merged) (List.map normalizeEvent merged))
  /\ (non_increasing (List.map item_created_at (unified gh myEvents)) = true
      /\ Permutation (unified gh myEvents)
           (List.map github (gh_events gh) ++ List.map local myEvents)).
Proof.
  intros Hm Hg Hl. split; split.
  - apply (Array_sort_sorted created_at).
    apply List.Forall_map. eapply List.Forall_impl; [|exact Hm].
    intros e He. now rewrite normalizeEvent_created_at.
  - apply (Array_sort_perm created_at).
  - unfold unified. apply (Array_sort_sorted item_created_at).
    apply List.Forall_app. split.
    + destruct gh as [events|]; [|constructor].
      apply List.Forall_map. exact Hg.
    + apply List.Forall_map. exact Hl.
  - unfold unified. rewrite (Array_sort_perm item_created_at).
    now destruct gh.
Qed.

Lemma sorted_by_created_at_witness :
  let merged :=
    [bare_event "t" "WatchEvent" "2024-05-01T10:00:00Z";
     bare_event "t+1" "ForkEvent" "2024-05-01T10:00:01Z";
     bare_event "t-1" "PushEvent" "2024-05-01T09:59:59Z"] in
  let gh := Some (@normalize_and_sort integer_host merged) in
  let a := {| randomUUID := "u1"; now := "2024-05-01T10:00:00.500Z"; location := "/" |} in
  let myEvents := [onCopy_event a; onKey_event a "k"] in
  List.Forall (fun e => @valid_date integer_host (raw_created_at e)) merged
  /\ List.Forall (fun e => @valid_date integer_host (created_at e)) (gh_events gh)
  /\ List.Forall (fun e => @valid_date integer_host (Activity.created_at e)) myEvents
  /\ (@non_increasing integer_host
        (List.map created_at (@normalize_and_sort integer_host merged)) = true
      /\ Permutation (@normalize_and_sort integer_host merged)
           (List.map (@normalizeEvent integer_host) merged))
  /\ (@non_increasing integer_host
        (List.map item_created_at (@unified integer_host gh myEvents)) = true
      /\ Permutation (@unified integer_host gh myEvents)
           (List.map github (gh_events gh) ++ List.map local myEvents)).
Proof.
  intros merged gh a myEvents.
  assert (Hm : List.Forall (fun e => @valid_date integer_host (raw_created_at e)) merged)
    by (repeat constructor; vm_compute; discriminate).
  assert (Hg : List.Forall (fun e => @valid_date integer_host (created_at e)) (gh_events gh))
    by (repeat constructor; vm_compute; discriminate).
  assert (Hl : List.Forall (fun e => @valid_date integer_host (Activity.created_at e)) myEvents)
    by (repeat constructor; vm_compute; discriminate).
  split; [exact Hm|]. split; [exact Hg|]. split; [exact Hl|].
  exact (@sorted_by_created_at integer_host merged gh myEvents Hm Hg Hl).
Defined.

Example unified_interleaves :
  let merged :=
    [bare_event "t" "WatchEvent" "2024-05-01T10:00:00Z";
     bare_event "t+1" "ForkEvent" "2024-05-01T10:00:01Z"] in
  let a := {| randomUUID := "u1"; now := "2024-05-01T10:00:00.500Z"; location := "/" |} in
  List.map item_created_at
    (@unified integer_host (Some (@normalize_and_sort integer_host merged)) [onCopy_event a])
  = ["2024-05-01T10:00:01Z"; "2024-05-01T10:00:00.500Z"; "2024-05-01T10:00:00Z"].
Proof. reflexivity. Qed.

(** *** The route handler *)

(** The calls the handler issues depend on the request alone. *)
Lemma GET_calls `{Platform} (net : Network) (req : Request) :
  fst (GET_trace net req) =
  match searchParams_get "username" (searchParams req) with
  | None => []
  | Some u =>
      if str_truthy u
      then (userEventsUrl u (Number_ (per_page_param req)), outbound_headers req)
           :: (if include_received req
               then [(receivedUrl u (Number_ (per_page_param req)), outbound_headers req)]
               else [])
      else []
  end.
Proof.
  unfold GET_trace.
  destruct (searchParams_get "username" (searchParams req)) as [u|]; [|reflexivity].
  destruct (str_truthy u); reflexivity.
Qed.

(** Without a user name the handler answers 400 and calls nobody. *)
Lemma GET_missing_username `{Platform} (net : Network) (req : Request) :
  match searchParams_get "username" (searchParams req) with
  | Some u => str_truthy u = false
  | None => True
  end ->
  GET_trace net req =
  ([], {| response_status := 400; response_body := ErrorBody "username is required" |}).
Proof.
  unfold GET_trace.
  destruct (searchParams_get "username" (searchParams req)) as [u|]; [|reflexivity].
  now intros ->.
Qed.

(** With a user name, the answer is that of [respond] on the two results,
    unless a call rejects. *)
Lemma GET_with_username `{Platform} (net : Network) (req : Request) (u : string) :
  searchParams_get "username" (searchParams req) = Some u -> str_truthy u = true ->
  GET net req =
  match Promise_all
          (fetch net (userEventsUrl u (Number_ (per_page_param req))) (outbound_headers req))
          (if include_received req
           then Some (fetch net (receivedUrl u (Number_ (per_page_param req)))
                        (outbound_headers req))
           else None)
          (second_rejects_first net) with
  | inl message => failed message
  | inr (userRes, receivedRes) => respond userRes receivedRes
  end.
Proof.
  intros Hu Ht. unfold GET, GET_trace. rewrite Hu, Ht. reflexivity.
Qed.

(** A secondary call that rejects is not swallowed: [Promise.all] rejects
    with it and the handler answers 500. *)
Lemma secondary_rejection_propagates :
  let primary :=
    Fulfilled (response_of 200 [] "[]"
                 [Some (bare_event "1" "WatchEvent" "2024-05-01T10:00:00Z")]) in
  let net := network_of primary (Rejected "fetch failed") in
  let req := request_of [("username", "vercel"); ("includeReceived", "1")] in
  @GET integer_host net req =
  {| response_status := 500; response_body := ErrorBody "fetch failed" |}
  /\ response_status (@GET integer_host net req) <> 200.
Proof. split; [reflexivity | vm_compute; discriminate]. Qed.

(** C3, amended. For every request in which the primary fetch succeeds, a
    secondary fetch that settles with a response of non-success status is
    swallowed: the answer has status 200 and is the answer the handler
    gives with no secondary call at all, the secondary source contributing
    no event to the merge. *)
Theorem secondary_failure_swallowed `{Platform} (net : Network) (req : Request)
    (u : string) (userRes receivedRes : Response) (userEvents : list (option RawEvent)) :
  searchParams_get "username" (searchParams req) = Some u ->
  str_truthy u = true ->
  include_received req = true ->
  fetch net (userEventsUrl u (Number_ (per_page_param req))) (outbound_headers req)
    = Fulfilled userRes ->
  ok userRes = true ->
  json userRes = JsonArray userEvents ->
  fetch net (receivedUrl u (Number_ (per_page_param req))) (outbound_headers req)
    = Fulfilled receivedRes ->
  ok receivedRes = false ->
  GET net req =
    {| response_status := 200;
       response_body :=
         FeedBody (normalize_and_sort (merge_events userEvents [])) (rate_of userRes)
           "github" |}
  /\ GET net req = respond userRes None.
Proof.
  intros Hu Ht Hi Hp Hok Hj Hs Hnok.
  rewrite (GET_with_username net req u Hu Ht), Hi, Hp, Hs. simpl.
  unfold respond. rewrite Hok, Hj, Hnok. simpl. split; reflexivity.
Qed.

Lemma secondary_failure_swallowed_witness :
  let userRes :=
    response_of 200 [("x-ratelimit-limit", "60")] "[]"
      [Some (bare_event "1" "WatchEvent" "2024-05-01T10:00:00Z")] in
  let receivedRes := response_of 503 [] "unavailable" [] in
  let net := network_of (Fulfilled userRes) (Fulfilled receivedRes) in
  let req := request_of [("username", "vercel"); ("includeReceived", "1")] in
  response_status (@GET integer_host net req) = 200
  /\ @GET integer_host net req = @respond integer_host userRes None.
Proof.
  intros userRes receivedRes net req.
  destruct (@secondary_failure_swallowed integer_host net req "vercel" userRes receivedRes
              [Some (bare_event "1" "WatchEvent" "2024-05-01T10:00:00Z")]
              eq_refl eq_refl eq_refl eq_refl eq_refl eq_refl eq_refl eq_refl) as [H1 H2].
  split; [rewrite H1; reflexivity | exact H2].
Defined.




(** *** Rate-limit counters *)

(** A counter is there exactly when its header is there, is not empty, and
    reads as a number that is neither [NaN] nor zero. *)
Lemma rate_counter_present `{Platform} (h : option string) (n : JsNumber) :
  rate_counter h = Some n <->
  exists s, h = Some s /\ str_truthy s = true /\ Number_ s = n /\ number_falsy n = false.
Proof.
  unfold rate_counter. split.
  - destruct h as [s|]; [|discriminate].
    destruct (str_truthy s) eqn:Hs; [|discriminate].
    destruct (number_falsy (Number_ s)) eqn:Hf; [discriminate|].
    intros [= <-]. now exists s.
  - intros (s & -> & -> & <- & ->). reflexivity.
Qed.

(** A header that reads as zero leaves its counter out. *)
Lemma rate_counter_zero `{Platform} (s : string) :
  Number_ s = of_Z 0 -> rate_counter (Some s) = None.
Proof.
  intros Hz. unfold rate_counter. rewrite Hz. simpl. now destruct (str_truthy s).
Qed.

(** C4, at the failing input. The last request the quota allows is
    answered with [x-ratelimit-remaining: 0]; the header is there and
    reads as the number 0, and the handler leaves [remaining] out of
    [rate] while it reports the two other counters. *)
Theorem remaining_zero_is_dropped :
  let userRes :=
    response_of 200
      [("x-ratelimit-limit", "60"); ("x-ratelimit-remaining", "0");
       ("x-ratelimit-reset", "1714557600")] "[]" [] in
  let req := request_of [("username", "vercel")] in
  headers_get userRes "x-ratelimit-remaining" = Some "0"
  /\ integer_Number "0" = of_Z 0
  /\ @GET integer_host (network_of (Fulfilled userRes) (Fulfilled userRes)) req =
     {| response_status := 200;
        response_body :=
          FeedBody []
            {| limit := Some (of_Z 60); remaining := None;
               reset := Some (of_Z 1714557600) |}
            "github" |}.
Proof. repeat split; vm_compute; reflexivity. Qed.

(** *** The page size *)

(** The route forwards a page size of 1000 as it is. *)
Lemma page_size_unbounded :
  let req := request_of [("username", "vercel"); ("per_page", "1000")] in
  let net := network_of (Fulfilled (response_of 200 [] "[]" []))
               (Fulfilled (response_of 200 [] "[]" [])) in
  fst (@GET_trace integer_host net req) =
    [("https://api.github.com/users/vercel/events/public?per_page=1000",
      [("User-Agent", "v0-github-activity-feed");
       ("Accept", "application/vnd.github+json")])]
  /\ integer_Number (per_page_param req) = of_Z 1000
  /\ number_le (integer_Number (per_page_param req)) (of_Z 100) = false.
Proof. repeat split; vm_compute; reflexivity. Qed.

Lemma per_page_default (req : Request) :
  match searchParams_get "per_page" (searchParams req) with
  | Some v => str_truthy v = false
  | None => True
  end ->
  per_page_param req = "30".
Proof.
  unfold per_page_param.
  destruct (searchParams_get "per_page" (searchParams req)) as [v|]; [|reflexivity].
  now intros ->.
Qed.

(** C7, amended. For every request with a user name, the route forwards as
    page size, in each call it issues, the number its [per_page] parameter
    reads as, whatever that number is, and the number 30 reads as when the
    parameter is absent or empty; the range 1 to 100 is what the form of
    the page requires before it sends a request, the form starting at 30. *)
Theorem page_size_forwarded `{Platform} (net : Network) (req : Request) (u : string) :
  searchParams_get "username" (searchParams req) = Some u ->
  str_truthy u = true ->
  (List.map fst (fst (GET_trace net req)) =
     userEventsUrl u (Number_ (per_page_param req))
     :: (if include_received req
         then [receivedUrl u (Number_ (per_page_param req))] else [])
   /\ (searchParams_get "per_page" (searchParams req) = None -> per_page_param req = "30")
   /\ (searchParams_get "per_page" (searchParams req) = Some "" -> per_page_param req = "30")
   /\ (forall v, searchParams_get "per_page" (searchParams req) = Some v ->
         str_truthy v = true -> per_page_param req = v))
  /\ (forall (f : Form) (sent : string * list (string * string)),
        fetchGithub f = Some sent ->
        number_le (of_Z 1) (perPage f) = true
        /\ number_le (perPage f) (of_Z 100) = true
        /\ fst sent = "/api/github-feed?username=" ++ encodeURIComponent (username f)
                      ++ "&includeReceived=" ++ (if includeReceived f then "1" else "0")
                      ++ "&per_page=" ++ NumberToString (perPage f))
  /\ perPage initial_form = of_Z 30.
Proof.
  intros Hu Ht. split; [|split].
  - rewrite GET_calls, Hu, Ht. split.
    + now destruct (include_received req).
    + unfold per_page_param. repeat split.
      * now intros ->.
      * now intros ->.
      * intros v -> ->. reflexivity.
  - intros f sent. unfold fetchGithub, githubSchema.
    destruct (str_truthy (trim (username f))); [|discriminate].
    destruct (number_le (of_Z 1) (perPage f)); [|discriminate].
    destruct (number_le (perPage f) (of_Z 100)); [|discriminate].
    simpl. intros [= <-]. repeat split.
  - reflexivity.
Qed.

Lemma page_size_forwarded_witness :
  let req := request_of [("username", "vercel"); ("includeReceived", "1"); ("per_page", "250")] in
  let net := network_of (Rejected "") (Rejected "") in
  List.map fst (fst (@GET_trace integer_host net req)) =
    ["https://api.github.com/users/vercel/events/public?per_page=250";
     "https://api.github.com/users/vercel/received_events?per_page=250"]
  /\ @fetchGithub integer_host initial_form =
       Some ("/api/github-feed?username=vercel&includeReceived=1&per_page=30", []).
Proof.
  intros req net.
  destruct (@page_size_forwarded integer_host net req "vercel" eq_refl eq_refl)
    as [[Hcalls _] _].
  split; [rewrite Hcalls; reflexivity | reflexivity].
Defined.

(** *** The local capture list *)

Lemma add_length (e : MyActivityEvent) (prev : list MyActivityEvent) :
  List.length (add e prev) = Nat.min cap (S (List.length prev)).
Proof. unfold add. now rewrite List.length_firstn. Qed.

(** [add] puts the new event first and keeps the most recent of the
    others, 2000 entries at most in all. *)
Lemma add_keeps_recent (e : MyActivityEvent) (prev : list MyActivityEvent) :
  add e prev = e :: firstn (cap - 1) prev /\ (List.length (add e prev) <= cap)%nat.
Proof.
  split; [reflexivity|]. rewrite add_length. apply Nat.le_min_l.
Qed.

(** Every listener of the capture effect goes through [add]: after a
    click, a key, a scroll, a visibility change, a copy or a heartbeat the
    list holds 2000 entries at most, whatever it held before. *)
Lemma listeners_cap `{Platform} (a : Ambient) (s : PageState) (i : PageInput) :
  tracking s = true ->
  match i with
  | Click _ | KeyDown _ | VisibilityChange _ | Copy | HeartbeatTick =>
      (List.length (myEvents (step a s i)) <= cap)%nat
  | Scroll w =>
      maxScroll s < scroll_depth w -> (List.length (myEvents (step a s i)) <= cap)%nat
  | _ => True
  end.
Proof.
  intros Ht. destruct i; trivial; cbn [step]; unfold listener; rewrite ?Ht;
    try (cbn [myEvents]; apply add_keeps_recent).
  intros Hd. unfold onScroll. apply Z.ltb_lt in Hd. rewrite Hd. cbn [myEvents].
  apply add_keeps_recent.
Qed.

(** The route effect prepends without cutting. *)
Lemma route_effect_length (a : Ambient) (full prevRoute : string)
    (prev : list MyActivityEvent) :
  str_truthy prevRoute = true ->
  List.length (route_effect a true full prevRoute prev) = S (List.length prev).
Proof. intros Hp. unfold route_effect. now rewrite Hp. Qed.

(** C5, at the failing input. On a fresh page, capture is switched on and
    1999 copies are recorded: the list holds 2000 entries.  A route change
    then leaves it with 2001, the new event first and nothing dropped. *)
Theorem route_change_exceeds_cap :
  let a := {| randomUUID := "u"; now := "2024-05-01T10:00:00.000Z"; location := "/" |} in
  let s := @run integer_host (mount [] "/")
             ((a, SetTracking true) :: List.repeat (a, Copy) 1999) in
  tracking s = true
  /\ List.length (myEvents s) = 2000%nat
  /\ List.length (myEvents (@step integer_host a s (Navigate "/settings" "")))
     = 2001%nat
  /\ myEvents (@step integer_host a s (Navigate "/settings" ""))
     = route_change_event a "/" "/settings" :: myEvents s.
Proof. vm_compute. repeat split. Qed.

(** The example of the specification: 2001 events recorded by a listener
    leave the 2000 most recent ones. *)
Example listeners_keep_2000 :
  let a (i : Z) :=
    {| randomUUID := decimal i; now := "2024-05-01T10:00:00.000Z"; location := "/" |} in
  let s := @run integer_host (mount [] "/")
             ((a 0, SetTracking true)
              :: List.map (fun i => (a (Z.of_nat i), Copy)) (List.seq 1 2001)) in
  List.length (myEvents s) = 2000%nat
  /\ List.map Activity.id (firstn 2 (myEvents s)) = ["2001"; "2000"]
  /\ List.map Activity.id (skipn 1999 (myEvents s)) = ["2"].
Proof. vm_compute. repeat split. Qed.

(** *** The scroll watermark *)

Lemma onScroll_watermark `{Platform} (a : Ambient) (w : Viewport) (m : Z)
    (prev : list MyActivityEvent) :
  fst (onScroll a w m prev) = Z.max m (scroll_depth w).
Proof.
  unfold onScroll. destruct (m <? scroll_depth w) eqn:Hd; simpl.
  - apply Z.ltb_lt in Hd. lia.
  - apply Z.ltb_ge in Hd. lia.
Qed.

(** One input that is not the switch keeps capture on and moves the
    watermark only by a scroll, to the greater of the two depths. *)
Lemma step_watermark `{Platform} (a : Ambient) (s : PageState) (i : PageInput) :
  tracking s = true ->
  same_session [(a, i)] = true ->
  tracking (step a s i) = true
  /\ maxScroll (step a s i) = List.fold_left Z.max (scroll_depths [(a, i)]) (maxScroll s).
Proof.
  intros Ht Hs. destruct i; simpl in Hs; try discriminate;
    cbn [step scroll_depths List.fold_left]; unfold listener; rewrite ?Ht; simpl;
    try (split; [first [reflexivity | exact Ht] | reflexivity]).
  pose proof (onScroll_watermark a w (maxScroll s) (myEvents s)) as Hw.
  destruct (onScroll a w (maxScroll s) (myEvents s)) as [m l]. simpl in *.
  split; [reflexivity | exact Hw].
Qed.

Lemma run_watermark `{Platform} (inputs : list (Ambient * PageInput)) (s : PageState) :
  tracking s = true ->
  same_session inputs = true ->
  tracking (run s inputs) = true
  /\ maxScroll (run s inputs) = List.fold_left Z.max (scroll_depths inputs) (maxScroll s).
Proof.
  revert s. induction inputs as [|[a i] inputs IH]; intros s Ht Hs; [now split|].
  assert (Hi : same_session [(a, i)] = true) by (now destruct i).
  assert (Hrest : same_session inputs = true) by (now destruct i).
  destruct (step_watermark a s i Ht Hi) as [Ht' Hm'].
  destruct (IH (step a s i) Ht' Hrest) as [Ht'' Hm''].
  cbn [run]. split; [exact Ht''|]. rewrite Hm'', Hm'.
  destruct i; reflexivity.
Qed.



Example scroll_session_labels :
  let a := {| randomUUID := "u"; now := "2024-05-01T10:00:00.000Z"; location := "/" |} in
  List.map Activity.label
    (myEvents
       (@run integer_host (mount [] "/")
          [(a, SetTracking true); (a, Scroll (scrolled_to 80));
           (a, Scroll (scrolled_to 50)); (a, SetTracking false);
           (a, Scroll (scrolled_to 90)); (a, SetTracking true);
           (a, Scroll (scrolled_to 50))]))
  = ["スクロール 50%"; "/ → /"; "スクロール 80%"; "/ → /"].
Proof. reflexivity. Qed.

(** *** JSON text: strings *)

#[local] Arguments String.append !s1 s2 : simpl nomatch.

Lemma append_assoc (a b c : string) : ((a ++ b) ++ c = a ++ (b ++ c))%string.
Proof. induction a as [|x a IH]; simpl; [reflexivity | now rewrite IH]. Qed.

Lemma append_nil_r (a : string) : (a ++ "")%string = a.
Proof. induction a as [|x a IH]; simpl; [reflexivity | now rewrite IH]. Qed.

Lemma length_append (a b : string) :
  String.length (a ++ b) = (String.length a + String.length b)%nat.
Proof. induction a as [|x a IH]; simpl; [reflexivity | now rewrite IH]. Qed.

(** One character, escaped, reads back as the unit that spells it. *)
Lemma parse_units_escape_char (c : ascii) :
  exists u : ascii + N,
    (forall r, parse_units (escape_char c ++ r) =
               match parse_units r with
               | Some (us, rest) => Some (u :: us, rest)
               | None => None
               end)
    /\ (forall tail, decode_units (u :: tail) = String c (decode_units tail)).
Proof.
  destruct c as [[] [] [] [] [] [] [] []];
    (eexists; split;
     [intros r; cbn; reflexivity
     |intros tail; destruct tail as [|[a|n] tail]; reflexivity]).
Qed.

Lemma parse_units_escape_string (s r : string) :
  exists us, parse_units (escape_string s ++ String quote r) = Some (us, r)
             /\ decode_units us = s.
Proof.
  induction s as [|c s (us & Hp & Hd)].
  - exists []. split; reflexivity.
  - destruct (parse_units_escape_char c) as (u & Hpc & Hdc).
    exists (u :: us). split.
    + cbn [escape_string]. rewrite append_assoc, Hpc, Hp. reflexivity.
    + rewrite Hdc, Hd. reflexivity.
Qed.

(** A quoted string reads back as itself. *)
Lemma parse_string_quote (s r : string) :
  parse_string (escape_string s ++ String quote r) = Some (s, r).
Proof.
  unfold parse_string.
  destruct (parse_units_escape_string s r) as (us & -> & ->). reflexivity.
Qed.

Lemma quote_string_append (s r : string) :
  (quote_string s ++ r)%string = String quote (escape_string s ++ String quote r).
Proof. unfold quote_string. simpl. now rewrite append_assoc. Qed.

(** *** JSON text: white space and numerals *)

Lemma skip_space_blank (ws r : string) :
  all_space ws = true -> skip_space (ws ++ r) = skip_space r.
Proof.
  induction ws as [|c ws IH]; simpl; [reflexivity|].
  intros Hs. apply andb_prop in Hs as [-> Hs]. now apply IH.
Qed.

Lemma skip_space_start (c : ascii) (r : string) :
  is_json_space c = false -> skip_space (String c r) = String c r.
Proof. intros Hc. simpl. now rewrite Hc. Qed.

Lemma all_space_indent (indent : string) :
  all_space indent = true -> all_space (indent ++ "  ") = true.
Proof.
  induction indent as [|c s IH]; simpl; [reflexivity|].
  intros Hs. apply andb_prop in Hs as [-> Hs]. now apply IH.
Qed.

Lemma value_start_not_space (c : ascii) :
  value_start c = true ->
  is_json_space c = false /\ Ascii.eqb c "]" = false /\ Ascii.eqb c "}" = false.
Proof.
  destruct c as [[] [] [] [] [] [] [] []]; cbv; intros; try discriminate; repeat split.
Qed.

Lemma strip_digits_number_chars (s : string) :
  all_number_chars (strip_digits s) = true -> all_number_chars s = true.
Proof.
  induction s as [|c s IH]; simpl; [trivial|].
  destruct (is_digit c) eqn:Hd.
  - intros Hs. unfold is_number_char. rewrite Hd. simpl. now apply IH.
  - simpl. trivial.
Qed.

Lemma json_exponent_chars (s : string) :
  json_exponent s = true -> all_number_chars s = true.
Proof.
  destruct s as [|c s]; [reflexivity|]. unfold json_exponent.
  destruct (Ascii.eqb c "e" || Ascii.eqb c "E")%bool eqn:He; [|discriminate].
  intros Hs. apply andb_prop in Hs as [_ Hs].
  assert (Hc : is_number_char c = true).
  { unfold is_number_char. apply orb_prop in He as [-> | ->];
      now rewrite ?orb_true_r. }
  cbn [all_number_chars]. rewrite Hc. simpl.
  assert (Hdigits : forall t, negb (str_truthy (strip_digits t)) = true ->
                              all_number_chars t = true).
  { intros t Ht. apply strip_digits_number_chars.
    now destruct (strip_digits t). }
  destruct s as [|g s]; [reflexivity|].
  destruct (Ascii.eqb g "+" || Ascii.eqb g "-")%bool eqn:Hg.
  - cbn [all_number_chars].
    assert (Hgc : is_number_char g = true).
    { unfold is_number_char. apply orb_prop in Hg as [-> | ->];
        now rewrite ?orb_true_r. }
    rewrite Hgc. simpl. now apply Hdigits.
  - now apply Hdigits.
Qed.

Lemma json_fraction_chars (s : string) :
  json_fraction s = true -> all_number_chars s = true.
Proof.
  destruct s as [|c s]; [reflexivity|]. unfold json_fraction.
  destruct (Ascii.eqb_spec c ".") as [->|Hc].
  - intros Hs. apply andb_prop in Hs as [_ Hs].
    cbn [all_number_chars]. change (is_number_char ".") with true. simpl.
    apply strip_digits_number_chars. now apply json_exponent_chars.
  - apply json_exponent_chars.
Qed.

Lemma json_integer_chars (s : string) :
  json_integer s = true ->
  all_number_chars s = true /\ starts_with_digit s = true.
Proof.
  destruct s as [|c s]; [discriminate|]. unfold json_integer.
  destruct (Ascii.eqb_spec c "0") as [->|Hc].
  - intros Hs. split; [|reflexivity].
    cbn [all_number_chars]. change (is_number_char "0") with true. simpl.
    now apply json_fraction_chars.
  - destruct (is_digit c) eqn:Hd; [|discriminate].
    intros Hs. split; [|exact Hd].
    cbn [all_number_chars]. unfold is_number_char. rewrite Hd. simpl.
    apply strip_digits_number_chars. now apply json_fraction_chars.
Qed.

(** A numeral of the grammar is made of the characters of numerals and
    starts with a digit or a minus sign. *)
Lemma json_number_chars (t : string) :
  json_number t = true ->
  all_number_chars t = true
  /\ exists c t', t = String c t' /\ (is_digit c || Ascii.eqb c "-")%bool = true.
Proof.
  destruct t as [|c t]; [discriminate|]. unfold json_number.
  destruct (Ascii.eqb_spec c "-") as [->|Hc].
  - intros Hs. apply json_integer_chars in Hs as [Hs _]. split.
    + cbn [all_number_chars]. now rewrite Hs.
    + now exists "-"%char, t.
  - intros Hs. apply json_integer_chars in Hs as [Hs Hd]. split; [exact Hs|].
    exists c, t. split; [reflexivity|]. simpl in Hd. now rewrite Hd.
Qed.

Lemma span_number_token (t rest : string) :
  all_number_chars t = true -> ends_numeral rest = true ->
  span_number (t ++ rest) = (t, rest).
Proof.
  intros Ht Hr. induction t as [|c t IH]; simpl.
  - destruct rest as [|c r]; [reflexivity|]. simpl in *.
    now destruct (is_number_char c).
  - simpl in Ht. apply andb_prop in Ht as [-> Ht]. now rewrite (IH Ht).
Qed.

(** *** Objects built from the members of a text *)

Lemma distinct_not_in (ks1 ks2 : list string) (k : string) :
  distinct (ks1 ++ k :: ks2) = true -> ~ In k ks1.
Proof.
  induction ks1 as [|k1 ks1 IH]; cbn [app distinct]; [tauto|].
  intros Hd. apply andb_prop in Hd as [Hk1 Hd].
  intros [-> | Hin]; [|now apply IH].
  apply negb_true_iff in Hk1. rewrite existsb_app in Hk1. cbn [existsb] in Hk1.
  rewrite String.eqb_refl in Hk1. simpl in Hk1. now rewrite orb_true_r in Hk1.
Qed.

Lemma named_only_index (ks1 ks2 : list string) (k : string) (n : Z) :
  array_index k = Some n -> named_only (ks1 ++ k :: ks2) = false.
Proof.
  intros Hk. induction ks1 as [|k1 ks1 IH]; cbn [app named_only].
  - now rewrite Hk.
  - now destruct (array_index k1).
Qed.

Lemma indices_above (ks1 ks2 : list string) (k : string) (n above : Z) :
  indices_then_names above (ks1 ++ k :: ks2) = true ->
  array_index k = Some n ->
  above < n
  /\ List.Forall (fun k' => exists m, array_index k' = Some m /\ m < n) ks1.
Proof.
  intros Ho Hk. revert above Ho.
  induction ks1 as [|k1 ks1 IH]; intros above Ho; cbn [app indices_then_names] in Ho.
  - rewrite Hk in Ho. apply andb_prop in Ho as [Ha _]. apply Z.ltb_lt in Ha.
    split; [exact Ha | constructor].
  - destruct (array_index k1) as [m1|] eqn:Hk1.
    + apply andb_prop in Ho as [Ha Ho]. apply Z.ltb_lt in Ha.
      destruct (IH m1 Ho) as [Hlt Hall]. split; [lia|].
      constructor; [now exists m1 | exact Hall].
    + now rewrite (named_only_index ks1 ks2 k n Hk) in Ho.
Qed.

Lemma obj_insert_index_last {V : Type} (n : Z) (k : string) (v : V) (o : JsObject V) :
  List.Forall (fun k' => exists m, array_index k' = Some m /\ m < n) (List.map fst o) ->
  obj_insert_index n k v o = (o ++ [(k, v)])%list.
Proof.
  induction o as [|[k0 v0] o IH]; cbn [List.map fst obj_insert_index app]; [reflexivity|].
  intros Hall. inversion Hall as [|? ? (m & Hm & Hlt) Hall']; subst.
  rewrite Hm. destruct (n <? m) eqn:Hnm; [apply Z.ltb_lt in Hnm; lia|].
  now rewrite IH.
Qed.

(** Setting, one after the other, the properties of an object in the order
    of enumeration appends each of them. *)
Lemma fold_set_enumerated {V : Type} (todo done : list (string * V)) :
  distinct (List.map fst (done ++ todo)) = true ->
  indices_then_names (-1) (List.map fst (done ++ todo)) = true ->
  List.fold_left (fun o kv => obj_set (fst kv) (snd kv) o) todo done = (done ++ todo)%list.
Proof.
  revert done. induction todo as [|[k v] todo IH]; intros done Hd Ho; cbn [List.fold_left].
  - now rewrite List.app_nil_r.
  - assert (Hset : obj_set k v done = (done ++ [(k, v)])%list).
    { rewrite List.map_app in Hd, Ho. cbn [List.map fst] in Hd, Ho.
      unfold obj_set.
      rewrite (proj2 (obj_get_None_keys k done) (distinct_not_in _ _ _ Hd)).
      destruct (array_index k) as [n|] eqn:Hk; [|reflexivity].
      apply obj_insert_index_last. now apply (indices_above _ _ _ _ _ Ho Hk). }
    cbn [fst snd]. rewrite Hset, IH; rewrite <- List.app_assoc; auto.
Qed.

(** An object whose properties are in the order of enumeration is the one
    its own members build. *)
Lemma enumerated_rebuild (o : list (string * JsVal)) :
  enumerated o = true -> obj_of_members o = o.
Proof.
  unfold enumerated. intros He. apply andb_prop in He as [Hd Ho].
  now apply (fold_set_enumerated o []).
Qed.

(** *** JSON text: values *)

Lemma JsVal_nested_ind (P : JsVal -> Prop) :
  P VUndefined -> P VNull -> (forall b, P (VBool b)) -> (forall n, P (VNum n)) ->
  (forall s, P (VStr s)) ->
  (forall items, List.Forall P items -> P (VArr items)) ->
  (forall props, List.Forall (fun kv => P (snd kv)) props -> P (VObj props)) ->
  forall v, P v.
Proof.
  intros Hu Hn Hb Hnum Hs Harr Hobj. fix IH 1.
  intros [ | | b | n | s | items | props].
  - exact Hu.
  - exact Hn.
  - apply Hb.
  - apply Hnum.
  - apply Hs.
  - apply Harr. revert items. fix IHl 1.
    intros [|x l]; constructor; [apply IH | apply IHl].
  - apply Hobj. revert props. fix IHl 1.
    intros [|[k x] l]; constructor; [apply IH | apply IHl].
Qed.

Section Roundtrip.
Context `{Platform}.
Hypothesis numerals : numerals_read_back.

Lemma json_exact_items (items : list JsVal) :
  json_exact (VArr items) = true -> List.Forall (fun x => json_exact x = true) items.
Proof.
  induction items as [|x l IH]; [constructor|]. cbn [json_exact].
  intros Hx. apply andb_prop in Hx as [Hx Hl]. constructor; [exact Hx | now apply IH].
Qed.

Lemma json_exact_props (props : list (string * JsVal)) :
  json_exact (VObj props) = true ->
  enumerated props = true
  /\ List.Forall (fun kv => json_exact (snd kv) = true) props.
Proof.
  cbn [json_exact]. intros Hx. apply andb_prop in Hx as [He Hx]. split; [exact He|].
  clear He. induction props as [|[k x] l IH]; [constructor|].
  apply andb_prop in Hx as [Hx Hl]. constructor; [exact Hx | now apply IH].
Qed.

Lemma stringify_items (indent : string) (items : list JsVal) :
  stringify indent (VArr items) =
  Some (match List.map (text_of (indent ++ "  ")) items with
        | [] => "[]"
        | partial =>
            "[" ++ String newline (indent ++ "  ")
              ++ join ("," ++ String newline (indent ++ "  ")) partial
              ++ String newline indent ++ "]"
        end).
Proof.
  cbn [stringify]. f_equal.
  match goal with
  | |- match ?a with _ => _ end = _ =>
      replace a with (List.map (text_of (indent ++ "  ")) items)
  end; [now destruct (List.map (text_of (indent ++ "  ")) items)|].
  induction items as [|x l IH]; [reflexivity|]. cbn [List.map]. now rewrite IH.
Qed.

Lemma exact_stringify (indent : string) (v : JsVal) :
  json_exact v = true -> stringify indent v = Some (text_of indent v).
Proof.
  unfold text_of. destruct v; try discriminate; reflexivity.
Qed.

Lemma stringify_props (indent : string) (props : list (string * JsVal)) :
  List.Forall (fun kv => json_exact (snd kv) = true) props ->
  stringify indent (VObj props) =
  Some (match List.map (fun kv => quote_string (fst kv) ++ ": "
                                    ++ text_of (indent ++ "  ") (snd kv)) props with
        | [] => "{}"
        | partial =>
            "{" ++ String newline (indent ++ "  ")
              ++ join ("," ++ String newline (indent ++ "  ")) partial
              ++ String newline indent ++ "}"
        end).
Proof.
  intros Hx. cbn [stringify]. f_equal.
  match goal with
  | |- match ?a with _ => _ end = _ =>
      replace a with (List.map (fun kv => quote_string (fst kv) ++ ": "
                                            ++ text_of (indent ++ "  ") (snd kv)) props)
  end; [now destruct (List.map _ props)|].
  induction Hx as [|[k x] l Hk Hl IH]; [reflexivity|]. cbn [List.map fst snd].
  simpl in Hk. rewrite (exact_stringify _ _ Hk). now rewrite IH.
Qed.

(** The text of a value starts with a character that only starts values. *)
Lemma text_start (indent : string) (v : JsVal) :
  json_exact v = true ->
  exists c t, text_of indent v = String c t /\ value_start c = true.
Proof.
  destruct v as [ | | b | n | s | items | props]; try discriminate; intros Hx.
  - now exists "n"%char, "ull".
  - destruct b; [now exists "t"%char, "rue" | now exists "f"%char, "alse"].
  - destruct n as [ | | q]; try discriminate. simpl in Hx.
    destruct (numerals q Hx) as [Hj _].
    apply json_number_chars in Hj as (_ & c & t & Ht & Hc).
    exists c, t. unfold text_of. cbn [stringify]. split; [exact Ht|].
    unfold value_start. apply orb_prop in Hc as [-> | ->]; now rewrite ?orb_true_r.
  - unfold text_of. cbn [stringify]. unfold quote_string. now eexists _, _.
  - unfold text_of. rewrite stringify_items.
    destruct (List.map (text_of (indent ++ "  ")) items); now eexists _, _.
  - apply json_exact_props in Hx as [_ Hx].
    unfold text_of. rewrite (stringify_props _ _ Hx).
    destruct (List.map _ props); now eexists _, _.
Qed.


Lemma parse_value_numeral (fuel : nat) (c : ascii) (s1 : string) :
  (is_digit c || Ascii.eqb c "-")%bool = true ->
  parse_value (S fuel) (String c s1) =
  let '(t, rest) := span_number (String c s1) in
  if json_number t then Some (VNum (Number_ t), rest) else None.
Proof.
  destruct c as [[] [] [] [] [] [] [] []]; intros Hc;
    try (exfalso; vm_compute in Hc; discriminate); reflexivity.
Qed.

Lemma skip_space_idem (s : string) : skip_space (skip_space s) = skip_space s.
Proof.
  induction s as [|c s IH]; simpl; [reflexivity|].
  destruct (is_json_space c) eqn:Hc; [exact IH|]. simpl. now rewrite Hc.
Qed.

Lemma parse_value_skip (fuel : nat) (s : string) :
  parse_value fuel (skip_space s) = parse_value fuel s.
Proof. destruct fuel as [|f]; [reflexivity|]. simpl. now rewrite skip_space_idem. Qed.

Lemma parse_value_blank (fuel : nat) (ws s : string) :
  all_space ws = true -> parse_value fuel (ws ++ s) = parse_value fuel s.
Proof.
  intros Hws. rewrite <- parse_value_skip, (skip_space_blank _ _ Hws).
  apply parse_value_skip.
Qed.

Lemma parse_elements_unfold (f : nat) (s : string) :
  parse_elements (S f) s =
  match parse_value f s with
  | Some (v, r) =>
      match skip_space r with
      | String c r1 =>
          if Ascii.eqb c "," then
            match parse_elements f r1 with
            | Some (l, r2) => Some (v :: l, r2)
            | None => None
            end
          else if Ascii.eqb c "]" then Some ([v], r1)
          else None
      | EmptyString => None
      end
  | None => None
  end.
Proof. reflexivity. Qed.

Lemma parse_members_unfold (f : nat) (s1 : string) :
  parse_members (S f) (String quote s1) =
  match parse_string s1 with
  | Some (k, r) =>
      match skip_space r with
      | String c r1 =>
          if Ascii.eqb c ":" then
            match parse_value f r1 with
            | Some (v, r2) =>
                match skip_space r2 with
                | String d r3 =>
                    if Ascii.eqb d "," then
                      match parse_members f r3 with
                      | Some (ms, r4) => Some ((k, v) :: ms, r4)
                      | None => None
                      end
                    else if Ascii.eqb d "}" then Some ([(k, v)], r3)
                    else None
                | EmptyString => None
                end
            | None => None
            end
          else None
      | EmptyString => None
      end
  | None => None
  end.
Proof. reflexivity. Qed.

Lemma parse_members_blank (fuel : nat) (ws s : string) :
  all_space ws = true -> parse_members fuel (ws ++ s) = parse_members fuel s.
Proof.
  intros Hws. destruct fuel as [|f]; [reflexivity|].
  cbn [parse_members]. rewrite (skip_space_blank _ _ Hws).
  rewrite <- (skip_space_idem s).
  destruct (skip_space s); reflexivity.
Qed.

Lemma parse_value_string (f : nat) (s1 : string) :
  parse_value (S f) (String quote s1) =
  match parse_string s1 with
  | Some (t, rest) => Some (VStr t, rest)
  | None => None
  end.
Proof. reflexivity. Qed.

Lemma parse_value_array (f : nat) (s1 : string) :
  parse_value (S f) (String "[" s1) =
  match skip_space s1 with
  | String c2 s2 =>
      if Ascii.eqb c2 "]" then Some (VArr [], s2)
      else match parse_elements f (String c2 s2) with
           | Some (l, rest) => Some (VArr l, rest)
           | None => None
           end
  | EmptyString => None
  end.
Proof. reflexivity. Qed.

Lemma parse_value_object (f : nat) (s1 : string) :
  parse_value (S f) (String "{" s1) =
  match skip_space s1 with
  | String c2 s2 =>
      if Ascii.eqb c2 "}" then Some (VObj [], s2)
      else match parse_members f (String c2 s2) with
           | Some (ms, rest) => Some (VObj (obj_of_members ms), rest)
           | None => None
           end
  | EmptyString => None
  end.
Proof. reflexivity. Qed.

Lemma join_cons2 (sep x y : string) (l : list string) :
  join sep (x :: y :: l) = (x ++ sep ++ join sep (y :: l))%string.
Proof. reflexivity. Qed.

Lemma parse_elements_text (inner indent : string) (items : list JsVal) :
  items <> [] ->
  List.Forall
    (fun x =>
       forall ind ws rest fuel,
         all_space ind = true -> all_space ws = true -> ends_numeral rest = true ->
         (String.length (text_of ind x) < fuel)%nat ->
         parse_value fuel (ws ++ text_of ind x ++ rest) = Some (x, rest)) items ->
  all_space inner = true -> all_space indent = true ->
  forall ws rest fuel,
    all_space ws = true ->
    (String.length (join ("," ++ String newline inner) (List.map (text_of inner) items)) + 1
     < fuel)%nat ->
    parse_elements fuel
      (ws ++ join ("," ++ String newline inner) (List.map (text_of inner) items)
          ++ String newline (indent ++ "]" ++ rest))
    = Some (items, rest).
Proof.
  intros Hne Hall Hinner Hindent.
  induction Hall as [|x l Hx Hl IH]; [congruence|]. clear Hne.
  intros ws rest fuel Hws Hfuel. destruct fuel as [|f]; [lia|].
  rewrite parse_elements_unfold. destruct l as [|y l].
  - cbn [List.map join] in *.
    rewrite (Hx inner ws (String newline (indent ++ "]" ++ rest)) f Hinner Hws eq_refl)
      by lia.
    cbn [skip_space]. change (is_json_space newline) with true. cbv iota.
    rewrite (skip_space_blank _ _ Hindent). reflexivity.
  - cbn [List.map] in *. rewrite join_cons2 in *.
    rewrite !length_append in Hfuel. cbn [String.length] in Hfuel.
    rewrite !append_assoc.
    match goal with
    | |- context [parse_value f (ws ++ text_of inner x ++ ?R)] =>
        rewrite (Hx inner ws R f Hinner Hws eq_refl) by lia
    end.
    change ("," ++ ?X)%string with (String "," X).
    cbn [skip_space]. change (is_json_space ",") with false. cbv iota.
    change (Ascii.eqb "," ",") with true. cbv iota.
    rewrite IH; [reflexivity | discriminate | | ].
    + simpl. now rewrite Hinner.
    + cbn [List.map]. lia.
Qed.

Lemma parse_members_text (inner indent : string) (props : list (string * JsVal)) :
  props <> [] ->
  List.Forall
    (fun kv =>
       forall ind ws rest fuel,
         all_space ind = true -> all_space ws = true -> ends_numeral rest = true ->
         (String.length (text_of ind (snd kv)) < fuel)%nat ->
         parse_value fuel (ws ++ text_of ind (snd kv) ++ rest) = Some (snd kv, rest))
    props ->
  all_space inner = true -> all_space indent = true ->
  forall ws rest fuel,
    all_space ws = true ->
    (String.length
       (join ("," ++ String newline inner)
          (List.map (fun kv => quote_string (fst kv) ++ ": " ++ text_of inner (snd kv))
             props)) + 1 < fuel)%nat ->
    parse_members fuel
      (ws ++ join ("," ++ String newline inner)
               (List.map (fun kv => quote_string (fst kv) ++ ": " ++ text_of inner (snd kv))
                  props)
          ++ String newline (indent ++ "}" ++ rest))
    = Some (props, rest).
Proof.
  intros Hne Hall Hinner Hindent.
  induction Hall as [|[k x] l Hx Hl IH]; [congruence|]. clear Hne.
  intros ws rest fuel Hws Hfuel. destruct fuel as [|f]; [lia|].
  rewrite (parse_members_blank _ _ _ Hws). cbn [fst snd] in Hx.
  destruct l as [|y l].
  - cbn [List.map join fst snd] in *.
    rewrite !length_append in Hfuel. cbn [String.length] in Hfuel.
    rewrite !append_assoc, quote_string_append.
    rewrite parse_members_unfold, parse_string_quote.
    change (": " ++ ?X)%string with (String ":" (" " ++ X)).
    cbn [skip_space]. change (is_json_space ":") with false. cbv iota.
    change (Ascii.eqb ":" ":") with true. cbv iota.
    rewrite (Hx inner " " (String newline (indent ++ "}" ++ rest)) f Hinner eq_refl eq_refl)
      by lia.
    cbn [skip_space]. change (is_json_space newline) with true. cbv iota.
    rewrite (skip_space_blank _ _ Hindent). reflexivity.
  - cbn [List.map fst snd] in *. rewrite join_cons2 in *.
    rewrite !length_append in Hfuel. cbn [String.length] in Hfuel.
    rewrite !append_assoc, quote_string_append.
    rewrite parse_members_unfold, parse_string_quote.
    change (": " ++ ?X)%string with (String ":" (" " ++ X)).
    cbn [skip_space]. change (is_json_space ":") with false. cbv iota.
    change (Ascii.eqb ":" ":") with true. cbv iota.
    match goal with
    | |- context [parse_value f (" " ++ text_of inner x ++ ?R)] =>
        rewrite (Hx inner " " R f Hinner eq_refl eq_refl) by lia
    end.
    change ("," ++ ?X)%string with (String "," X).
    cbn [skip_space]. change (is_json_space ",") with false. cbv iota.
    change (Ascii.eqb "," ",") with true. cbv iota.
    rewrite IH; [reflexivity | discriminate | | ].
    + simpl. now rewrite Hinner.
    + cbn [List.map]. lia.
Qed.

(** The text of a value reads back as the value, whatever white space
    comes before and whatever comes after that cannot continue a numeral. *)
Lemma parse_value_text (v : JsVal) :
  json_exact v = true ->
  forall ind ws rest fuel,
    all_space ind = true -> all_space ws = true -> ends_numeral rest = true ->
    (String.length (text_of ind v) < fuel)%nat ->
    parse_value fuel (ws ++ text_of ind v ++ rest) = Some (v, rest).
Proof.
  induction v as [ | | b | n | s | items IH | props IH] using JsVal_nested_ind;
    intros Hx ind ws rest fuel Hind Hws Hrest Hfuel;
    (destruct fuel as [|f]; [lia|]);
    rewrite (parse_value_blank _ _ _ Hws).
  - discriminate.
  - reflexivity.
  - destruct b; reflexivity.
  - destruct n as [ | | q]; try discriminate. simpl in Hx.
    destruct (numerals q Hx) as [Hj Hn].
    unfold text_of. cbn [stringify].
    destruct (json_number_chars _ Hj) as (Hchars & c & t & Ht & Hc).
    pose proof (span_number_token _ _ Hchars Hrest) as Hspan.
    rewrite Ht in Hspan |- *. cbn [String.append] in Hspan |- *.
    rewrite (parse_value_numeral _ _ _ Hc), Hspan, <- Ht, Hj, Hn. reflexivity.
  - unfold text_of. cbn [stringify]. rewrite quote_string_append.
    rewrite parse_value_string, parse_string_quote. reflexivity.
  - pose proof (json_exact_items _ Hx) as Hitems.
    unfold text_of in *. rewrite stringify_items in *.
    destruct items as [|x l]; [reflexivity|].
    set (inner := (ind ++ "  ")%string) in *.
    assert (Hinner : all_space inner = true) by now apply all_space_indent.
    cbn [List.map] in *.
    rewrite !length_append in Hfuel. cbn [String.length] in Hfuel.
    rewrite !append_assoc.
    change ("[" ++ ?X)%string with (String "[" X).
    rewrite parse_value_array.
    rewrite (skip_space_blank (String newline inner)) by (simpl; now rewrite Hinner).
    destruct (text_start inner x) as (c & t & Ht & Hc);
      [now inversion Hitems|].
    assert (Hjoin : exists j, join ("," ++ String newline inner)
                                (text_of inner x :: List.map (text_of inner) l)
                              = String c j).
    { destruct l as [|y l].
      - exists t. exact Ht.
      - cbn [List.map]. rewrite join_cons2, Ht. now eexists. }
    destruct Hjoin as [j Hj].
    destruct (value_start_not_space c Hc) as (Hsp & Hclose & _).
    pose proof (parse_elements_text inner ind (x :: l)) as Hel.
    cbn [List.map] in Hel. rewrite Hj in *. cbn [String.append].
    rewrite (skip_space_start _ _ Hsp), Hclose.
    specialize (Hel ltac:(discriminate)).
    assert (Hall : List.Forall
                     (fun x => forall ind ws rest fuel,
                          all_space ind = true -> all_space ws = true ->
                          ends_numeral rest = true ->
                          (String.length (text_of ind x) < fuel)%nat ->
                          parse_value fuel (ws ++ text_of ind x ++ rest) = Some (x, rest))
                     (x :: l)).
    { apply List.Forall_forall. intros y Hy.
      rewrite List.Forall_forall in IH, Hitems.
      intros. apply IH; auto. }
    specialize (Hel Hall Hinner Hind "" (String.append "" rest) f eq_refl).
    change ("]" ++ rest)%string with (String "]" rest).
    cbn [String.append] in Hel.
    rewrite Hel by lia. reflexivity.
  - apply json_exact_props in Hx as [Henum Hprops].
    unfold text_of in *. rewrite (stringify_props _ _ Hprops) in *.
    destruct props as [|[k x] l]; [reflexivity|].
    set (inner := (ind ++ "  ")%string) in *.
    assert (Hinner : all_space inner = true) by now apply all_space_indent.
    pose proof (parse_members_text inner ind ((k, x) :: l)) as Hel.
    cbn [List.map fst snd] in *.
    rewrite !length_append in Hfuel. cbn [String.length] in Hfuel.
    rewrite !append_assoc.
    change ("{" ++ ?X)%string with (String "{" X).
    rewrite parse_value_object.
    rewrite (skip_space_blank (String newline inner)) by (simpl; now rewrite Hinner).
    assert (Hjoin : exists j,
               join ("," ++ String newline inner)
                 ((quote_string k ++ ": " ++ text_of inner x)%string
                  :: List.map (fun kv => quote_string (fst kv) ++ ": "
                                           ++ text_of inner (snd kv))%string l)
               = String quote j).
    { destruct l as [|y l].
      - cbn [List.map join]. unfold quote_string. cbn [String.append]. now eexists.
      - cbn [List.map]. rewrite join_cons2. unfold quote_string at 1.
        cbn [String.append]. now eexists. }
    destruct Hjoin as [j Hj].
    rewrite Hj in *. cbn [String.append].
    rewrite (skip_space_start quote) by reflexivity.
    change (Ascii.eqb quote "}") with false. cbv iota.
    specialize (Hel ltac:(discriminate)).
    assert (Hall : List.Forall
                     (fun kv => forall ind ws rest fuel,
                          all_space ind = true -> all_space ws = true ->
                          ends_numeral rest = true ->
                          (String.length (text_of ind (snd kv)) < fuel)%nat ->
                          parse_value fuel (ws ++ text_of ind (snd kv) ++ rest)
                          = Some (snd kv, rest))
                     ((k, x) :: l)).
    { apply List.Forall_forall. intros y Hy.
      rewrite List.Forall_forall in IH, Hprops.
      intros. apply IH; auto. }
    specialize (Hel Hall Hinner Hind "" (String.append "" rest) f eq_refl).
    change ("}" ++ rest)%string with (String "}" rest).
    cbn [String.append] in Hel.
    rewrite Hel by lia. now rewrite (enumerated_rebuild _ Henum).
Qed.

(** [JSON.parse(JSON.stringify(v, null, 2))] is [v]. *)
Lemma JSON_parse_stringify (v : JsVal) :
  json_exact v = true ->
  exists t, JSON_stringify v = Some t /\ JSON_parse t = Some v.
Proof.
  intros Hx. exists (text_of "" v). split; [now apply exact_stringify|].
  unfold JSON_parse.
  pose proof (parse_value_text v Hx "" "" "" (S (String.length (text_of "" v)))
                eq_refl eq_refl eq_refl (Nat.lt_succ_diag_r _)) as Hp.
  cbn [String.append] in Hp. rewrite append_nil_r in Hp. now rewrite Hp.
Qed.

End Roundtrip.

Lemma as_event_value (e : MyActivityEvent) : as_event (event_value e) = Some e.
Proof. destruct e as [i t l c [m|] ic]; destruct t; reflexivity. Qed.

Lemma as_events_value (l : list MyActivityEvent) : as_events (events_value l) = Some l.
Proof.
  unfold events_value, as_events. induction l as [|e l IH]; [reflexivity|].
  cbn [List.map as_event_list]. now rewrite as_event_value, IH.
Qed.

Lemma json_exact_object `{Platform} (props : list (string * JsVal)) :
  json_exact (VObj props) =
  (enumerated props && forallb (fun kv => json_exact (snd kv)) props)%bool.
Proof.
  cbn [json_exact]. f_equal.
  induction props as [|[k x] l IH]; [reflexivity|]. cbn [forallb snd]. now rewrite IH.
Qed.

Lemma event_value_exact `{Platform} (e : MyActivityEvent) :
  event_exact e = true -> json_exact (event_value e) = true.
Proof.
  destruct e as [i t lb c [m|] ic]; unfold event_exact, event_value;
    cbn [Activity.meta Activity.id Activity.type Activity.label Activity.created_at
         Activity.icon app]; intros He; rewrite json_exact_object.
  - apply andb_true_intro. split; [vm_compute; reflexivity|].
    cbn [forallb snd]. rewrite He. reflexivity.
  - apply andb_true_intro. split; [vm_compute; reflexivity | reflexivity].
Qed.

Lemma events_value_exact `{Platform} (l : list MyActivityEvent) :
  List.Forall (fun e => event_exact e = true) l -> json_exact (events_value l) = true.
Proof.
  unfold events_value. induction 1 as [|e l He Hl IH]; [reflexivity|].
  cbn [List.map]. change (json_exact (VArr (?x :: ?r)))
    with (json_exact x && json_exact (VArr r))%bool.
  now rewrite IH, andb_true_r, (event_value_exact e He).
Qed.

(** *** The numerals of the host used for computing *)

Lemma digits_of_acc (f : nat) (n : Z) (acc : string) :
  digits_of f n acc = (digits_of f n "" ++ acc)%string.
Proof.
  revert n acc. induction f as [|f IH]; intros n acc; [reflexivity|].
  cbn [digits_of]. destruct (n <? 10); [reflexivity|].
  rewrite IH, (IH _ (String _ "")), append_assoc. reflexivity.
Qed.

Lemma digits_value_snoc (s : string) (a d : Z) :
  0 <= d < 10 ->
  digits_value a (s ++ String (digit_char d) "") =
  match digits_value a s with
  | Some v => Some (10 * v + d)
  | None => None
  end.
Proof.
  intros Hd. revert a. induction s as [|c s IH]; intros a; cbn [String.append digits_value].
  - assert (Hc : is_digit (digit_char d) = true
                 /\ Z.of_nat (nat_of_ascii (digit_char d) - 48) = d).
    { assert (Hcases : d = 0 \/ d = 1 \/ d = 2 \/ d = 3 \/ d = 4 \/ d = 5 \/ d = 6
                       \/ d = 7 \/ d = 8 \/ d = 9) by lia.
      repeat (destruct Hcases as [-> | Hcases]; [split; reflexivity|]).
      subst. split; reflexivity. }
    destruct Hc as [-> ->]. reflexivity.
  - destruct (is_digit c); [apply IH | reflexivity].
Qed.

Lemma digit_char_digit (d : Z) : 0 <= d < 10 -> is_digit (digit_char d) = true.
Proof.
  intros Hd.
  assert (Hcases : d = 0 \/ d = 1 \/ d = 2 \/ d = 3 \/ d = 4 \/ d = 5 \/ d = 6
                   \/ d = 7 \/ d = 8 \/ d = 9) by lia.
  repeat (destruct Hcases as [-> | Hcases]; [reflexivity|]). now subst.
Qed.

Lemma digit_char_zero (d : Z) :
  1 <= d < 10 -> Ascii.eqb (digit_char d) "0" = false.
Proof.
  intros Hd.
  assert (Hcases : d = 1 \/ d = 2 \/ d = 3 \/ d = 4 \/ d = 5 \/ d = 6
                   \/ d = 7 \/ d = 8 \/ d = 9) by lia.
  repeat (destruct Hcases as [-> | Hcases]; [reflexivity|]). now subst.
Qed.

Lemma strip_digits_app (a b : string) :
  strip_digits a = EmptyString -> strip_digits (a ++ b) = strip_digits b.
Proof.
  induction a as [|c a IH]; cbn [String.append strip_digits]; [reflexivity|].
  destruct (is_digit c); [exact IH | discriminate].
Qed.

(** The digits printed for [n] spell [n], without a leading zero. *)
Lemma digits_of_spec (f : nat) (n : Z) :
  0 <= n < 2 ^ Z.of_nat f -> (1 <= f)%nat ->
  digits_value 0 (digits_of f n "") = Some n
  /\ strip_digits (digits_of f n "") = EmptyString
  /\ exists c t, digits_of f n "" = String c t
                 /\ is_digit c = true
                 /\ (1 <= n -> Ascii.eqb c "0" = false)
                 /\ (n = 0 -> c = "0"%char /\ t = EmptyString).
Proof.
  revert n. induction f as [|f IH]; intros n Hn Hf; [lia|].
  cbn [digits_of]. destruct (n <? 10) eqn:Hlt.
  - apply Z.ltb_lt in Hlt. assert (Hd : 0 <= n < 10) by lia.
    pose proof (digits_value_snoc "" 0 n Hd) as Hv. cbn [String.append] in Hv.
    split; [rewrite Hv; cbn [digits_value]; f_equal; lia|]. split.
    + cbn [strip_digits]. now rewrite (digit_char_digit n Hd).
    + exists (digit_char n), EmptyString. split; [reflexivity|].
      split; [now apply digit_char_digit|]. split.
      * intros H1. apply digit_char_zero. lia.
      * intros ->. now split.
  - apply Z.ltb_ge in Hlt.
    assert (Hpow : 2 ^ Z.of_nat (S f) = 2 * 2 ^ Z.of_nat f).
    { rewrite Nat2Z.inj_succ, Z.pow_succ_r; lia. }
    assert (Hf' : (1 <= f)%nat).
    { destruct f; [|lia]. simpl in Hpow. lia. }
    assert (Hq : 0 <= n / 10 < 2 ^ Z.of_nat f).
    { split; [apply Z.div_pos; lia|]. apply Z.div_lt_upper_bound; lia. }
    assert (Hr : 0 <= n mod 10 < 10) by (apply Z.mod_pos_bound; lia).
    destruct (IH (n / 10) Hq Hf') as (Hv & Hs & c & t & Hd & Hc & Hnz & _).
    rewrite digits_of_acc. split; [|split].
    + rewrite (digits_value_snoc _ _ _ Hr), Hv. f_equal.
      pose proof (Z.div_mod n 10). lia.
    + rewrite (strip_digits_app _ _ Hs). cbn [strip_digits].
      now rewrite (digit_char_digit _ Hr).
    + exists c, (t ++ String (digit_char (n mod 10)) "")%string.
      rewrite Hd. split; [reflexivity|]. split; [exact Hc|]. split.
      * intros _. apply Hnz. apply Z.div_le_lower_bound; lia.
      * intros ->. lia.
Qed.

Lemma number_char_not_space (c : ascii) :
  is_number_char c = true -> is_space c = false.
Proof.
  destruct c as [[] [] [] [] [] [] [] []]; cbv; intros; try discriminate; reflexivity.
Qed.

Lemma trimEnd_number_chars (s : string) :
  all_number_chars s = true -> trimEnd s = s.
Proof.
  induction s as [|c s IH]; [reflexivity|]. cbn [all_number_chars trimEnd].
  intros Hs. apply andb_prop in Hs as [Hc Hs].
  rewrite (IH Hs), (number_char_not_space _ Hc). reflexivity.
Qed.

Lemma trim_number_chars (s : string) :
  all_number_chars s = true -> trim s = s.
Proof.
  intros Hs. unfold trim. destruct s as [|c s]; [reflexivity|].
  pose proof Hs as Hs'. cbn [all_number_chars] in Hs'. apply andb_prop in Hs' as [Hc _].
  cbn [trimStart]. rewrite (number_char_not_space _ Hc).
  now apply trimEnd_number_chars.
Qed.

Lemma digits_number_chars (s : string) :
  strip_digits s = EmptyString -> all_number_chars s = true.
Proof.
  intros Hs. apply strip_digits_number_chars. now rewrite Hs.
Qed.

Lemma digit_not_sign (c : ascii) :
  is_digit c = true ->
  Ascii.eqb c "I" = false /\ Ascii.eqb c "+" = false /\ Ascii.eqb c "-" = false.
Proof.
  destruct c as [[] [] [] [] [] [] [] []]; cbv; intros; try discriminate; repeat split.
Qed.

Lemma log2_fuel (n : Z) :
  0 <= n -> 0 <= n < 2 ^ Z.of_nat (S (Z.to_nat (Z.log2 n))) /\ (1 <= S (Z.to_nat (Z.log2 n)))%nat.
Proof.
  intros Hn. split; [|lia]. split; [exact Hn|].
  rewrite Nat2Z.inj_succ, Z2Nat.id by apply Z.log2_nonneg.
  destruct (Z.eq_dec n 0) as [->|Hz]; [reflexivity|].
  apply Z.log2_spec. lia.
Qed.

Lemma digits_integer (d : string) (n : Z) :
  strip_digits d = EmptyString ->
  (exists c t, d = String c t /\ is_digit c = true
               /\ (1 <= n -> Ascii.eqb c "0" = false)
               /\ (n = 0 -> c = "0"%char /\ t = EmptyString)) ->
  0 <= n ->
  json_integer d = true.
Proof.
  intros Hs (c & t & -> & Hc & Hnz & Hz) Hn.
  cbn [strip_digits] in Hs. rewrite Hc in Hs.
  unfold json_integer. destruct (Ascii.eqb c "0") eqn:H0.
  - destruct (Z.eq_dec n 0) as [E|E].
    + destruct (Hz E) as [_ ->]. reflexivity.
    + assert (Hone : 1 <= n) by lia. specialize (Hnz Hone). congruence.
  - rewrite Hc, Hs. reflexivity.
Qed.

(** The decimal numeral of an integer is a numeral of JSON and reads back
    as the integer. *)
Lemma decimal_spec (z : Z) :
  json_number (decimal z) = true /\ integer_Number (decimal z) = of_Z z.
Proof.
  unfold decimal. destruct (z <? 0) eqn:Hneg.
  - apply Z.ltb_lt in Hneg.
    destruct (log2_fuel (- z) ltac:(lia)) as [Hb Hf].
    destruct (digits_of_spec _ _ Hb Hf) as (Hv & Hs & Hhead).
    set (d := digits_of _ (- z) "") in *.
    pose proof (digits_integer d (- z) Hs Hhead ltac:(lia)) as Hint.
    destruct Hhead as (c & t & Hd & Hc & _).
    split; [exact Hint|].
    unfold integer_Number. rewrite trim_number_chars.
    + destruct (digit_not_sign c Hc) as (HI & _ & _).
      rewrite Hd in *. cbn [String.eqb]. change (Ascii.eqb "-" "I") with false.
      change (Ascii.eqb "-" "+") with false. change (Ascii.eqb "-" "-") with true.
      rewrite HI. cbn [andb str_truthy]. rewrite Hv. unfold of_Z. do 2 f_equal. lia.
    + cbn [all_number_chars]. change (is_number_char "-") with true.
      cbn [andb]. now apply digits_number_chars.
  - apply Z.ltb_ge in Hneg.
    destruct (log2_fuel z Hneg) as [Hb Hf].
    destruct (digits_of_spec _ _ Hb Hf) as (Hv & Hs & Hhead).
    set (d := digits_of _ z "") in *.
    pose proof (digits_integer d z Hs Hhead Hneg) as Hint.
    destruct Hhead as (c & t & Hd & Hc & _).
    destruct (digit_not_sign c Hc) as (HI & Hplus & Hminus).
    split.
    + unfold json_number. rewrite Hd in *. now rewrite Hminus.
    + unfold integer_Number. rewrite trim_number_chars by now apply digits_number_chars.
      rewrite Hd in *. cbn [String.eqb]. rewrite HI, Hplus, Hminus. cbn [andb].
      now rewrite Hv.
Qed.

(** The host used for computing reads its numerals back. *)
Lemma integer_host_numerals : @numerals_read_back integer_host.
Proof.
  intros [z p] Hq. change (Pos.eqb p 1 = true) in Hq. apply Pos.eqb_eq in Hq. subst p.
  cbn [NumberToString integer_host integer_NumberToString Number_].
  assert (Hfloor : Qfloor (z # 1) = z) by (cbn; apply Z.div_1_r).
  rewrite Hfloor. exact (decimal_spec z).
Qed.

(** *** Export and import *)

Example parse_text :
  @JSON_parse integer_host "[1, -20, [true, null], {}]"
  = Some (VArr [VNum (of_Z 1); VNum (of_Z (-20)); VArr [VBool true; VNull]; VObj []]).
Proof. reflexivity. Qed.

Example stringify_text :
  @JSON_stringify integer_host (VArr [VNum (of_Z 7); VUndefined; VArr []])
  = Some ("[" ++ String newline "  7," ++ String newline "  null,"
            ++ String newline "  []" ++ String newline "]")%string.
Proof. reflexivity. Qed.




(** ** Further properties of the route *)

(** X1. A request without a user name, or with an empty one, is answered
    400 with the error [username is required], and the handler issues no
    outbound call. *)
Theorem missing_username_refused `{Platform} (net : Network) (req : Request) :
  match searchParams_get "username" (searchParams req) with
  | Some u => str_truthy u = false
  | None => True
  end ->
  fst (GET_trace net req) = []
  /\ GET net req =
     {| response_status := 400; response_body := ErrorBody "username is required" |}.
Proof.
  intros Hu. unfold GET. rewrite (GET_missing_username net req Hu). now split.
Qed.

Lemma missing_username_refused_witness :
  let net := network_of (Rejected "unreachable") (Rejected "unreachable") in
  let req := request_of [("per_page", "10"); ("username", "")] in
  fst (@GET_trace integer_host net req) = []
  /\ response_status (@GET integer_host net req) = 400.
Proof.
  intros net req.
  destruct (@missing_username_refused integer_host net req eq_refl) as [Hc Hr].
  split; [exact Hc | now rewrite Hr].
Defined.

Lemma In_calls_headers `{Platform} (net : Network) (req : Request)
    (call : string * list (string * string)) :
  In call (fst (GET_trace net req)) -> snd call = outbound_headers req.
Proof.
  rewrite GET_calls.
  destruct (searchParams_get "username" (searchParams req)) as [u|]; [|intros []].
  destruct (str_truthy u); [|intros []].
  destruct (include_received req); simpl; intros [<- | [<- | []]] || intros [<- | []];
    reflexivity.
Qed.

(** X2. Every outbound call carries the [User-Agent] and [Accept] headers,
    and carries an [Authorization] header exactly when the request has one
    that starts with [bearer ] in any letter case; the value is then the
    value received, unchanged. *)
Theorem authorization_forwarded `{Platform} (net : Network) (req : Request)
    (call : string * list (string * string)) (x : string) :
  In call (fst (GET_trace net req)) ->
  In ("User-Agent", "v0-github-activity-feed") (snd call)
  /\ In ("Accept", "application/vnd.github+json") (snd call)
  /\ (In ("Authorization", x) (snd call) <->
      request_headers req !! "authorization" = Some x
      /\ starts_with "bearer " (toLowerCase x) = true).
Proof.
  intros Hin. rewrite (In_calls_headers net req call Hin).
  unfold outbound_headers, bearer.
  split; [simpl; tauto|]. split; [simpl; tauto|].
  destruct (request_headers req !! "authorization") as [v|] eqn:Hv.
  - destruct (str_truthy v) eqn:Ht.
    + destruct (starts_with "bearer " (toLowerCase v)) eqn:Hs; cbn [app In].
      * split.
        -- intros [E | [E | [E | []]]]; try discriminate. injection E as <-. now split.
        -- intros [E _]. injection E as E. subst. tauto.
      * split.
        -- intros [E | [E | []]]; discriminate.
        -- intros [E Hx]. injection E as E. subst. congruence.
    + destruct v; [|discriminate]. cbn. split.
      * intros [E | [E | []]]; discriminate.
      * intros [E Hx]. injection E as E. subst. discriminate.
  - cbn. split.
    + intros [E | [E | []]]; discriminate.
    + intros [E _]. discriminate.
Qed.

Lemma authorization_forwarded_witness :
  let req :=
    {| searchParams := [("username", "vercel"); ("includeReceived", "1")];
       request_headers := {[ "authorization" := "BEARER ghp_x" ]} |} in
  let net := network_of (Rejected "") (Rejected "") in
  let call :=
    ("https://api.github.com/users/vercel/received_events?per_page=30",
     [("User-Agent", "v0-github-activity-feed"); ("Accept", "application/vnd.github+json");
      ("Authorization", "BEARER ghp_x")]) in
  In call (fst (@GET_trace integer_host net req))
  /\ In ("Authorization", "BEARER ghp_x") (snd call).
Proof.
  intros req net call.
  assert (Hin : In call (fst (@GET_trace integer_host net req))) by (vm_compute; tauto).
  split; [exact Hin|].
  destruct (@authorization_forwarded integer_host net req call "BEARER ghp_x" Hin)
    as (_ & _ & Hauth).
  apply Hauth. split; reflexivity.
Defined.

(** X3. The call for received events is issued exactly when the query
    parameter [includeReceived] is the text [1]; with any other value, or
    without the parameter, one call is made and the answer depends on that
    call alone. *)
Theorem received_only_when_asked `{Platform} (net : Network) (req : Request) (u : string) :
  searchParams_get "username" (searchParams req) = Some u -> str_truthy u = true ->
  let primary := (userEventsUrl u (Number_ (per_page_param req)), outbound_headers req) in
  let secondary := (receivedUrl u (Number_ (per_page_param req)), outbound_headers req) in
  if bool_decide (searchParams_get "includeReceived" (searchParams req) = Some "1")
  then fst (GET_trace net req) = [primary; secondary]
  else fst (GET_trace net req) = [primary]
       /\ GET net req =
          match fetch net (fst primary) (snd primary) with
          | Rejected message => failed message
          | Fulfilled userRes => respond userRes None
          end.
Proof.
  intros Hu Ht primary secondary.
  rewrite (GET_with_username net req u Hu Ht), GET_calls, Hu, Ht.
  unfold include_received.
  destruct (searchParams_get "includeReceived" (searchParams req)) as [v|].
  - destruct (String.eqb_spec v "1") as [->|Hne].
    + rewrite bool_decide_eq_true_2 by reflexivity. reflexivity.
    + rewrite bool_decide_eq_false_2 by congruence.
      split; [reflexivity|]. simpl.
      now destruct (fetch net (userEventsUrl u (Number_ (per_page_param req)))
                      (outbound_headers req)).
  - rewrite bool_decide_eq_false_2 by congruence.
    split; [reflexivity|]. simpl.
    now destruct (fetch net (userEventsUrl u (Number_ (per_page_param req)))
                    (outbound_headers req)).
Qed.

Lemma received_only_when_asked_witness :
  let net := network_of (Rejected "down") (Rejected "down") in
  List.length (fst (@GET_trace integer_host net
                 (request_of [("username", "vercel"); ("includeReceived", "true")]))) = 1%nat
  /\ List.length (fst (@GET_trace integer_host net
                    (request_of [("username", "vercel"); ("includeReceived", "1")]))) = 2%nat.
Proof.
  intros net. split.
  - pose proof (@received_only_when_asked integer_host net
                  (request_of [("username", "vercel"); ("includeReceived", "true")])
                  "vercel" eq_refl eq_refl) as Hone.
    cbv zeta in Hone. rewrite bool_decide_eq_false_2 in Hone by discriminate.
    destruct Hone as [-> _]. reflexivity.
  - pose proof (@received_only_when_asked integer_host net
                  (request_of [("username", "vercel"); ("includeReceived", "1")])
                  "vercel" eq_refl eq_refl) as Htwo.
    cbv zeta in Htwo. rewrite bool_decide_eq_true_2 in Htwo by reflexivity.
    rewrite Htwo. reflexivity.
Defined.

(** X4. When an outbound call the handler issued rejects, the answer is
    500, and its error is the message of a call that rejected, or [Failed]
    where that message is empty: the events of the other call are not
    returned. *)
Theorem rejected_call_is_500 `{Platform} (net : Network) (req : Request)
    (call : string * list (string * string)) (m : string) :
  In call (fst (GET_trace net req)) ->
  fetch net (fst call) (snd call) = Rejected m ->
  response_status (GET net req) = 500
  /\ exists call' m',
       In call' (fst (GET_trace net req))
       /\ fetch net (fst call') (snd call') = Rejected m'
       /\ response_body (GET net req) =
          ErrorBody (if str_truthy m' then m' else "Failed").
Proof.
  rewrite GET_calls.
  destruct (searchParams_get "username" (searchParams req)) as [u|] eqn:Hu; [|intros []].
  destruct (str_truthy u) eqn:Ht; [|intros []].
  rewrite (GET_with_username net req u Hu Ht).
  set (primary := (userEventsUrl u (Number_ (per_page_param req)), outbound_headers req)).
  set (secondary := (receivedUrl u (Number_ (per_page_param req)), outbound_headers req)).
  change (fetch net (userEventsUrl u (Number_ (per_page_param req))) (outbound_headers req))
    with (fetch net (fst primary) (snd primary)).
  change (fetch net (receivedUrl u (Number_ (per_page_param req))) (outbound_headers req))
    with (fetch net (fst secondary) (snd secondary)).
  destruct (include_received req).
  - intros Hin Hrej.
    destruct (fetch net (fst primary) (snd primary)) as [m1|r1] eqn:H1;
      destruct (fetch net (fst secondary) (snd secondary)) as [m2|r2] eqn:H2; simpl.
    + split; [reflexivity|]. destruct (second_rejects_first net).
      * exists secondary, m2. simpl. tauto.
      * exists primary, m1. simpl. tauto.
    + split; [reflexivity|]. exists primary, m1. simpl. tauto.
    + split; [reflexivity|]. exists secondary, m2. simpl. tauto.
    + destruct Hin as [<- | [<- | []]]; congruence.
  - intros [<- | []] Hrej. rewrite Hrej. simpl.
    split; [reflexivity|]. exists primary, m. simpl. tauto.
Qed.

Lemma rejected_call_is_500_witness :
  let userRes := response_of 200 [] "[]" [] in
  let net := network_of (Fulfilled userRes) (Rejected "") in
  let req := request_of [("username", "vercel"); ("includeReceived", "1")] in
  @GET integer_host net req =
  {| response_status := 500; response_body := ErrorBody "Failed" |}.
Proof.
  intros userRes net req.
  destruct (@rejected_call_is_500 integer_host net req
              ("https://api.github.com/users/vercel/received_events?per_page=30",
               outbound_headers req) ""
              ltac:(vm_compute; tauto) eq_refl) as [Hs _].
  reflexivity.
Defined.

Lemma respond_body_status `{Platform} (userRes : Response)
    (receivedRes : option Response) :
  let answer := respond userRes receivedRes in
  match response_body answer with
  | FeedBody _ _ source => response_status answer = 200 /\ source = "github"
  | ErrorBody _ => (response_status answer <? 200) || (299 <? response_status answer) = true
  end.
Proof.
  unfold respond. destruct (negb (ok userRes)) eqn:Hok.
  - simpl. unfold ok in Hok.
    destruct (200 <=? status userRes) eqn:H1; destruct (status userRes <=? 299) eqn:H2;
      try discriminate; lia.
  - destruct (json userRes); [reflexivity|].
    destruct receivedRes as [r|]; [destruct (ok r); [destruct (json r)|]|];
      simpl; auto.
Qed.

(** X5. The handler answers with a list of events exactly under status 200,
    always with the source tag [github]; an answer that carries an error
    text never has a status from 200 to 299. *)
Theorem feed_only_under_200 `{Platform} (net : Network) (req : Request) :
  match response_body (GET net req) with
  | FeedBody _ _ source => response_status (GET net req) = 200 /\ source = "github"
  | ErrorBody _ =>
      (response_status (GET net req) <? 200) || (299 <? response_status (GET net req)) = true
  end.
Proof.
  unfold GET, GET_trace.
  destruct (searchParams_get "username" (searchParams req)) as [u|]; [|reflexivity].
  destruct (str_truthy u); [|reflexivity]. cbn [negb snd].
  unfold fetchWithSpan.
  destruct (Promise_all _ _ _) as [m | [userRes receivedRes]]; [reflexivity|].
  apply respond_body_status.
Qed.

Lemma respond_feed `{Platform} (userRes : Response) (receivedRes : option Response)
    (events : list NormalizedGithubEvent) (rate : Rate) (source : string) :
  response_body (respond userRes receivedRes) = FeedBody events rate source ->
  ok userRes = true
  /\ rate = rate_of userRes
  /\ exists userEvents receivedEvents,
       json userRes = JsonArray userEvents
       /\ events = normalize_and_sort (merge_events userEvents receivedEvents)
       /\ (receivedEvents = []
           \/ exists r, receivedRes = Some r /\ ok r = true
                        /\ json r = JsonArray receivedEvents).
Proof.
  unfold respond. destruct (ok userRes); simpl; [|discriminate].
  destruct (json userRes) as [m|userEvents]; [discriminate|].
  destruct receivedRes as [r|].
  - destruct (ok r) eqn:Hr.
    + destruct (json r) as [m|receivedEvents] eqn:Hj; [discriminate|].
      simpl. intros [= <- <- <-]. repeat split.
      exists userEvents, receivedEvents. repeat split. right. now exists r.
    + simpl. intros [= <- <- <-]. repeat split.
      exists userEvents, []. repeat split. now left.
  - simpl. intros [= <- <- <-]. repeat split.
    exists userEvents, []. repeat split. now left.
Qed.

Lemma In_filter_Boolean {A : Type} (l : list (option A)) (x : A) :
  In x (filter_Boolean l) <-> In (Some x) l.
Proof.
  induction l as [|[y|] l IH]; simpl; [tauto | | ].
  - rewrite IH. split; intros [E | E]; auto; left; congruence.
  - rewrite IH. split; [tauto | intros [E | E]; [discriminate | exact E]].
Qed.

Lemma normalize_and_sort_perm `{Platform} (merged : list RawEvent) :
  Permutation (normalize_and_sort merged) (List.map normalizeEvent merged).
Proof. unfold normalize_and_sort. apply Array_sort_perm. Qed.

(** X6. In a feed the handler returns, no two events share an identifier,
    every event is the normalization of an entry that a successful outbound
    call of this request returned, and the rate counters are read from the
    answer to the first call. *)
Theorem feed_events_from_upstream `{Platform} (net : Network) (req : Request)
    (events : list NormalizedGithubEvent) (rate : Rate) (source : string) :
  response_body (GET net req) = FeedBody events rate source ->
  List.NoDup (List.map id events)
  /\ (forall e, In e events ->
        exists call r entries raw,
          In call (fst (GET_trace net req))
          /\ fetch net (fst call) (snd call) = Fulfilled r
          /\ ok r = true /\ json r = JsonArray entries
          /\ In (Some raw) entries /\ e = normalizeEvent raw)
  /\ (exists call r rest,
        fst (GET_trace net req) = call :: rest
        /\ fetch net (fst call) (snd call) = Fulfilled r /\ rate = rate_of r).
Proof.
  rewrite GET_calls. unfold GET, GET_trace.
  destruct (searchParams_get "username" (searchParams req)) as [u|]; [|discriminate].
  destruct (str_truthy u); [|discriminate]. cbn [negb snd]. unfold fetchWithSpan.
  set (primary := (userEventsUrl u (Number_ (per_page_param req)), outbound_headers req)).
  set (secondary := (receivedUrl u (Number_ (per_page_param req)), outbound_headers req)).
  change (fetch net (userEventsUrl u (Number_ (per_page_param req))) (outbound_headers req))
    with (fetch net (fst primary) (snd primary)).
  change (fetch net (receivedUrl u (Number_ (per_page_param req))) (outbound_headers req))
    with (fetch net (fst secondary) (snd secondary)).
  intros Hbody.
  assert (exists userRes receivedRes,
             fetch net (fst primary) (snd primary) = Fulfilled userRes
             /\ response_body (respond userRes receivedRes) = FeedBody events rate source
             /\ (forall r, receivedRes = Some r ->
                   include_received req = true
                   /\ fetch net (fst secondary) (snd secondary) = Fulfilled r))
    as (userRes & receivedRes & Hprim & Hresp & Hsec).
  { destruct (fetch net (fst primary) (snd primary)) as [m1|r1];
      destruct (include_received req);
      [destruct (fetch net (fst secondary) (snd secondary)); discriminate
      | discriminate | |].
    - destruct (fetch net (fst secondary) (snd secondary)) as [m2|r2] eqn:H2;
        [discriminate|].
      exists r1, (Some r2). repeat split; [exact Hbody | congruence].
    - exists r1, None. repeat split; [exact Hbody | discriminate | discriminate]. }
  clear Hbody.
  apply respond_feed in Hresp
    as (Hok & -> & userEvents & receivedEvents & Hjson & -> & Hrec).
  split; [|split].
  - rewrite (Permutation_map id (normalize_and_sort_perm _)).
    rewrite List.map_map.
    rewrite (List.map_ext _ raw_id) by (intros a; apply normalizeEvent_fields).
    unfold merge_events. rewrite merged_ids_keys. apply merge_by_id_NoDup.
  - intros e Hin.
    apply (Permutation_in _ (normalize_and_sort_perm _)) in Hin.
    apply List.in_map_iff in Hin as (raw & <- & Hin).
    unfold merge_events in Hin. apply merged_is_last in Hin.
    apply last_with_id_In in Hin as [Hin _].
    apply In_filter_Boolean in Hin. apply List.in_app_or in Hin as [Hin | Hin].
    + exists primary, userRes, userEvents, raw. simpl. tauto.
    + destruct Hrec as [-> | (r & -> & Hr & Hj)]; [destruct Hin|].
      destruct (Hsec r eq_refl) as [Hinc Hf]. rewrite Hinc.
      exists secondary, r, receivedEvents, raw. simpl. tauto.
  - exists primary, userRes. eexists. split; [reflexivity|]. tauto.
Qed.

Lemma feed_events_from_upstream_witness :
  let own := response_of 200 []
               "" [Some (bare_event "1" "WatchEvent" "2024-01-01T00:00:00Z")] in
  let others := response_of 200 []
                  "" [Some (bare_event "2" "ForkEvent" "2024-01-02T00:00:00Z");
                      Some (bare_event "1" "WatchEvent" "2024-01-01T00:00:00Z")] in
  let net := network_of (Fulfilled own) (Fulfilled others) in
  let req := request_of [("username", "vercel"); ("includeReceived", "1")] in
  exists events rate source,
    response_body (@GET integer_host net req) = FeedBody events rate source
    /\ List.map id events = ["2"; "1"]
    /\ List.NoDup (List.map id events).
Proof.
  intros own others net req.
  destruct (response_body (@GET integer_host net req)) as [|events rate source] eqn:Hbody;
    [vm_compute in Hbody; discriminate|].
  exists events, rate, source. split; [reflexivity|]. split.
  - vm_compute in Hbody. now injection Hbody as <- _ _.
  - exact (proj1 (@feed_events_from_upstream integer_host net req events rate source Hbody)).
Defined.

(** ** Further properties of [normalizeEvent] *)

(** X7. An event has [details] exactly when it is a push, one line for each
    commit of the payload; the number the action text of a push shows is
    the number of those lines. *)
Theorem details_only_for_pushes `{Platform} (e : RawEvent) :
  (details (normalizeEvent e) = None <-> raw_type e <> "PushEvent")
  /\ (forall lines, details (normalizeEvent e) = Some lines ->
        List.length lines =
          List.length (match chain (raw_payload e) commits with Val cs => cs | _ => [] end)
        /\ exists before,
             actionText (normalizeEvent e) =
             before ++ NumberToString (of_Z (Z.of_nat (List.length lines))) ++ " 件プッシュ").
Proof.
  unfold normalizeEvent.
  destruct (String.eqb_spec (raw_type e) "PushEvent") as [Hp|Hp].
  - cbn [details actionText]. split.
    + split; [discriminate | congruence].
    + intros lines [= <-]. rewrite List.length_map. split; [reflexivity|].
      exists (login (normalizeActor (raw_actor e)) ++ " が "
                ++ tpl (chain (chain (raw_payload e) ref)
                          (fun r => Val (replace_first "refs/heads/" "" r))) ++ " に ").
      rewrite !append_assoc. reflexivity.
  - repeat match goal with
           | |- context [String.eqb ?a ?b] => destruct (String.eqb a b)
           end; cbn [details]; (split; [tauto | discriminate]).
Qed.



(** X9. The profile link of an actor with a login is
    [https://github.com/<login>] both when the API names the actor by
    [https://api.github.com/users/<login>] and when it gives no address,
    and the login shown is the one received. *)
Theorem actor_profile_link (a : RawActor) (l : string) :
  raw_login a = Val l -> str_truthy l = true ->
  raw_actor_url a = Val ("https://api.github.com/users/" ++ l)
  \/ raw_actor_url a = Undef \/ raw_actor_url a = Null \/ raw_actor_url a = Val "" ->
  login (normalizeActor (Val a)) = l
  /\ actor_url (normalizeActor (Val a)) = Val ("https://github.com/" ++ l).
Proof.
  intros Hl Ht Hu. unfold normalizeActor. cbn [chain login actor_url]. rewrite Hl.
  unfold or_str. rewrite Ht. split; [reflexivity|].
  destruct Hu as [-> | [-> | [-> | ->]]]; reflexivity.
Qed.

Lemma actor_profile_link_witness :
  actor_url (normalizeActor
               (Val {| raw_login := Val "octocat"; raw_avatar_url := Undef;
                       raw_actor_url := Val "https://api.github.com/users/octocat" |}))
  = Val "https://github.com/octocat".
Proof.
  exact (proj2 (actor_profile_link
                  {| raw_login := Val "octocat"; raw_avatar_url := Undef;
                     raw_actor_url := Val "https://api.github.com/users/octocat" |}
                  "octocat" eq_refl eq_refl (or_introl eq_refl))).
Defined.

(** ** The page: what it shows *)

(** X10. The page picks the icon of a GitHub event from its [type], the
    route tags the event with an [icon]: the two agree, since two events
    get the same tag from the route exactly when the page draws them with
    the same component. *)
Theorem icon_tag_matches_component `{Platform} (e1 e2 : RawEvent) :
  icon (normalizeEvent e1) = icon (normalizeEvent e2)
  <-> iconFor (type (normalizeEvent e1)) = iconFor (type (normalizeEvent e2)).
Proof.
  destruct (normalizeEvent_fields e1) as (_ & -> & _).
  destruct (normalizeEvent_fields e2) as (_ & -> & _).
  unfold normalizeEvent, iconFor.
  repeat match goal with
         | |- context [String.eqb (raw_type e1) ?b] => destruct (String.eqb (raw_type e1) b)
         end;
  repeat match goal with
         | |- context [String.eqb (raw_type e2) ?b] => destruct (String.eqb (raw_type e2) b)
         end;
  cbn [icon]; split; intros E; first [reflexivity | discriminate E].
Qed.

(** X11. [timeAgo] by the time elapsed: seconds below a minute (a date in
    the future counts as now), minutes below an hour, hours below a day,
    days below a week, each rounded down from the elapsed milliseconds, and
    the local date from a week on and for a text that is no date. *)
Theorem timeAgo_buckets `{Platform} (toLocaleString : string -> string) (Date_now : Z)
    (iso : string) :
  timeAgo toLocaleString Date_now iso =
  match Date_getTime iso with
  | None => toLocaleString iso
  | Some then_ =>
      let elapsed := Date_now - then_ in
      if elapsed <? 60000
      then NumberToString (of_Z (Z.max 0 elapsed / 1000)) ++ "秒前"
      else if elapsed <? 3600000
      then NumberToString (of_Z (elapsed / 60000)) ++ "分前"
      else if elapsed <? 86400000
      then NumberToString (of_Z (elapsed / 3600000)) ++ "時間前"
      else if elapsed <? 604800000
      then NumberToString (of_Z (elapsed / 86400000)) ++ "日前"
      else toLocaleString iso
  end.
Proof.
  unfold timeAgo. destruct (Date_getTime iso) as [then_|]; [|reflexivity].
  cbv zeta. set (elapsed := Date_now - then_).
  destruct (Z.ltb_spec elapsed 60000) as [Hs|Hs].
  - destruct (Z.ltb_spec (Z.max 0 elapsed / 1000) 60) as [_|Hge]; [reflexivity|].
    exfalso. assert (Z.max 0 elapsed / 1000 < 60)
      by (apply Z.div_lt_upper_bound; lia). lia.
  - rewrite Z.max_r by lia.
    assert (H60 : elapsed / 1000 / 60 = elapsed / 60000)
      by (rewrite Z.div_div by lia; reflexivity).
    assert (H3600 : elapsed / 1000 / 60 / 60 = elapsed / 3600000)
      by (rewrite !Z.div_div by lia; reflexivity).
    assert (H86400 : elapsed / 1000 / 60 / 60 / 24 = elapsed / 86400000)
      by (rewrite !Z.div_div by lia; reflexivity).
    rewrite H86400, H3600, H60.
    destruct (Z.ltb_spec (elapsed / 1000) 60) as [Hlt|_].
    { exfalso. assert (60 <= elapsed / 1000) by (apply Z.div_le_lower_bound; lia). lia. }
    destruct (Z.ltb_spec elapsed 3600000) as [Hm|Hm].
    { destruct (Z.ltb_spec (elapsed / 60000) 60) as [_|Hge]; [reflexivity|].
      exfalso. assert (elapsed / 60000 < 60) by (apply Z.div_lt_upper_bound; lia). lia. }
    destruct (Z.ltb_spec (elapsed / 60000) 60) as [Hlt|_].
    { exfalso. assert (60 <= elapsed / 60000) by (apply Z.div_le_lower_bound; lia). lia. }
    destruct (Z.ltb_spec elapsed 86400000) as [Hh|Hh].
    { destruct (Z.ltb_spec (elapsed / 3600000) 24) as [_|Hge]; [reflexivity|].
      exfalso. assert (elapsed / 3600000 < 24) by (apply Z.div_lt_upper_bound; lia). lia. }
    destruct (Z.ltb_spec (elapsed / 3600000) 24) as [Hlt|_].
    { exfalso. assert (24 <= elapsed / 3600000) by (apply Z.div_le_lower_bound; lia). lia. }
    destruct (Z.ltb_spec elapsed 604800000) as [Hd|Hd].
    { destruct (Z.ltb_spec (elapsed / 86400000) 7) as [_|Hge]; [reflexivity|].
      exfalso. assert (elapsed / 86400000 < 7) by (apply Z.div_lt_upper_bound; lia). lia. }
    destruct (Z.ltb_spec (elapsed / 86400000) 7) as [Hlt|_]; [|reflexivity].
    exfalso. assert (7 <= elapsed / 86400000) by (apply Z.div_le_lower_bound; lia). lia.
Qed.

Lemma contains_char_cons (c d : ascii) (s : string) :
  contains (String c EmptyString) (String d s)
  = (Ascii.eqb c d || contains (String c EmptyString) s)%bool.
Proof.
  cbn [contains starts_with]. destruct (Ascii.eqb c d); [reflexivity|].
  now destruct s.
Qed.

Lemma dash_colons_dots_clean (s : string) :
  contains ":" (dash_colons_dots s) = false /\ contains "." (dash_colons_dots s) = false
  /\ String.length (dash_colons_dots s) = String.length s.
Proof.
  induction s as [|c s (IH1 & IH2 & IH3)]; [now repeat split|].
  cbn [dash_colons_dots String.length]. rewrite !contains_char_cons, IH1, IH2, IH3.
  repeat split.
  - destruct (Ascii.eqb_spec c ":") as [->|Hc]; [reflexivity|]. cbn [orb].
    destruct (Ascii.eqb c "."); [reflexivity|].
    destruct (Ascii.eqb_spec ":" c); [congruence | reflexivity].
  - destruct (Ascii.eqb_spec c ".") as [->|Hc]; [reflexivity|].
    destruct (Ascii.eqb c ":"); [reflexivity|]. cbn [orb].
    destruct (Ascii.eqb_spec "." c); [congruence | reflexivity].
Qed.


Lemma slice0_length (n : nat) (s : string) : (String.length (slice0 n s) <= n)%nat.
Proof.
  revert s. induction n as [|n IH]; intros [|c s]; cbn [slice0 String.length]; try lia.
  specialize (IH s). lia.
Qed.


Lemma or_num_between (lo hi a b : Q) :
  (lo <= a <= hi)%Q -> (lo <= b <= hi)%Q -> (lo <= or_num a b <= hi)%Q.
Proof. intros Ha Hb. unfold or_num. now destruct (Qnum a =? 0)%Z. Qed.

Lemma Math_round_percent (x : Q) : (0 <= x <= 100)%Q -> 0 <= Math_round x <= 100.
Proof.
  intros [Hlo Hhi]. unfold Math_round. split.
  - change 0 with (Qfloor (0 + (1 # 2))). apply Qfloor_resp_le.
    apply Qplus_le_compat; [exact Hlo | apply Qle_refl].
  - change 100 with (Qfloor (100 + (1 # 2))). apply Qfloor_resp_le.
    apply Qplus_le_compat; [exact Hhi | apply Qle_refl].
Qed.



(** ** The page: what capture records *)

Lemma listener_off (s : PageState) (e : MyActivityEvent) :
  tracking s = false -> listener s e = s.
Proof. intros Hoff. unfold listener. now rewrite Hoff. Qed.

Lemma step_off `{Platform} (a : Ambient) (s : PageState) (i : PageInput) :
  tracking s = false -> observed i = true ->
  tracking (step a s i) = false /\ myEvents (step a s i) = myEvents s.
Proof.
  intros Hoff Hobs.
  destruct i; try discriminate; cbn [step];
    rewrite ?listener_off by exact Hoff; try (now split).
  - now rewrite Hoff.
  - cbn [tracking myEvents]. unfold route_effect. rewrite Hoff, Bool.andb_false_r.
    now split.
Qed.

(** X15. While capture is off nothing is recorded: whatever the page
    observes in the browser, clicks, keys, scrolls, visibility changes,
    copies, timer ticks and navigations, the list stays as it was and
    capture stays off. *)
Theorem capture_off_records_nothing `{Platform} (s : PageState)
    (inputs : list (Ambient * PageInput)) :
  tracking s = false ->
  forallb (fun x => observed (snd x)) inputs = true ->
  myEvents (run s inputs) = myEvents s /\ tracking (run s inputs) = false.
Proof.
  revert s. induction inputs as [|[a i] inputs IH]; intros s Hoff Hobs; [now split|].
  cbn [forallb snd] in Hobs. apply andb_prop in Hobs as [Hi Hrest].
  destruct (step_off a s i Hoff Hi) as [Hoff' Hsame].
  cbn [run]. destruct (IH (step a s i) Hoff' Hrest) as [-> ->]. now split.
Qed.

Lemma capture_off_records_nothing_witness :
  let a := {| randomUUID := "u"; now := "2024-01-01T00:00:00.000Z"; location := "/" |} in
  myEvents (@run integer_host (mount [] "/")
              [(a, KeyDown "a"); (a, Scroll (scrolled_to 80)); (a, Copy);
               (a, Navigate "/feed" "tab=local"); (a, HeartbeatTick)]) = [].
Proof.
  intros a.
  exact (proj1 (@capture_off_records_nothing integer_host (mount [] "/")
                  [(a, KeyDown "a"); (a, Scroll (scrolled_to 80)); (a, Copy);
                   (a, Navigate "/feed" "tab=local"); (a, HeartbeatTick)]
                  eq_refl eq_refl)).
Defined.

Lemma step_routes `{Platform} (a : Ambient) (s : PageState) (i : PageInput) :
  prevRoute s = route s -> prevRoute (step a s i) = route (step a s i).
Proof.
  intros Hs. destruct i; cbn [step]; unfold listener;
    repeat match goal with
           | |- context [if ?b then _ else _] => destruct b
           | |- context [let '(_, _) := ?p in _] => destruct p
           end; cbn [prevRoute route]; auto.
Qed.

Lemma run_routes `{Platform} (s : PageState) (inputs : list (Ambient * PageInput)) :
  prevRoute s = route s -> prevRoute (run s inputs) = route (run s inputs).
Proof.
  revert s. induction inputs as [|[a i] inputs IH]; intros s Hs; [exact Hs|].
  cbn [run]. apply IH, step_routes, Hs.
Qed.

(** X16. Switching capture on records a route change although the route
    has not changed: on a page that has been rendered, whatever happened
    since, the first event of a new capture session is a [route-change]
    from the current route to itself, put in front of the list. *)
Theorem capture_on_records_current_route `{Platform} (stored : list MyActivityEvent)
    (full : string) (inputs : list (Ambient * PageInput)) (a : Ambient) :
  let s := run (mount stored full) inputs in
  tracking s = false -> str_truthy (route s) = true ->
  myEvents (step a s (SetTracking true))
  = route_change_event a (route s) (route s) :: myEvents s.
Proof.
  intros s Hoff Hroute.
  assert (Hprev : prevRoute s = route s) by (apply run_routes; reflexivity).
  cbn [step]. rewrite Hoff. cbn [Bool.eqb myEvents]. unfold route_effect.
  rewrite Hprev, Hroute. reflexivity.
Qed.

Lemma capture_on_records_current_route_witness :
  let a := {| randomUUID := "u"; now := "2024-01-01T00:00:00.000Z"; location := "/" |} in
  List.map Activity.label
    (myEvents (@step integer_host a (@run integer_host (mount [] "/") [(a, Copy)])
                 (SetTracking true)))
  = ["/ → /"].
Proof.
  intros a.
  rewrite (@capture_on_records_current_route integer_host [] "/" [(a, Copy)] a
             eq_refl eq_refl).
  reflexivity.
Defined.

Section MostRecentFirst.
Context `{Platform}.

#[local] Abbreviation later := (fun a b : string => time_ge a b = true).

Lemma time_ge_trans (a b c : string) :
  time_ge a b = true -> time_ge b c = true -> time_ge a c = true.
Proof.
  unfold time_ge.
  destruct (Date_getTime a), (Date_getTime b), (Date_getTime c); try discriminate.
  intros Hab Hbc. apply Z.leb_le in Hab, Hbc. apply Z.leb_le. lia.
Qed.

Lemma non_increasing_cons (a : string) (l : list string) :
  non_increasing (a :: l) = true ->
  non_increasing l = true /\ List.Forall (later a) l.
Proof.
  revert a. induction l as [|b l IH]; intros a Hs; [split; [reflexivity | constructor]|].
  cbn [non_increasing] in Hs. apply andb_prop in Hs as [Hab Hl].
  split; [exact Hl|]. constructor; [exact Hab|].
  destruct (IH b Hl) as [_ Hb].
  eapply List.Forall_impl; [|exact Hb]. intros c Hbc. now apply (time_ge_trans a b c).
Qed.

Lemma non_increasing_intro (a : string) (l : list string) :
  non_increasing l = true -> List.Forall (later a) l -> non_increasing (a :: l) = true.
Proof.
  intros Hl Ha. destruct l as [|b l]; [reflexivity|].
  cbn [non_increasing]. inversion Ha; subst. now apply andb_true_intro.
Qed.

Lemma Forall_sublist {A : Type} (P : A -> Prop) (l1 l2 : list A) :
  sublist l1 l2 -> List.Forall P l2 -> List.Forall P l1.
Proof.
  induction 1 as [|x l1 l2 _ IH|x l1 l2 _ IH]; intros Hall;
    [constructor | | ]; inversion Hall; subst; [constructor|]; auto.
Qed.

Lemma non_increasing_sublist (l1 l2 : list string) :
  sublist l1 l2 -> non_increasing l2 = true -> non_increasing l1 = true.
Proof.
  induction 1 as [|x l1 l2 Hsub IH|x l1 l2 Hsub IH]; intros Hs; [reflexivity | | ].
  - apply non_increasing_cons in Hs as [Hl Hx].
    apply non_increasing_intro; [now apply IH|].
    now apply (Forall_sublist _ _ _ Hsub).
  - apply non_increasing_cons in Hs as [Hl _]. now apply IH.
Qed.

Lemma sublist_firstn {A : Type} (n : nat) (l : list A) : sublist (firstn n l) l.
Proof.
  revert n. induction l as [|x l IH]; intros [|n]; cbn [firstn];
    [constructor | constructor | apply sublist_nil_l | now apply sublist_skip].
Qed.

Lemma sublist_map {A B : Type} (f : A -> B) (l1 l2 : list A) :
  sublist l1 l2 -> sublist (List.map f l1) (List.map f l2).
Proof.
  induction 1; cbn [List.map]; [constructor | now apply sublist_skip | now apply sublist_cons].
Qed.

Lemma add_created (e : MyActivityEvent) (prev : list MyActivityEvent) :
  sublist (List.map Activity.created_at (add e prev))
    (Activity.created_at e :: List.map Activity.created_at prev).
Proof.
  unfold add. change (Activity.created_at e :: List.map Activity.created_at prev)
    with (List.map Activity.created_at (e :: prev)).
  apply sublist_map, sublist_firstn.
Qed.

Lemma step_created (a : Ambient) (s : PageState) (i : PageInput) :
  sublist (List.map Activity.created_at (myEvents (step a s i)))
    (now a :: List.map Activity.created_at (myEvents s)).
Proof.
  assert (Hkeep : sublist (List.map Activity.created_at (myEvents s))
                    (now a :: List.map Activity.created_at (myEvents s)))
    by (apply sublist_cons; reflexivity).
  assert (Hlistener : forall e, Activity.created_at e = now a ->
            sublist (List.map Activity.created_at (myEvents (listener s e)))
              (now a :: List.map Activity.created_at (myEvents s))).
  { intros e He. unfold listener. destruct (tracking s); [|exact Hkeep].
    cbn [myEvents]. rewrite <- He. apply add_created. }
  assert (Hroute : forall t full,
            sublist (List.map Activity.created_at
                       (route_effect a t full (prevRoute s) (myEvents s)))
              (now a :: List.map Activity.created_at (myEvents s))).
  { intros t full. unfold route_effect.
    destruct (str_truthy (prevRoute s) && t)%bool; [reflexivity | exact Hkeep]. }
  destruct i; cbn [step]; try (apply Hlistener; reflexivity).
  - destruct (Bool.eqb checked (tracking s)); [exact Hkeep | apply Hroute].
  - destruct (tracking s); [|exact Hkeep]. unfold onScroll.
    destruct (maxScroll s <? scroll_depth w); [|exact Hkeep].
    cbn [myEvents]. apply (add_created (scroll_event a (scroll_depth w))).
  - apply Hroute.
  - cbn [myEvents List.map]. apply sublist_nil_l.
Qed.

(** X17. The local list is kept most recent first.  Every recorded event
    carries the time of the moment it is recorded and goes to the front,
    so when the clock does not run backwards and the list the page starts
    from is in order and not ahead of the clock, the list is non-increasing
    in time after any sequence of inputs, switching capture, clearing and
    the cap included. *)
Theorem local_list_most_recent_first (s : PageState)
    (inputs : list (Ambient * PageInput)) :
  non_increasing
    (List.rev (clock inputs) ++ List.map Activity.created_at (myEvents s))%list = true ->
  non_increasing (List.map Activity.created_at (myEvents (run s inputs))) = true.
Proof.
  apply non_increasing_sublist.
  revert s. induction inputs as [|[a i] inputs IH]; intros s; [reflexivity|].
  cbn [run clock List.map List.rev fst]. rewrite <- List.app_assoc. cbn [app].
  etransitivity; [apply IH|]. apply sublist_app; [reflexivity | apply step_created].
Qed.

End MostRecentFirst.

Lemma local_list_most_recent_first_witness :
  let at_ t := {| randomUUID := "u"; now := t; location := "/" |} in
  List.map Activity.created_at
    (myEvents (@run integer_host (mount [] "/")
                 [(at_ "2024-01-01T00:00:00.000Z", SetTracking true);
                  (at_ "2024-01-01T00:00:01.000Z", KeyDown "a");
                  (at_ "2024-01-01T00:00:01.000Z", Copy);
                  (at_ "2024-01-01T00:00:05.000Z", Scroll (scrolled_to 10))]))
  = ["2024-01-01T00:00:05.000Z"; "2024-01-01T00:00:01.000Z";
     "2024-01-01T00:00:01.000Z"; "2024-01-01T00:00:00.000Z"]
  /\ @non_increasing integer_host
       (List.map Activity.created_at
          (myEvents (@run integer_host (mount [] "/")
                       [(at_ "2024-01-01T00:00:00.000Z", SetTracking true);
                        (at_ "2024-01-01T00:00:01.000Z", KeyDown "a");
                        (at_ "2024-01-01T00:00:01.000Z", Copy);
                        (at_ "2024-01-01T00:00:05.000Z", Scroll (scrolled_to 10))])))
     = true.
Proof.
  intros at_. split; [reflexivity|].
  apply (@local_list_most_recent_first integer_host). reflexivity.
Defined.

(** ** The page: the unified view *)

Section SameInstant.
Context `{Platform} {A : Type} (key : A -> string).

Lemma sort_insert_same_instant (t : Z) (x : A) (l : list A) :
  List.filter (fun i => time_is t (key i))
    (sort_insert (fun a b => by_created_at_desc (key a) (key b)) x l)
  = List.filter (fun i => time_is t (key i)) (x :: l).
Proof.
  induction l as [|y l IH]; [reflexivity|].
  cbn [sort_insert].
  destruct (is_positive (by_created_at_desc (key x) (key y))) eqn:Hp; [|reflexivity].
  cbn [List.filter] in *. rewrite IH.
  unfold is_positive, by_created_at_desc in Hp. unfold time_is.
  destruct (Date_getTime (key y)) as [ty|]; [|discriminate].
  destruct (Date_getTime (key x)) as [tx|]; [|discriminate].
  apply Z.ltb_lt in Hp.
  destruct (Z.eqb_spec tx t), (Z.eqb_spec ty t); try reflexivity. lia.
Qed.

Lemma Array_sort_same_instant (t : Z) (l : list A) :
  List.filter (fun i => time_is t (key i))
    (Array_sort (fun a b => by_created_at_desc (key a) (key b)) l)
  = List.filter (fun i => time_is t (key i)) l.
Proof.
  induction l as [|x l IH]; [reflexivity|].
  unfold Array_sort in *. cbn [List.fold_right].
  rewrite sort_insert_same_instant. cbn [List.filter]. now rewrite IH.
Qed.

End SameInstant.


(** ** The request of the page, as the route reads it *)

Lemma string_forall_app (p : ascii -> bool) (a b : string) :
  string_forall p (a ++ b) = (string_forall p a && string_forall p b)%bool.
Proof.
  induction a as [|c a IH]; [reflexivity|].
  cbn [String.append string_forall]. rewrite IH. apply Bool.andb_assoc.
Qed.

Lemma string_forall_impl (p q : ascii -> bool) (s : string) :
  (forall c, p c = true -> q c = true) ->
  string_forall p s = true -> string_forall q s = true.
Proof.
  intros Hpq. induction s as [|c s IH]; [reflexivity|].
  cbn [string_forall]. intros Hs. apply andb_prop in Hs as [Hc Hs].
  now rewrite (Hpq c Hc), IH.
Qed.

Lemma encodeURIComponent_cons (c : ascii) (s : string) :
  encodeURIComponent (String c s)
  = encodeURIComponent (String c EmptyString) ++ encodeURIComponent s.
Proof. cbn [encodeURIComponent]. now destruct (uri_unreserved c). Qed.

Lemma encoded_char_alphabet (c : ascii) :
  string_forall uri_component_char (encodeURIComponent (String c EmptyString)) = true.
Proof. destruct c as [[] [] [] [] [] [] [] []]; reflexivity. Qed.

Lemma encoded_alphabet (s : string) :
  string_forall uri_component_char (encodeURIComponent s) = true.
Proof.
  induction s as [|c s IH]; [reflexivity|].
  now rewrite encodeURIComponent_cons, string_forall_app, encoded_char_alphabet, IH.
Qed.

Lemma percent_decode_encoded_char (c : ascii) (rest : string) :
  percent_decode (encodeURIComponent (String c EmptyString) ++ rest)
  = String c (percent_decode rest).
Proof. destruct c as [[] [] [] [] [] [] [] []]; reflexivity. Qed.

Lemma percent_decode_encoded (s : string) :
  percent_decode (encodeURIComponent s) = s.
Proof.
  induction s as [|c s IH]; [reflexivity|].
  now rewrite encodeURIComponent_cons, percent_decode_encoded_char, IH.
Qed.

Lemma component_char_free (d : ascii) (s : string) :
  uri_component_char d = false ->
  string_forall uri_component_char s = true -> free_of d s = true.
Proof.
  intros Hd. apply string_forall_impl. intros c Hc.
  destruct (Ascii.eqb_spec c d) as [->|]; [congruence | reflexivity].
Qed.

(** X19. In the address of each outbound call the user name is one path
    segment: what stands between [/users/] and the rest holds unreserved
    characters and [%HH] escapes alone, so no name can add a path segment,
    a query parameter or a fragment to the address; and decoding the
    segment gives the name back, byte for byte. *)
Theorem encoded_name_is_one_segment `{Platform} (name : string) (perPage : JsNumber) :
  exists segment,
    userEventsUrl name perPage
    = "https://api.github.com/users/" ++ segment
        ++ "/events/public?per_page=" ++ NumberToString perPage
    /\ receivedUrl name perPage
       = "https://api.github.com/users/" ++ segment
           ++ "/received_events?per_page=" ++ NumberToString perPage
    /\ string_forall uri_component_char segment = true
    /\ free_of "/" segment = true /\ free_of "?" segment = true
    /\ free_of "#" segment = true /\ free_of "&" segment = true
    /\ free_of "=" segment = true
    /\ percent_decode segment = name.
Proof.
  exists (encodeURIComponent name).
  pose proof (encoded_alphabet name) as Ha.
  repeat split; try exact Ha; try (apply component_char_free; [reflexivity | exact Ha]).
  apply percent_decode_encoded.
Qed.

Lemma cut_at_free (sep : ascii) (s : string) :
  free_of sep s = true -> cut_at sep s = (s, None).
Proof.
  unfold free_of. induction s as [|c s IH]; [reflexivity|].
  cbn [string_forall cut_at]. intros Hs. apply andb_prop in Hs as [Hc Hs].
  apply Bool.negb_true_iff in Hc. now rewrite Hc, (IH Hs).
Qed.

Lemma cut_at_app (sep : ascii) (a b : string) :
  free_of sep a = true -> cut_at sep (a ++ String sep b) = (a, Some b).
Proof.
  unfold free_of. induction a as [|c a IH].
  - intros _. cbn [String.append cut_at]. now rewrite Ascii.eqb_refl.
  - cbn [string_forall String.append cut_at]. intros Hs.
    apply andb_prop in Hs as [Hc Hs].
    apply Bool.negb_true_iff in Hc. now rewrite Hc, (IH Hs).
Qed.

Lemma split_on_free (sep : ascii) (s : string) :
  free_of sep s = true -> split_on sep s = [s].
Proof.
  unfold free_of. induction s as [|c s IH]; [reflexivity|].
  cbn [string_forall split_on]. intros Hs. apply andb_prop in Hs as [Hc Hs].
  apply Bool.negb_true_iff in Hc. now rewrite Hc, (IH Hs).
Qed.

Lemma split_on_app (sep : ascii) (a b : string) :
  free_of sep a = true -> split_on sep (a ++ String sep b) = a :: split_on sep b.
Proof.
  unfold free_of. induction a as [|c a IH].
  - intros _. cbn [String.append split_on]. now rewrite Ascii.eqb_refl.
  - cbn [string_forall String.append split_on]. intros Hs.
    apply andb_prop in Hs as [Hc Hs].
    apply Bool.negb_true_iff in Hc. now rewrite Hc, (IH Hs).
Qed.

Lemma free_of_app (d : ascii) (a b : string) :
  free_of d (a ++ b) = (free_of d a && free_of d b)%bool.
Proof. apply string_forall_app. Qed.

Lemma digits_and_dots_free (d : ascii) (s : string) :
  (is_digit d || Ascii.eqb d ".")%bool = false ->
  digits_and_dots s = true -> free_of d s = true.
Proof.
  intros Hd. apply string_forall_impl. intros c Hc.
  destruct (Ascii.eqb_spec c d) as [->|]; [congruence | reflexivity].
Qed.

Lemma percent_decode_digits (s : string) :
  digits_and_dots s = true -> percent_decode s = s.
Proof.
  unfold digits_and_dots. induction s as [|c s IH]; [reflexivity|].
  cbn [string_forall]. intros Hs. apply andb_prop in Hs as [Hc Hs].
  cbn [percent_decode].
  destruct (Ascii.eqb_spec c "%") as [->|_]; [discriminate|].
  destruct (Ascii.eqb_spec c "+") as [->|_]; [discriminate|].
  now rewrite (IH Hs).
Qed.

Lemma trim_truthy (s : string) : str_truthy (trim s) = true -> str_truthy s = true.
Proof. now destruct s. Qed.

Lemma feed_url_query (name flag num : string) :
  (forall d, uri_component_char d = false -> free_of d name = true) ->
  (forall d, (is_digit d || Ascii.eqb d ".")%bool = false -> free_of d flag = true) ->
  (forall d, (is_digit d || Ascii.eqb d ".")%bool = false -> free_of d num = true) ->
  url_searchParams
    ("/api/github-feed?username=" ++ name ++ "&includeReceived=" ++ flag
       ++ "&per_page=" ++ num)
  = [(percent_decode "username", percent_decode name);
     (percent_decode "includeReceived", percent_decode flag);
     (percent_decode "per_page", percent_decode num)].
Proof.
  intros Hname Hflag Hnum.
  set (q := "username=" ++ name ++ "&includeReceived=" ++ flag ++ "&per_page=" ++ num).
  change ("/api/github-feed?username=" ++ name ++ "&includeReceived=" ++ flag
            ++ "&per_page=" ++ num)
    with ("/api/github-feed" ++ String "?" q).
  assert (Hq : free_of "#" q = true).
  { unfold q. rewrite !free_of_app, (Hname "#"%char), (Hflag "#"%char), (Hnum "#"%char);
      reflexivity. }
  unfold url_searchParams.
  rewrite (cut_at_free "#" ("/api/github-feed" ++ String "?" q)).
  2:{ rewrite free_of_app. change (free_of "#" (String "?" q)) with (free_of "#" q).
      now rewrite Hq. }
  cbn [fst]. rewrite (cut_at_app "?" "/api/github-feed" q) by reflexivity.
  cbn [snd]. unfold parse_query, q.
  replace ("username=" ++ name ++ "&includeReceived=" ++ flag ++ "&per_page=" ++ num)
    with (("username=" ++ name)
            ++ String "&" (("includeReceived=" ++ flag) ++ String "&" ("per_page=" ++ num)))
    by (rewrite !append_assoc; reflexivity).
  rewrite (split_on_app "&" ("username=" ++ name))
    by (rewrite free_of_app, (Hname "&"%char); reflexivity).
  rewrite (split_on_app "&" ("includeReceived=" ++ flag))
    by (rewrite free_of_app, (Hflag "&"%char); reflexivity).
  rewrite (split_on_free "&" ("per_page=" ++ num))
    by (rewrite free_of_app, (Hnum "&"%char); reflexivity).
  change (List.filter str_truthy
            ["username=" ++ name; "includeReceived=" ++ flag; "per_page=" ++ num])
    with ["username" ++ String "=" name; "includeReceived" ++ String "=" flag;
          "per_page" ++ String "=" num].
  cbn [List.map].
  rewrite (cut_at_app "=" "username" name), (cut_at_app "=" "includeReceived" flag),
    (cut_at_app "=" "per_page" num) by reflexivity.
  reflexivity.
Qed.

Lemma fetchGithub_query `{Platform} (f : Form) (url : string)
    (hs : list (string * string)) :
  fetchGithub f = Some (url, hs) ->
  plain_numeral (NumberToString (perPage f)) = true ->
  str_truthy (username f) = true
  /\ url_searchParams url =
     [("username", username f);
      ("includeReceived", if includeReceived f then "1" else "0");
      ("per_page", NumberToString (perPage f))].
Proof.
  unfold fetchGithub. destruct (githubSchema f) eqn:Hschema; [|discriminate].
  intros Hsent Hplain. apply andb_prop in Hplain as [_ Hplain].
  assert (Hurl : url = "/api/github-feed?username=" ++ encodeURIComponent (username f)
                         ++ "&includeReceived=" ++ (if includeReceived f then "1" else "0")
                         ++ "&per_page=" ++ NumberToString (perPage f))
    by congruence.
  rewrite Hurl. clear Hsent Hurl. split.
  { unfold githubSchema in Hschema. apply andb_prop in Hschema as [Hschema _].
    apply andb_prop in Hschema as [Hname _]. now apply trim_truthy. }
  rewrite feed_url_query.
  - rewrite percent_decode_encoded, (percent_decode_digits _ Hplain).
    now destruct (includeReceived f).
  - intros d Hd. apply component_char_free; [exact Hd | apply encoded_alphabet].
  - intros d Hd. apply digits_and_dots_free; [exact Hd|]. now destruct (includeReceived f).
  - intros d Hd. now apply digits_and_dots_free.
Qed.

(** X20. A request the page sends reaches the route as the form has it:
    the query of the address [fetchGithub] builds reads back as the user
    name exactly as typed, without trimming and whatever its characters,
    the received flag as [1] or [0], and the page size; so the route takes
    the request and calls GitHub for that user name and that page size,
    with the received events exactly when the form asks for them. *)
Theorem page_request_reaches_route `{Platform} (f : Form) (url : string)
    (hs : list (string * string)) (net : Network) (received : gmap string string) :
  fetchGithub f = Some (url, hs) ->
  plain_numeral (NumberToString (perPage f)) = true ->
  let req := {| searchParams := url_searchParams url; request_headers := received |} in
  let size := Number_ (NumberToString (perPage f)) in
  searchParams req =
    [("username", username f);
     ("includeReceived", if includeReceived f then "1" else "0");
     ("per_page", NumberToString (perPage f))]
  /\ fst (GET_trace net req) =
     (userEventsUrl (username f) size, outbound_headers req)
     :: (if includeReceived f
         then [(receivedUrl (username f) size, outbound_headers req)] else []).
Proof.
  intros Hsent Hplain req size.
  destruct (fetchGithub_query f url hs Hsent Hplain) as [Hname Hquery].
  apply andb_prop in Hplain as [Hnum _].
  split; [exact Hquery|].
  rewrite GET_calls. unfold include_received, per_page_param.
  cbn [searchParams req]. rewrite Hquery.
  cbn [searchParams_get String.eqb Ascii.eqb Bool.eqb]. rewrite Hname, Hnum.
  now destruct (includeReceived f).
Qed.

Lemma page_request_reaches_route_witness :
  let f := {| username := " a/b&c "; token := ""; includeReceived := false;
              perPage := of_Z 100 |} in
  let url := "/api/github-feed?username=%20a%2Fb%26c%20&includeReceived=0&per_page=100" in
  @fetchGithub integer_host f = Some (url, [])
  /\ searchParams {| searchParams := url_searchParams url; request_headers := ∅ |} =
     [("username", username f);
      ("includeReceived", if includeReceived f then "1" else "0");
      ("per_page", @NumberToString integer_host (perPage f))]
  /\ @NumberToString integer_host (perPage f) = "100".
Proof.
  intros f url.
  assert (Hsent : @fetchGithub integer_host f = Some (url, []))
    by (vm_compute; reflexivity).
  assert (Hplain : plain_numeral (@NumberToString integer_host (perPage f)) = true)
    by (vm_compute; reflexivity).
  split; [exact Hsent|]. split; [|vm_compute; reflexivity].
  exact (proj1 (@page_request_reaches_route integer_host f url []
                  (network_of (Rejected "") (Rejected "")) ∅ Hsent Hplain)).
Defined.

(** ** What the page shows when the route refuses *)

Lemma error_body_text_json `{Platform} (error : string) :
  error_body_text error = "{" ++ quote_string "error" ++ ":" ++ quote_string error ++ "}".
Proof.
  unfold error_body_text. cbn [stringify_flat join]. now rewrite !append_assoc.
Qed.

(** X21. When the route answers with an error, the page shows the JSON
    text of the answer as it is, braces and quotes included, not the
    message inside it: the text is the whole body of the reply, which is
    never empty, so neither of the fallback texts of [fetchGithub] is ever
    shown for an answer of the route. *)
Theorem route_error_shown_as_json `{Platform} (net : Network) (req : Request)
    (message : string) :
  response_body (GET net req) = ErrorBody message ->
  fetchGithub_error (response_status (GET net req)) (error_body_text message)
  = Some ("{" ++ quote_string "error" ++ ":" ++ quote_string message ++ "}").
Proof.
  intros Hbody.
  assert (Hstatus : (response_status (GET net req) <? 200)
                    || (299 <? response_status (GET net req)) = true).
  { revert Hbody. unfold GET, GET_trace.
    destruct (searchParams_get "username" (searchParams req)) as [u|]; [|reflexivity].
    destruct (str_truthy u); [|reflexivity]. cbn [negb snd]. unfold fetchWithSpan.
    destruct (Promise_all _ _ _) as [m | [userRes receivedRes]]; [reflexivity|].
    intros Hbody. pose proof (respond_body_status userRes receivedRes) as Hr.
    cbv zeta in Hr. now rewrite Hbody in Hr. }
  unfold fetchGithub_error.
  assert (Hok : (200 <=? response_status (GET net req))
                && (response_status (GET net req) <=? 299) = false).
  { apply orb_prop in Hstatus as [Hlo | Hhi].
    - apply Z.ltb_lt in Hlo. apply Bool.andb_false_iff. left. apply Z.leb_gt. lia.
    - apply Z.ltb_lt in Hhi. apply Bool.andb_false_iff. right. apply Z.leb_gt. lia. }
  rewrite Hok, error_body_text_json. reflexivity.
Qed.

Lemma route_error_shown_as_json_witness :
  @fetchGithub_error integer_host
    (response_status (@GET integer_host (network_of (Rejected "") (Rejected ""))
                        (request_of [])))
    (@error_body_text integer_host "username is required")
  = Some ("{" ++ quote_string "error" ++ ":" ++ quote_string "username is required" ++ "}").
Proof.
  exact (@route_error_shown_as_json integer_host (network_of (Rejected "") (Rejected ""))
           (request_of []) "username is required" eq_refl).
Defined.

(** X22. A token typed into the page reaches GitHub: when the headers of
    the request arrive at the route as the page sent them, every outbound
    call carries [Authorization: Bearer <token>] for a token that is not
    empty, and no [Authorization] header at all for an empty one. *)
Theorem page_token_reaches_github `{Platform} (f : Form) (url : string)
    (hs : list (string * string)) (net : Network)
    (call : string * list (string * string)) (x : string) :
  fetchGithub f = Some (url, hs) ->
  let req := {| searchParams := url_searchParams url;
                request_headers := inbound_headers hs |} in
  In call (fst (GET_trace net req)) ->
  In ("Authorization", x) (snd call)
  <-> str_truthy (token f) = true /\ x = "Bearer " ++ token f.
Proof.
  intros Hsent req Hin. rewrite (In_calls_headers net req call Hin). clear Hin.
  assert (Hhs : hs = if str_truthy (token f)
                     then [("Authorization", "Bearer " ++ token f)] else []).
  { unfold fetchGithub in Hsent. destruct (githubSchema f); congruence. }
  unfold outbound_headers, bearer, req. cbn [request_headers]. rewrite Hhs.
  destruct (str_truthy (token f)) eqn:Ht.
  - unfold inbound_headers. cbn [List.map toLowerCase fst snd list_to_map foldr].
    change (String (lower_char "A") (String (lower_char "u") (String (lower_char "t")
              (String (lower_char "h") (String (lower_char "o") (String (lower_char "r")
              (String (lower_char "i") (String (lower_char "z") (String (lower_char "a")
              (String (lower_char "t") (String (lower_char "i") (String (lower_char "o")
              (String (lower_char "n") "")))))))))))))
      with "authorization".
    rewrite lookup_insert_eq.
    change (str_truthy ("Bearer " ++ token f)) with true. cbv iota.
    change (starts_with "bearer " (toLowerCase ("Bearer " ++ token f))) with true.
    cbv iota. cbn [app In]. split.
    + intros [E | [E | [E | []]]]; try discriminate. injection E as <-. now split.
    + intros [_ ->]. tauto.
  - unfold inbound_headers. cbn [List.map list_to_map foldr].
    rewrite lookup_empty. cbn. split.
    + intros [E | [E | []]]; discriminate.
    + intros [E _]. discriminate.
Qed.

Lemma page_token_reaches_github_witness :
  let f := {| username := "vercel"; token := "ghp_x"; includeReceived := false;
              perPage := of_Z 30 |} in
  let url := "/api/github-feed?username=vercel&includeReceived=0&per_page=30" in
  let hs := [("Authorization", "Bearer ghp_x")] in
  let net := network_of (Rejected "") (Rejected "") in
  let req := {| searchParams := url_searchParams url;
                request_headers := inbound_headers hs |} in
  let call := ("https://api.github.com/users/vercel/events/public?per_page=30",
               [("User-Agent", "v0-github-activity-feed");
                ("Accept", "application/vnd.github+json");
                ("Authorization", "Bearer ghp_x")]) in
  In call (fst (@GET_trace integer_host net req))
  /\ In ("Authorization", "Bearer ghp_x") (snd call).
Proof.
  intros f url hs net req call.
  assert (Hsent : @fetchGithub integer_host f = Some (url, hs))
    by (vm_compute; reflexivity).
  assert (Hin : In call (fst (@GET_trace integer_host net req)))
    by (vm_compute; tauto).
  split; [exact Hin|].
  apply (proj2 (@page_token_reaches_github integer_host f url hs net call
                  "Bearer ghp_x" Hsent Hin)).
  split; reflexivity.
Defined.

(** ** The stored copy of the local list *)

Section FlatRoundtrip.
Context `{Platform}.
Hypothesis numerals : numerals_read_back.

Lemma stringify_flat_items (items : list JsVal) :
  stringify_flat (VArr items)
  = Some ("[" ++ join "," (List.map text_flat items) ++ "]").
Proof.
  cbn [stringify_flat]. do 3 f_equal.
Qed.

Lemma stringify_flat_props (props : list (string * JsVal)) :
  List.Forall (fun kv => json_exact (snd kv) = true) props ->
  stringify_flat (VObj props)
  = Some ("{" ++ join ","
                   (List.map (fun kv => quote_string (fst kv) ++ ":" ++ text_flat (snd kv))
                      props)
              ++ "}").
Proof.
  intros Hx. cbn [stringify_flat].
  match goal with
  | |- Some (_ ++ join _ ?a ++ _) = _ =>
      replace a with (List.map (fun kv => quote_string (fst kv) ++ ":"
                                            ++ text_flat (snd kv)) props);
        [reflexivity|]
  end.
  induction Hx as [|[k x] l Hk Hl IH]; [reflexivity|]. cbn [List.map fst snd] in *.
  rewrite IH. unfold text_flat.
  destruct x; try discriminate; reflexivity.
Qed.

Lemma flat_start (v : JsVal) :
  json_exact v = true ->
  exists c t, text_flat v = String c t /\ value_start c = true.
Proof.
  destruct v as [ | | b | n | s | items | props]; try discriminate; intros Hx.
  - now exists "n"%char, "ull".
  - destruct b; [now exists "t"%char, "rue" | now exists "f"%char, "alse"].
  - destruct n as [ | | q]; try discriminate. simpl in Hx.
    destruct (numerals q Hx) as [Hj _].
    apply json_number_chars in Hj as (_ & c & t & Ht & Hc).
    exists c, t. unfold text_flat. cbn [stringify_flat]. split; [exact Ht|].
    unfold value_start. apply orb_prop in Hc as [-> | ->]; now rewrite ?orb_true_r.
  - unfold text_flat. cbn [stringify_flat]. unfold quote_string. now eexists _, _.
  - unfold text_flat. rewrite stringify_flat_items. now eexists _, _.
  - apply json_exact_props in Hx as [_ Hx].
    unfold text_flat. rewrite (stringify_flat_props _ Hx). now eexists _, _.
Qed.

Lemma parse_elements_flat (items : list JsVal) :
  items <> [] ->
  List.Forall
    (fun x =>
       forall rest fuel,
         ends_numeral rest = true ->
         (String.length (text_flat x) < fuel)%nat ->
         parse_value fuel (text_flat x ++ rest) = Some (x, rest)) items ->
  forall rest fuel,
    (String.length (join "," (List.map text_flat items)) + 1 < fuel)%nat ->
    parse_elements fuel (join "," (List.map text_flat items) ++ String "]" rest)
    = Some (items, rest).
Proof.
  intros Hne Hall.
  induction Hall as [|x l Hx Hl IH]; [congruence|]. clear Hne.
  intros rest fuel Hfuel. destruct fuel as [|f]; [lia|].
  rewrite parse_elements_unfold. destruct l as [|y l].
  - cbn [List.map join] in *.
    rewrite (Hx (String "]" rest) f eq_refl) by lia.
    reflexivity.
  - cbn [List.map] in *. rewrite join_cons2 in *.
    rewrite !length_append in Hfuel. cbn [String.length] in Hfuel.
    rewrite !append_assoc.
    match goal with
    | |- context [parse_value f (text_flat x ++ ?R)] =>
        rewrite (Hx R f eq_refl) by lia
    end.
    change ("," ++ ?X)%string with (String "," X).
    cbn [skip_space]. change (is_json_space ",") with false. cbv iota.
    change (Ascii.eqb "," ",") with true. cbv iota.
    rewrite IH; [reflexivity | discriminate | ].
    cbn [List.map]. lia.
Qed.

Lemma parse_members_flat (props : list (string * JsVal)) :
  props <> [] ->
  List.Forall
    (fun kv =>
       forall rest fuel,
         ends_numeral rest = true ->
         (String.length (text_flat (snd kv)) < fuel)%nat ->
         parse_value fuel (text_flat (snd kv) ++ rest) = Some (snd kv, rest))
    props ->
  forall rest fuel,
    (String.length
       (join ","
          (List.map (fun kv => quote_string (fst kv) ++ ":" ++ text_flat (snd kv)) props))
     + 1 < fuel)%nat ->
    parse_members fuel
      (join "," (List.map (fun kv => quote_string (fst kv) ++ ":" ++ text_flat (snd kv))
                   props)
         ++ String "}" rest)
    = Some (props, rest).
Proof.
  intros Hne Hall.
  induction Hall as [|[k x] l Hx Hl IH]; [congruence|]. clear Hne.
  intros rest fuel Hfuel. destruct fuel as [|f]; [lia|].
  cbn [fst snd] in Hx.
  destruct l as [|y l].
  - cbn [List.map join fst snd] in *.
    rewrite !length_append in Hfuel. cbn [String.length] in Hfuel.
    rewrite !append_assoc, quote_string_append.
    rewrite parse_members_unfold, parse_string_quote.
    change (":" ++ ?X)%string with (String ":" X).
    cbn [skip_space]. change (is_json_space ":") with false. cbv iota.
    change (Ascii.eqb ":" ":") with true. cbv iota.
    rewrite (Hx (String "}" rest) f eq_refl) by lia.
    reflexivity.
  - cbn [List.map fst snd] in *. rewrite join_cons2 in *.
    rewrite !length_append in Hfuel. cbn [String.length] in Hfuel.
    rewrite !append_assoc, quote_string_append.
    rewrite parse_members_unfold, parse_string_quote.
    change (":" ++ ?X)%string with (String ":" X).
    cbn [skip_space]. change (is_json_space ":") with false. cbv iota.
    change (Ascii.eqb ":" ":") with true. cbv iota.
    match goal with
    | |- context [parse_value f (text_flat x ++ ?R)] =>
        rewrite (Hx R f eq_refl) by lia
    end.
    change ("," ++ ?X)%string with (String "," X).
    cbn [skip_space]. change (is_json_space ",") with false. cbv iota.
    change (Ascii.eqb "," ",") with true. cbv iota.
    rewrite IH; [reflexivity | discriminate | ].
    cbn [List.map]. lia.
Qed.

(** The text without indentation reads back as the value. *)
Lemma parse_value_flat (v : JsVal) :
  json_exact v = true ->
  forall rest fuel,
    ends_numeral rest = true ->
    (String.length (text_flat v) < fuel)%nat ->
    parse_value fuel (text_flat v ++ rest) = Some (v, rest).
Proof.
  induction v as [ | | b | n | s | items IH | props IH] using JsVal_nested_ind;
    intros Hx rest fuel Hrest Hfuel;
    (destruct fuel as [|f]; [lia|]).
  - discriminate.
  - reflexivity.
  - destruct b; reflexivity.
  - destruct n as [ | | q]; try discriminate. simpl in Hx.
    destruct (numerals q Hx) as [Hj Hn].
    unfold text_flat. cbn [stringify_flat].
    destruct (json_number_chars _ Hj) as (Hchars & c & t & Ht & Hc).
    pose proof (span_number_token _ _ Hchars Hrest) as Hspan.
    rewrite Ht in Hspan |- *. cbn [String.append] in Hspan |- *.
    rewrite (parse_value_numeral _ _ _ Hc), Hspan, <- Ht, Hj, Hn. reflexivity.
  - unfold text_flat. cbn [stringify_flat]. rewrite quote_string_append.
    rewrite parse_value_string, parse_string_quote. reflexivity.
  - pose proof (json_exact_items _ Hx) as Hitems.
    unfold text_flat in Hfuel |- *. rewrite stringify_flat_items in *.
    destruct items as [|x l]; [reflexivity|].
    cbn [List.map] in *.
    rewrite !length_append in Hfuel. cbn [String.length] in Hfuel.
    rewrite !append_assoc.
    change ("[" ++ ?X)%string with (String "[" X).
    rewrite parse_value_array.
    destruct (flat_start x) as (c & t & Ht & Hc); [now inversion Hitems|].
    assert (Hjoin : exists j, join "," (text_flat x :: List.map text_flat l) = String c j).
    { destruct l as [|y l].
      - exists t. exact Ht.
      - cbn [List.map]. rewrite join_cons2, Ht. now eexists. }
    destruct Hjoin as [j Hj].
    destruct (value_start_not_space c Hc) as (Hsp & Hclose & _).
    pose proof (parse_elements_flat (x :: l)) as Hel.
    cbn [List.map] in Hel. rewrite Hj in *. cbn [String.append].
    rewrite (skip_space_start _ _ Hsp), Hclose.
    specialize (Hel ltac:(discriminate)).
    assert (Hall : List.Forall
                     (fun x => forall rest fuel,
                          ends_numeral rest = true ->
                          (String.length (text_flat x) < fuel)%nat ->
                          parse_value fuel (text_flat x ++ rest) = Some (x, rest))
                     (x :: l)).
    { apply List.Forall_forall. intros y Hy.
      rewrite List.Forall_forall in IH, Hitems.
      intros. apply IH; auto. }
    specialize (Hel Hall rest f).
    change ("]" ++ rest)%string with (String "]" rest).
    cbn [String.append] in Hel.
    rewrite Hel by lia. reflexivity.
  - apply json_exact_props in Hx as [Henum Hprops].
    unfold text_flat in Hfuel |- *. rewrite (stringify_flat_props _ Hprops) in *.
    destruct props as [|[k x] l]; [reflexivity|].
    pose proof (parse_members_flat ((k, x) :: l)) as Hel.
    cbn [List.map fst snd] in *.
    rewrite !length_append in Hfuel. cbn [String.length] in Hfuel.
    rewrite !append_assoc.
    change ("{" ++ ?X)%string with (String "{" X).
    rewrite parse_value_object.
    assert (Hjoin : exists j,
               join ","
                 ((quote_string k ++ ":" ++ text_flat x)%string
                  :: List.map (fun kv => quote_string (fst kv) ++ ":"
                                           ++ text_flat (snd kv))%string l)
               = String quote j).
    { destruct l as [|y l].
      - cbn [List.map join]. unfold quote_string. cbn [String.append]. now eexists.
      - cbn [List.map]. rewrite join_cons2. unfold quote_string at 1.
        cbn [String.append]. now eexists. }
    destruct Hjoin as [j Hj].
    rewrite Hj in *. cbn [String.append].
    rewrite (skip_space_start quote) by reflexivity.
    change (Ascii.eqb quote "}") with false. cbv iota.
    specialize (Hel ltac:(discriminate)).
    assert (Hall : List.Forall
                     (fun kv => forall rest fuel,
                          ends_numeral rest = true ->
                          (String.length (text_flat (snd kv)) < fuel)%nat ->
                          parse_value fuel (text_flat (snd kv) ++ rest)
                          = Some (snd kv, rest))
                     ((k, x) :: l)).
    { apply List.Forall_forall. intros y Hy.
      rewrite List.Forall_forall in IH, Hprops.
      intros. apply IH; auto. }
    specialize (Hel Hall rest f).
    change ("}" ++ rest)%string with (String "}" rest).
    cbn [String.append] in Hel.
    rewrite Hel by lia. now rewrite (enumerated_rebuild _ Henum).
Qed.

(** [JSON.parse(JSON.stringify(v))] is [v]. *)
Lemma JSON_parse_flat (v : JsVal) :
  json_exact v = true ->
  stringify_flat v = Some (text_flat v) /\ JSON_parse (text_flat v) = Some v.
Proof.
  intros Hx. split; [unfold text_flat; destruct v; try discriminate; reflexivity|].
  unfold JSON_parse.
  pose proof (parse_value_flat v Hx "" (S (String.length (text_flat v)))
                eq_refl (Nat.lt_succ_diag_r _)) as Hp.
  rewrite append_nil_r in Hp. now rewrite Hp.
Qed.

Lemma load_persisted (l : list MyActivityEvent) :
  List.Forall (fun e => event_exact e = true) l ->
  load_stored (Some (persist_text l)) = Replaced l.
Proof.
  intros Hexact.
  destruct (JSON_parse_flat (events_value l) (events_value_exact l Hexact)) as [Hs Hp].
  unfold load_stored, persist_text. rewrite Hs, Hp, as_events_value.
  destruct (flat_start (events_value l) (events_value_exact l Hexact)) as (c & t & -> & _).
  reflexivity.
Qed.

End FlatRoundtrip.

Lemma step_keeps_list `{Platform} (a : Ambient) (s : PageState) (i : PageInput) :
  sets_list s i = false -> myEvents (step a s i) = myEvents s.
Proof.
  destruct i; cbn [sets_list step]; unfold listener, route_effect, onScroll;
    try (intros ->; reflexivity); try discriminate.
  - destruct (Bool.eqb checked (tracking s)); [reflexivity|].
    cbn [negb andb myEvents]. now intros ->.
  - destruct (tracking s); [|reflexivity]. cbn [andb]. now intros ->.
Qed.

Lemma step_stored_follows `{Platform} (a : Ambient) (s : StoredPage) (i : PageInput) :
  stored s = Some (persist_text (myEvents (page s))) ->
  stored (step_stored a s i)
  = Some (persist_text (myEvents (page (step_stored a s i)))).
Proof.
  intros Hs. unfold step_stored. cbn [stored page].
  destruct (sets_list (page s) i) eqn:Hset; [reflexivity|].
  rewrite (step_keeps_list a _ _ Hset).
  destruct i; try exact Hs. discriminate.
Qed.

Lemma mount_stored_follows `{Platform} (raw : option string) (full : string)
    (s0 : StoredPage) :
  mount_stored raw full = Some s0 ->
  stored s0 = Some (persist_text (myEvents (page s0)))
  /\ tracking (page s0) = false /\ route (page s0) = full.
Proof.
  unfold mount_stored. destruct (load_stored raw); intros [= <-]; now repeat split.
Qed.





